(** * LacevApp: signal conditioning and feature extraction

    A shallow embedding of the processing core of LacevApp
    ([lacev_lib/feature_extractor.py], [lacev_lib/signal_filter.py] and the
    aggregation step of [main.py]) together with the properties its
    specification states about it.

    Conventions of the embedding:
    - Python [int] is [Z]; [//] is [Z.div] (both round towards minus
      infinity for a positive divisor); [int(x)] on a real number is
      truncation towards zero.
    - Samples and every other real-valued quantity are rationals [Q], the
      exact values of the doubles. Where the code's own arithmetic on
      doubles decides a statement, the rounding is written out with
      [round_binary64]: the product of line 30 and the literal [1e-9] of
      line 66. Elsewhere the arithmetic is exact.
    - Routines taken from numpy, scipy, pandas, antropy and nolds whose
      result is a number computed from the samples are fields of the record
      [estimators], total functions: [FeatureExtractor] is the run of the
      code in which every library call returns. [LibraryCalls] has the
      segment loop with the calls as they can end, by a return or by an
      exception, and with [np.mean] as the library computes it.
    - Loops are folds over the iteration range, threading the variables the
      Python loop mutates in a record. *)

From Stdlib Require Import ZArith QArith Qabs Qround List String Ascii Bool Lia.
From Stdlib Require Import DecimalString SetoidList.
From Stdlib Require Import DecimalZ DecimalPos.
From Stdlib Require Qcanon.
Import ListNotations.
Open Scope Z_scope.

(** ** Python values and sequence primitives *)

Module Py.

(** The values that travel through a feature row or a table cell. [PyNaN] is
    the float NaN pandas uses for a missing cell. *)
Inductive value : Type :=
| PyNone
| PyBool (b : bool)
| PyInt (z : Z)
| PyFloat (q : Q)
| PyStr (s : string)
| PyNaN.

(** Truth value testing, as done by [if x:]. *)
Definition truthy (v : value) : bool :=
  match v with
  | PyNone => false
  | PyBool b => b
  | PyInt z => negb (z =? 0)
  | PyFloat q => negb (Qeq_bool q 0)
  | PyStr s => negb (String.eqb s EmptyString)
  | PyNaN => true
  end.

(** [float(v)] of a numeric value. *)
Definition float_of (v : value) : Q :=
  match v with
  | PyFloat q => q
  | PyInt z => inject_Z z
  | PyBool b => if b then 1%Q else 0%Q
  | _ => 0%Q
  end.

(** [len(l)]. *)
Definition len {A : Type} (l : list A) : Z := Z.of_nat (List.length l).

(** [int(x)] for a real [x]: truncation towards zero. *)
Definition int_of_Q (q : Q) : Z := Z.quot (Qnum q) (Zpos (Qden q)).

(** floor(log2(n/d)) for positive [n] and [d]. *)
Definition floor_log2 (n d : Z) : Z :=
  let k := Z.log2 n - Z.log2 d in
  if (if 0 <=? k then d * 2 ^ k <=? n else d <=? n * 2 ^ (- k))
  then k else k - 1.

(** The integer nearest to [n/d], the even one on a tie, for positive
    [d]. *)
Definition round_half_even (n d : Z) : Z :=
  let q := n / d in
  let r := n mod d in
  if 2 * r <? d then q
  else if d <? 2 * r then q + 1
  else if Z.even q then q else q + 1.

(** The double nearest to a real, ties to even: the rounding of every
    arithmetic operation on Python floats. The significand has 53 bits and
    the exponent of its last bit is at least -1074; overflow to infinity is
    left out. *)
Definition round_binary64 (x : Q) : Q :=
  let x := Qred x in
  let n := Z.abs (Qnum x) in
  let d := Zpos (Qden x) in
  if n =? 0 then 0%Q
  else
    let e := Z.max (floor_log2 n d - 52) (-1074) in
    let m := if 0 <=? e then round_half_even n (d * 2 ^ e)
             else round_half_even (n * 2 ^ (- e)) d in
    let v := if 0 <=? e then inject_Z (m * 2 ^ e)
             else Qmake m (Z.to_pos (2 ^ (- e))) in
    if Qnum x <? 0 then (- v)%Q else v.

(** Bound of a slice: a negative bound counts from the end, and the result
    is clipped to [0, len]. *)
Definition slice_bound (n i : Z) : Z :=
  if i <? 0 then Z.max 0 (i + n) else Z.min i n.

(** [l[s:e]]. *)
Definition slice {A : Type} (l : list A) (s e : Z) : list A :=
  let s' := slice_bound (len l) s in
  let e' := slice_bound (len l) e in
  firstn (Z.to_nat (e' - s')) (skipn (Z.to_nat s') l).

(** [l[i]] with Python's negative indexing; [d] stands for the IndexError
    case, which no call below reaches. *)
Definition index {A : Type} (d : A) (l : list A) (i : Z) : A :=
  if i <? 0 then nth (Z.to_nat (len l + i)) l d else nth (Z.to_nat i) l d.

(** [str(z)] for an integer. *)
Definition str_of_Z (z : Z) : string := NilZero.string_of_int (Z.to_int z).

(** [range(a, b)]. *)
Definition range (a b : Z) : list Z :=
  map (fun k => a + Z.of_nat k) (seq 0 (Z.to_nat (b - a))).

(** [sum(l)] over integers and over reals. *)
Definition sumZ (l : list Z) : Z := fold_right Z.add 0 l.
Definition sumQ (l : list Q) : Q := fold_right Qplus 0%Q l.

(** No two members of [l] are equal as rationals. *)
Fixpoint distinctQ (l : list Q) : bool :=
  match l with
  | [] => true
  | x :: l' => negb (existsb (Qeq_bool x) l') && distinctQ l'
  end.

(** [x > y] on reals. *)
Definition Qgtb (x y : Q) : bool := negb (Qle_bool x y).

(** [a[mask]]: numpy boolean-mask selection. *)
Fixpoint mask_select {A : Type} (mask : list bool) (a : list A) : list A :=
  match mask, a with
  | m :: mask', x :: a' =>
      if m then x :: mask_select mask' a' else mask_select mask' a'
  | _, _ => []
  end.

End Py.

(** ** [lacev_lib/feature_extractor.py] *)

Module FeatureExtractor.
Import Py.

(** The eight rows of [DataFrame.describe()] for a single column, in
    pandas' order. *)
Record describe_rows : Type := mk_describe {
  d_count : Q; d_mean : Q; d_std : Q; d_min : Q;
  d_q25 : Q; d_q50 : Q; d_q75 : Q; d_max : Q
}.

(** [df.iloc[k][0]] on the result of [describe()]. *)
Definition iloc (d : describe_rows) (k : Z) : Q :=
  index 0%Q [d_count d; d_mean d; d_std d; d_min d;
             d_q25 d; d_q50 d; d_q75 d; d_max d] k.

(** The numerical routines of the scientific libraries the extractor calls. *)
Record estimators : Type := mk_estimators {
  (* antropy.app_entropy(x, order=2) *)
  app_entropy : list Q -> Q;
  (* nolds.dfa(x, fit_exp='poly', overlap=False) *)
  dfa : list Q -> Q;
  (* nolds.lyap_e(x): the spectrum of exponents *)
  lyap_e : list Q -> list Q;
  (* nolds.lyap_r(x, min_tsep=m) *)
  lyap_r : list Q -> Z -> Q;
  (* abs(scipy.fft.rfft(x)) *)
  rfft_abs : list Q -> list Q;
  (* scipy.signal.welch(x, fs=fs, return_onesided=False, detrend=False):
     the frequencies and the PSD values, two arrays of equal length *)
  welch : list Q -> Q -> list Q * list Q;
  (* pandas.DataFrame(x).describe() *)
  describe : list Q -> describe_rows;
  (* scipy.integrate.simpson(y, dx=dx) *)
  simpson : list Q -> Q -> Q
}.

(** [start_time_info]: an int, a list of HHMM clock labels (the decimal
    strings the caller builds, read by [int]), or anything else. *)
Inductive time_info : Type :=
| TimeInt (z : Z)
| TimeList (l : list Z)
| TimeOther.

(** [start_date_info]: an int, a list of date strings, or anything else. *)
Inductive date_info : Type :=
| DateInt (z : Z)
| DateList (l : list string)
| DateOther.

(** [np.mean] of a non-empty array, as the exact mean. *)
Definition np_mean (x : list Q) : Q := (sumQ x / inject_Z (len x))%Q.

(** The literal [1e-9], as the exact decimal. *)
Definition epsilon : Q := 1 # 1000000000.

Definition _adjust_minute_representation (minute_value : Z) : Z :=
  if (minute_value >? 60) && (minute_value <? 100) then 100
  else if (minute_value >? 160) && (minute_value <? 200) then 200
  else if (minute_value >? 2160) && (minute_value <? 2200) then 2200
  else if minute_value >? 2359 then 0
  else minute_value.

(** The [min_tsep] argument handed to [lyap_r] for a segment of [n]
    samples. *)
Definition lyap_r_min_tsep (n : Z) : Z :=
  if n >? 1305 * 2 then 1305 else Z.max 1 (n / 2 - 1).

(** [frequency_resolution]. *)
Definition frequency_resolution (frequencies : list Q) : Q :=
  if len frequencies <? 2 then 1%Q
  else (index 0%Q frequencies 1 - index 0%Q frequencies 0)%Q.

(** [np.logical_and(frequencies >= low, frequencies <= high)]. *)
Definition band_indices (frequencies : list Q) (low high : Q) : list bool :=
  map (fun f => Qle_bool low f && Qle_bool f high) frequencies.

(** [simpson(psd_values[band_indices], dx=frequency_resolution)
     if np.any(band_indices) else 0.0]. *)
Definition absolute_band_power (est : estimators)
    (frequencies psd_values : list Q) (low high : Q) : Q :=
  let idx := band_indices frequencies low high in
  if existsb (fun b => b) idx
  then simpson est (mask_select idx psd_values)
                   (frequency_resolution frequencies)
  else 0%Q.

(** The five bands, in the order of the source. *)
Definition bands : list (Q * Q) :=
  [(0, 1 # 2); (1 # 2, 4); (4, 8); (8, 12); (12, 30)]%Q.

(** [positive_lyapunov_exponents_count]. *)
Definition positive_count (vals : list Q) : Z :=
  fold_left (fun c v => if Qgtb v 0 then c + 1 else c) vals 0.

(** [formatted_minute] of the segment [segment_start_index,
    segment_end_index). *)
Definition formatted_minute (start_time_info : time_info)
    (segment_start_index segment_end_index current_minute_offset : Z) : Z :=
  match start_time_info with
  | TimeInt _ => current_minute_offset
  | TimeList l =>
      if len l >? segment_end_index - 1 then
        let time_segment_processed :=
          slice l segment_start_index segment_end_index in
        match time_segment_processed with
        | [] => current_minute_offset
        | _ =>
            _adjust_minute_representation
              (int_of_Q (inject_Z (sumZ time_segment_processed)
                         / inject_Z (len time_segment_processed)))
        end
      else current_minute_offset
  | TimeOther => current_minute_offset
  end.

(** [formatted_date]. *)
Definition formatted_date (start_date_info : date_info)
    (segment_start_index : Z) : string :=
  match start_date_info with
  | DateInt _ => "0/00/0000"%string
  | DateList l =>
      if len l >? segment_start_index
      then index "0/00/0000"%string l segment_start_index
      else "0/00/0000"%string
  | DateOther => "0/00/0000"%string
  end.

(** The arguments of [extract_features] that stay fixed during the call. *)
Record call_args : Type := mk_call_args {
  data_array : list Q;
  segment_duration_minutes : Z;
  start_time_info : time_info;
  start_date_info : date_info;
  class_id : Z;
  class_name : string;
  sample_rate : Q;
  stage_info : value
}.

(** The 21 numeric fields of a row, lines 138-150. *)
Definition numeric_features (est : estimators) (a : call_args)
    (current_segment_data : list Q) : list Q :=
  let segment_array := current_segment_data in
  let approximate_entropy := app_entropy est segment_array in
  let detrended_fluctuation_analysis := dfa est segment_array in
  let lyapunov_exponent_values := lyap_e est segment_array in
  let lyapunov_exponent_r :=
    lyap_r est segment_array (lyap_r_min_tsep (len segment_array)) in
  let fft_description_df := describe est (rfft_abs est segment_array) in
  let (frequencies, psd_values) := welch est segment_array (sample_rate a) in
  let psd_description_df := describe est (map Qabs psd_values) in
  let band := absolute_band_power est frequencies psd_values in
  let segment_data_description_df :=
    describe est (map Qabs current_segment_data) in
  [ Qabs approximate_entropy; Qabs detrended_fluctuation_analysis;
    inject_Z (positive_count lyapunov_exponent_values); lyapunov_exponent_r;
    Qabs (band 0 (1 # 2)); Qabs (band (1 # 2) 4);
    Qabs (band 4 8); Qabs (band 8 12);
    Qabs (band 12 30);
    iloc fft_description_df 1; Qabs (iloc fft_description_df 3);
    Qabs (iloc fft_description_df (-1)); Qabs (iloc fft_description_df 2);
    Qabs (iloc psd_description_df 1); Qabs (iloc psd_description_df 3);
    Qabs (iloc psd_description_df (-1)); Qabs (iloc psd_description_df 2);
    Qabs (iloc segment_data_description_df 1);
    Qabs (iloc segment_data_description_df 3);
    Qabs (iloc segment_data_description_df (-1));
    Qabs (iloc segment_data_description_df 2) ]%Q.

(** [feature_vector], lines 110-150. *)
Definition feature_vector (est : estimators) (a : call_args)
    (segment_start_index segment_end_index current_minute_offset : Z)
    (current_segment_data : list Q) : list value :=
  [ PyInt (class_id a); PyStr (class_name a);
    PyInt (formatted_minute (start_time_info a) segment_start_index
             segment_end_index current_minute_offset);
    PyStr (formatted_date (start_date_info a) segment_start_index) ]
  ++ (if truthy (stage_info a) then [stage_info a] else [])
  ++ map PyFloat (numeric_features est a current_segment_data).

(** What one iteration of the segment loop did: it left through the
    [continue] of line 56 with the clamped bounds, or it reached the slice of
    line 59 with these bounds and then appended a row or not. *)
Inductive segment_event : Type :=
| Discarded (segment_start segment_end : Z)
| Sliced (segment_start segment_end : Z) (appended : bool).

(** The variables the loop mutates; [events] records the iterations. *)
Record loop_state : Type := mk_loop_state {
  segment_end_index : Z;
  current_minute_offset : Z;
  feature_results_list : list (list value);
  events : list segment_event
}.

(** The validity test of line 66 on the exact mean;
    [LibraryCalls.segment_passes] has it on doubles. *)
Definition segment_valid (current_segment_data : list Q) : bool :=
  (len current_segment_data >? 100)
  && Qgtb (Qabs (np_mean current_segment_data)) epsilon.

(** Lines 59-154: the work on the window once its bounds are settled, when
    every library call returns. *)
Definition process_segment (est : estimators) (a : call_args)
    (st : loop_state) (segment_start_index segment_end_index' : Z)
    : loop_state :=
  let current_segment_data :=
    slice (data_array a) segment_start_index segment_end_index' in
  if len current_segment_data =? 0 then
    mk_loop_state segment_end_index' (current_minute_offset st)
      (feature_results_list st)
      (events st ++ [Sliced segment_start_index segment_end_index' false])
  else if segment_valid current_segment_data then
    mk_loop_state segment_end_index'
      (_adjust_minute_representation
         (current_minute_offset st + segment_duration_minutes a))
      (feature_results_list st
       ++ [feature_vector est a segment_start_index segment_end_index'
             (current_minute_offset st) current_segment_data])
      (events st ++ [Sliced segment_start_index segment_end_index' true])
  else
    mk_loop_state segment_end_index' (current_minute_offset st)
      (feature_results_list st)
      (events st ++ [Sliced segment_start_index segment_end_index' false]).

(** The body of [for i in range(1, number_of_segments + 1)]. *)
Definition loop_body (est : estimators) (a : call_args)
    (total_data_points segment_length_points overlap_points : Z)
    (st : loop_state) (i : Z) : loop_state :=
  let segment_start_index :=
    if i =? 1 then 0 else segment_end_index st - overlap_points in
  let segment_end_index' :=
    if i =? 1 then segment_length_points
    else segment_start_index + segment_length_points in
  if segment_end_index' >? total_data_points then
    let segment_end_index' := total_data_points in
    if segment_start_index >=? segment_end_index' then
      mk_loop_state segment_end_index' (current_minute_offset st)
        (feature_results_list st)
        (events st ++ [Discarded segment_start_index segment_end_index'])
    else process_segment est a st segment_start_index segment_end_index'
  else process_segment est a st segment_start_index segment_end_index'.

(** [points_per_segment], line 30: the product is taken from left to right
    in doubles, each factor being the double of its value and each product
    rounded, and [int] truncates the result. With a sample rate and a
    duration that are integers the doubles are exact as long as the products
    stay below 2^53, which is also what Python computes on its integers
    there. *)
Definition points_per_segment (a : call_args) : Z :=
  int_of_Q
    (round_binary64
       (round_binary64 (round_binary64 (sample_rate a) * 60)
        * round_binary64 (inject_Z (segment_duration_minutes a)))).

(** [extract_features], with the loop variables as they stand on return. *)
Definition extract_features_state (est : estimators) (a : call_args)
    (feature_results_list0 : list (list value)) : loop_state :=
  let total_data_points := len (data_array a) in
  let st0 := mk_loop_state 0 0 feature_results_list0 [] in
  if points_per_segment a =? 0 then st0
  else
    let number_of_segments := total_data_points / points_per_segment a in
    if total_data_points >=? points_per_segment a then
      let segment_length_points := points_per_segment a in
      let overlap_points := segment_length_points / 3 in
      fold_left
        (loop_body est a total_data_points segment_length_points
           overlap_points)
        (range 1 (number_of_segments + 1)) st0
    else st0.

(** [extract_features]: the list it returns. *)
Definition extract_features (est : estimators) (a : call_args)
    (feature_results_list0 : list (list value)) : list (list value) :=
  feature_results_list (extract_features_state est a feature_results_list0).

(** The bounds of an iteration's segment and whether it was discarded. *)
Definition event_candidate (ev : segment_event) : Z * Z * bool :=
  match ev with
  | Discarded s e => (s, e, true)
  | Sliced s e _ => (s, e, false)
  end.

(** Number of iterations that appended a row. *)
Definition accepted_count (evs : list segment_event) : nat :=
  List.length (filter (fun ev => match ev with
                                 | Sliced _ _ b => b
                                 | Discarded _ _ => false
                                 end) evs).

End FeatureExtractor.

(** ** [extract_features] with the library calls as they can end *)

Module LibraryCalls.
Import Py FeatureExtractor.

(** The library as the segment loop meets it: the value of [np.mean] on
    the doubles of a segment, the values of the routines when they return,
    and whether a call raises. *)
Record library : Type := mk_library {
  (* np.mean(x), a double *)
  mean_double : list Q -> Q;
  (* what the routines of lines 68-108 return when they return *)
  returned : estimators;
  (* nolds.lyap_r(x, min_tsep=m) raises *)
  lyap_r_raises : list Q -> Z -> bool;
  (* another call of lines 68-150 raises on the segment, at this sample
     rate *)
  other_call_raises : list Q -> Q -> bool
}.

(** The literal [1e-9]: the double nearest to it. *)
Definition epsilon_double : Q := round_binary64 (1 # 1000000000).

(** The validity test of line 66, on the double that [np.mean] returns. *)
Definition segment_passes (lib : library) (current_segment_data : list Q)
    : bool :=
  (len current_segment_data >? 100)
  && Qgtb (Qabs (mean_double lib current_segment_data)) epsilon_double.

(** One of the calls made on a segment that passed the test raises. *)
Definition segment_raises (lib : library) (a : call_args)
    (segment_array : list Q) : bool :=
  other_call_raises lib segment_array (sample_rate a)
  || lyap_r_raises lib segment_array (lyap_r_min_tsep (len segment_array)).

(** How an iteration ends: the loop goes on from a state, or an exception
    leaves the call with the variables in a state. *)
Inductive iteration : Type :=
| Continues (st : loop_state)
| Raises (st : loop_state).

(** Lines 59-154. An exception of a library call leaves before the row is
    appended and before the counter is advanced. The record of iterations
    is not kept here. *)
Definition process_segment_calls (lib : library) (a : call_args)
    (st : loop_state) (segment_start_index segment_end_index' : Z)
    : iteration :=
  let current_segment_data :=
    slice (data_array a) segment_start_index segment_end_index' in
  if len current_segment_data =? 0 then
    Continues (mk_loop_state segment_end_index' (current_minute_offset st)
                 (feature_results_list st) (events st))
  else if segment_passes lib current_segment_data then
    if segment_raises lib a current_segment_data then
      Raises (mk_loop_state segment_end_index' (current_minute_offset st)
                (feature_results_list st) (events st))
    else
      Continues
        (mk_loop_state segment_end_index'
           (_adjust_minute_representation
              (current_minute_offset st + segment_duration_minutes a))
           (feature_results_list st
            ++ [feature_vector (returned lib) a segment_start_index
                  segment_end_index' (current_minute_offset st)
                  current_segment_data])
           (events st))
  else
    Continues (mk_loop_state segment_end_index' (current_minute_offset st)
                 (feature_results_list st) (events st)).

(** The body of [for i in range(1, number_of_segments + 1)]. *)
Definition loop_body_calls (lib : library) (a : call_args)
    (total_data_points segment_length_points overlap_points : Z)
    (st : loop_state) (i : Z) : iteration :=
  let segment_start_index :=
    if i =? 1 then 0 else segment_end_index st - overlap_points in
  let segment_end_index' :=
    if i =? 1 then segment_length_points
    else segment_start_index + segment_length_points in
  if segment_end_index' >? total_data_points then
    let segment_end_index' := total_data_points in
    if segment_start_index >=? segment_end_index' then
      Continues (mk_loop_state segment_end_index' (current_minute_offset st)
                   (feature_results_list st) (events st))
    else process_segment_calls lib a st segment_start_index segment_end_index'
  else process_segment_calls lib a st segment_start_index segment_end_index'.

(** The loop: an exception ends it. *)
Definition loop_calls (lib : library) (a : call_args)
    (total_data_points segment_length_points overlap_points : Z)
    (indices : list Z) (st : loop_state) : iteration :=
  fold_left
    (fun (it : iteration) (i : Z) =>
       match it with
       | Continues st' =>
           loop_body_calls lib a total_data_points segment_length_points
             overlap_points st' i
       | Raises st' => Raises st'
       end)
    indices (Continues st).

(** How a call of [extract_features] ends: it returns the list, or an
    exception leaves it. The list is the caller's, extended in place, so the
    rows appended before an exception stay in it. *)
Inductive ending : Type :=
| Returned (feature_results_list : list (list value))
| Raised (feature_results_list : list (list value)).

Definition ending_of (it : iteration) : ending :=
  match it with
  | Continues st => Returned (feature_results_list st)
  | Raises st => Raised (feature_results_list st)
  end.

(** [extract_features]. *)
Definition extract_features_calls (lib : library) (a : call_args)
    (feature_results_list0 : list (list value)) : ending :=
  let total_data_points := len (data_array a) in
  let st0 := mk_loop_state 0 0 feature_results_list0 [] in
  if points_per_segment a =? 0 then Returned feature_results_list0
  else
    let number_of_segments := total_data_points / points_per_segment a in
    if total_data_points >=? points_per_segment a then
      let segment_length_points := points_per_segment a in
      let overlap_points := segment_length_points / 3 in
      ending_of
        (loop_calls lib a total_data_points segment_length_points
           overlap_points (range 1 (number_of_segments + 1)) st0)
    else Returned feature_results_list0.

(** What nolds does with too short a series: [lyap_r] raises a ValueError
    when fewer than [2 * min_tsep + 2] trajectories can be followed. With
    its default embedding dimension 10 and trajectory length 20 there are
    [len - 9 * lag - 19] of them for the lag it picks, which is at least 1,
    so at most [len - 28]. *)
Definition nolds_trajectory_check (lib : library) : Prop :=
  forall (x : list Q) (min_tsep : Z),
    len x - 28 < 2 * min_tsep + 2 -> lyap_r_raises lib x min_tsep = true.

(** [np.mean] of zeros is zero. *)
Definition mean_of_zeros (lib : library) : Prop :=
  forall x : list Q,
    Forall (fun v => v == 0)%Q x -> (mean_double lib x == 0)%Q.

(** The window of the [i]-th iteration, counted from 0, and its samples,
    when no window is clamped. *)
Definition window_start (a : call_args) (i : nat) : Z :=
  Z.of_nat i * (points_per_segment a - points_per_segment a / 3).
Definition window_end (a : call_args) (i : nat) : Z :=
  window_start a i + points_per_segment a.
Definition window (a : call_args) (i : nat) : list Q :=
  slice (data_array a) (window_start a i) (window_end a i).

(** The rows of a call read off the windows: every window that passes the
    test gives a row, labelled with the counter, which then advances; a
    window that fails the test gives nothing and leaves the counter; the
    first window that passes the test and on which a library call raises
    ends the call. *)
Fixpoint rows_of_windows (lib : library) (a : call_args)
    (current_minute_offset : Z) (rows : list (list value))
    (indices : list nat) : ending :=
  match indices with
  | [] => Returned rows
  | i :: rest =>
      if segment_passes lib (window a i) then
        if segment_raises lib a (window a i) then Raised rows
        else
          rows_of_windows lib a
            (_adjust_minute_representation
               (current_minute_offset + segment_duration_minutes a))
            (rows ++ [feature_vector (returned lib) a (window_start a i)
                        (window_end a i) current_minute_offset
                        (window a i)])
            rest
      else rows_of_windows lib a current_minute_offset rows rest
  end.

End LibraryCalls.

(** ** Tables: the fragment of pandas the code relies on *)

Module Pandas.
Import Py.

(** A [DataFrame]: column labels and rows of cells. *)
Record DataFrame : Type := mk_frame {
  columns : list string;
  rows : list (list value)
}.

(** Position of a label among the column labels. *)
Fixpoint column_position (c : string) (cols : list string) : option nat :=
  match cols with
  | [] => None
  | c' :: cols' =>
      if String.eqb c c' then Some O
      else option_map S (column_position c cols')
  end.

(** The cells of [row], labelled by [from], laid out under the labels [to];
    a label absent from [from] gives NaN. *)
Definition reindex_row (from : list string) (to : list string)
    (row : list value) : list value :=
  map (fun c => match column_position c from with
                | Some k => nth k row PyNaN
                | None => PyNaN
                end) to.

(** [pd.DataFrame(df, columns=names)]: column selection by label. *)
Definition select_columns (df : DataFrame) (names : list string)
    : DataFrame :=
  mk_frame names (map (reindex_row (columns df) names) (rows df)).

(** Widest row of a list of lists. *)
Definition max_width (data : list (list value)) : nat :=
  fold_right (fun r w => Nat.max (List.length r) w) O data.

(** [pd.DataFrame(data, columns=names)] for a list of lists: [None] stands
    for the ValueError raised when the widest row and [names] differ in
    length; shorter rows are filled up with missing cells. *)
Definition frame_of_lists (data : list (list value)) (names : list string)
    : option DataFrame :=
  match data with
  | [] => Some (mk_frame names [])
  | _ =>
      if Nat.eqb (max_width data) (List.length names)
      then Some (mk_frame names
                   (map (fun r => r ++ repeat PyNaN
                                        (List.length names - List.length r))
                        data))
      else None
  end.

(** Labels of [cols] not yet in [seen], in order. *)
Definition new_columns (seen cols : list string) : list string :=
  filter (fun c => match column_position c seen with
                   | Some _ => false
                   | None => true
                   end) cols.

(** [pd.concat(frames, axis=0, ignore_index=True)]: the labels are the
    union in order of first appearance, the rows follow frame by frame. *)
Definition concat (frames : list DataFrame) : DataFrame :=
  let cols :=
    fold_left (fun seen df => seen ++ new_columns seen (columns df))
              frames [] in
  mk_frame cols
    (flat_map (fun df => map (reindex_row (columns df) cols) (rows df))
              frames).

(** A table under the labels [schema] whose rows have one cell per
    label. *)
Definition well_formed (schema : list string) (df : DataFrame) : Prop :=
  columns df = schema
  /\ Forall (fun row => List.length row = List.length schema) (rows df).

End Pandas.

(** ** [FeatureExtractor.save_features_to_csv] *)

Module FeatureTable.
Import Py Pandas.

(** [os.path.join] of two components. *)
Definition path_join (a b : string) : string := (a ++ "/" ++ b)%string.

(** [s.replace('\\', '/')]. *)
Fixpoint normalize_separators (s : string) : string :=
  match s with
  | EmptyString => EmptyString
  | String c s' =>
      String (if Ascii.eqb c "\"%char then "/"%char else c)
             (normalize_separators s')
  end.

(** [s.split('/')]. *)
Fixpoint split_slash (s : string) : list string :=
  match s with
  | EmptyString => [EmptyString]
  | String c s' =>
      if Ascii.eqb c "/"%char then EmptyString :: split_slash s'
      else match split_slash s' with
           | [] => [String c EmptyString]
           | h :: t => String c h :: t
           end
  end.

Definition feature_metric_names : list string :=
  [ "apen"; "dfa"; "chaos_cont_dim"; "lyap_r";
    "abp_low"; "abp_delta"; "abp_theta"; "abp_alpha"; "abp_beta";
    "fft_mean"; "fft_min"; "fft_max"; "fft_variance";
    "psd_mean"; "psd_min"; "psd_max"; "psd_variance";
    "electrome_mean"; "electrome_min"; "electrome_max";
    "electrome_variance" ]%string.

(** [column_names], lines 232-243. *)
Definition column_names (stage_parameter_flag : bool) : list string :=
  [ "class_id"; "class_name"; "formatted_minute"; "formatted_date" ]%string
  ++ (if stage_parameter_flag then ["stage_info"%string] else [])
  ++ feature_metric_names.

(** [features_list_of_lists] is a list of rows at the per-file call site and
    a DataFrame at the aggregation call site. *)
Inductive features_arg : Type :=
| OfLists (data : list (list value))
| OfFrame (df : DataFrame).

(** How a call ends: it returns [None], the DataFrame it wrote, or the
    exception object of a failed write; or the DataFrame constructor of line
    245, which is outside the [try], raises. *)
Inductive save_outcome : Type :=
| ReturnedNone
| ReturnedFrame (df : DataFrame)
| ReturnedException
| RaisedValueError.

(** The files written so far, newest first. *)
Definition disk : Type := list (string * DataFrame).

(** Line 245. *)
Definition build_features_df (features : features_arg)
    (names : list string) : option DataFrame :=
  match features with
  | OfLists data => frame_of_lists data names
  | OfFrame df => Some (select_columns df names)
  end.

(** Lines 248-263: the path of the CSV, [None] for an unknown [save_mode]. *)
Definition csv_output_path (features_output_path output_identifier : string)
    (save_mode : Z) : option string :=
  if save_mode =? 0 then
    Some (path_join features_output_path
            ("df" ++ output_identifier ++ ".csv"))
  else if save_mode =? 1 then
    let parts := split_slash (normalize_separators output_identifier) in
    let class_subdir := nth 0 parts EmptyString in
    let file_id :=
      if (1 <? len parts) then nth 1 parts EmptyString
      else "features"%string in
    Some (path_join (path_join features_output_path class_subdir)
            ("df_" ++ file_id ++ ".csv"))
  else None.

(** [save_features_to_csv]. [writable] tells whether [os.makedirs] and
    [to_csv] succeed for a path. *)
Definition save_features_to_csv (writable : string -> bool)
    (features_output_path : option string) (features : features_arg)
    (output_identifier : string) (stage_parameter_flag : bool)
    (save_mode : Z) (d : disk) : save_outcome * disk :=
  match features_output_path with
  | None => (ReturnedNone, d)
  | Some base =>
      match build_features_df features (column_names stage_parameter_flag)
      with
      | None => (RaisedValueError, d)
      | Some features_df =>
          match csv_output_path base output_identifier save_mode with
          | None => (ReturnedNone, d)
          | Some path =>
              if writable path
              then (ReturnedFrame features_df, (path, features_df) :: d)
              else (ReturnedException, d)
          end
      end
  end.

End FeatureTable.

(** ** [lacev_lib/signal_filter.py] *)

Module SignalFilter.
Import Py.

(** The exceptions a filtering call can end with: the TypeError of line 40,
    the ValueError of line 89 about the cutoffs, or an exception escaping a
    scipy routine. *)
Inductive exn : Type :=
| TypeError
| CutoffValueError
| LibraryError (code : Z).

(** What the call has done to the signal or to the disk, oldest first. *)
Inductive effect : Type :=
| NotchStage
| BandpassStage
| SavedTxt (path : string).

(** A computation that may raise, together with the effects it performed up
    to its return or up to the exception. *)
Definition M (A : Type) : Type := list effect * (exn + A).

Definition ret {A : Type} (a : A) : M A := ([], inr a).
Definition raise {A : Type} (e : exn) : M A := ([], inl e).
Definition perform (f : effect) : M unit := ([f], inr tt).
Definition bind {A B : Type} (m : M A) (k : A -> M B) : M B :=
  match m with
  | (t, inl e) => (t, inl e)
  | (t, inr a) => let (t', r) := k a in (t ++ t', r)
  end.

(** How a scipy routine ends: with an exception of its own or with the
    filtered signal. *)
Inductive lib_result : Type :=
| LibRaised (code : Z)
| LibReturned (x : list Q).

Definition lift (r : lib_result) : M (list Q) :=
  match r with
  | LibRaised code => raise (LibraryError code)
  | LibReturned x => ret x
  end.

Notation "x <- m ;; k" := (bind m (fun x => k))
  (at level 61, m at next level, right associativity).
Notation "m ;;; k" := (bind m (fun _ => k))
  (at level 61, right associativity).

(** The stored configuration of a [SignalFilter]: the attributes set by
    [__init__]. *)
Record config : Type := mk_config {
  filtered_data_output_path : string;
  config_lowcut_freq : Q;
  config_highcut_freq : Q;
  config_filter_order : Z
}.

(** The scipy and numpy routines the filter calls. *)
Record backend : Type := mk_backend {
  (* iirnotch(w0, Q) followed by filtfilt(b, a, x) *)
  notch_filtfilt : Q -> Q -> list Q -> lib_result;
  (* butter(order, [low, high], btype='bandpass') followed by
     filtfilt(b, a, x) *)
  butter_filtfilt : Z -> Q -> Q -> list Q -> lib_result;
  (* os.makedirs and np.savetxt succeed for this path *)
  savetxt_ok : string -> bool
}.

(** [raw_signal_data], by the type tests of lines 32-40. *)
Inductive raw_signal : Type :=
| RawArray (x : list Q)
| RawSeries (x : list Q)
| RawDataFrame (first_column : list Q)
| RawOther.

(** Lines 32-40: the samples of an accepted input, [None] where the
    TypeError is raised. *)
Definition signal_array (raw_signal_data : raw_signal) : option (list Q) :=
  match raw_signal_data with
  | RawArray x => Some x
  | RawSeries x => Some x
  | RawDataFrame first_column => Some first_column
  | RawOther => None
  end.

Definition _apply_notch_filter (be : backend) (input_signal : list Q)
    (normalized_center_freq q_factor : Q) : M (list Q) :=
  perform NotchStage ;;;
  lift (notch_filtfilt be normalized_center_freq q_factor input_signal).

Definition _apply_butterworth_bandpass_filter (be : backend) (self : config)
    (input_signal : list Q) (sampling_frequency : Q) : M (list Q) :=
  let nyquist_frequency := ((1 # 2) * sampling_frequency)%Q in
  let normalized_low_cutoff :=
    (config_lowcut_freq self / nyquist_frequency)%Q in
  let normalized_high_cutoff :=
    (config_highcut_freq self / nyquist_frequency)%Q in
  if Qle_bool normalized_high_cutoff normalized_low_cutoff
  then raise CutoffValueError
  else
    perform BandpassStage ;;;
    lift (butter_filtfilt be (config_filter_order self)
            normalized_low_cutoff normalized_high_cutoff input_signal).

(** [_save_signal_to_txt]: [true] for the [True] it returns, [false] for a
    returned exception object. *)
Definition _save_signal_to_txt (be : backend) (self : config)
    (signal_to_save : list Q) (file_name_prefix output_subdir_name : string)
    : M bool :=
  let class_specific_filtered_path :=
    (filtered_data_output_path self ++ "/" ++ output_subdir_name)%string in
  let full_save_path :=
    (class_specific_filtered_path ++ "/" ++ file_name_prefix ++ ".txt")%string
  in
  if savetxt_ok be full_save_path
  then perform (SavedTxt full_save_path) ;;; ret true
  else ret false.

(** [apply_filters_and_save]: [Some (raw, filtered, raw_signal_data)] for the
    returned list, [None] for the returned [None]. *)
Definition apply_filters_and_save (be : backend) (self : config)
    (raw_signal_data : raw_signal)
    (output_subdir_name output_file_name_prefix : string)
    (sample_rate notch_frequency quality_factor : Q)
    : M (option (list Q * list Q * raw_signal)) :=
  signal_numpy_array <-
    match signal_array raw_signal_data with
    | Some x => ret x
    | None => raise TypeError
    end ;;
  let normalized_notch_freq := (notch_frequency / (sample_rate / 2))%Q in
  notch_filtered_signal <-
    _apply_notch_filter be signal_numpy_array normalized_notch_freq
      quality_factor ;;
  bandpass_filtered_signal <-
    _apply_butterworth_bandpass_filter be self notch_filtered_signal
      sample_rate ;;
  save_status <-
    _save_signal_to_txt be self bandpass_filtered_signal
      output_file_name_prefix output_subdir_name ;;
  if (save_status : bool)
  then ret (Some (signal_numpy_array, bandpass_filtered_signal,
                  raw_signal_data))
  else ret None.

(** The normalized cutoffs of a configuration at a sampling frequency. *)
Definition normalized_low_cutoff (self : config) (sampling_frequency : Q)
    : Q :=
  (config_lowcut_freq self / ((1 # 2) * sampling_frequency))%Q.
Definition normalized_high_cutoff (self : config) (sampling_frequency : Q)
    : Q :=
  (config_highcut_freq self / ((1 # 2) * sampling_frequency))%Q.

(** No filter has been run on the signal. *)
Definition no_filtering_attempted (t : list effect) : Prop :=
  ~ In NotchStage t /\ ~ In BandpassStage t.

(** Nothing has been written. *)
Definition no_output_artifact (t : list effect) : Prop :=
  forall path, ~ In (SavedTxt path) t.

End SignalFilter.

(** ** [main.py]: [LacevAppGUI.aggregate_and_save_class_features] *)

Module LacevAppGUI.
Import Py Pandas FeatureTable.

(** The second argument of [log_message]. *)
Inductive level : Type := LvInfo | LvWarning | LvError.

(** The messages of the aggregation step. *)
Inductive message : Type :=
| MsgNotInitialized
| MsgAggregating (class_subdir_name : string) (class_id : Z)
| MsgNoCsvFound (dir : string) (class_id : Z)
| MsgEmptyFeatureFile (path : string)
| MsgReadError (path : string)
| MsgNoValidFrames (class_id : Z)
| MsgSaveError (class_id : Z)
| MsgSaved (class_id : Z)
| MsgCritical (class_id : Z).

(** One call of [log_message]: the text and the message-box type, if any. *)
Definition log_entry : Type := (message * option level)%type.

(** How [pd.read_csv] ends on a file. *)
Inductive read_outcome : Type :=
| ReadFrame (df : DataFrame)
| ReadEmptyDataError
| ReadOtherError.

(** The file system as the step sees it. *)
Record world : Type := mk_world {
  (* glob.glob(os.path.join(dir, "*.csv")), in discovery order *)
  glob_csv : string -> list string;
  read_csv : string -> read_outcome;
  writable : string -> bool
}.

(** The attributes of the GUI object the step reads: whether
    [app_processor] and [feature_extractor] are set, and the two paths they
    hold. *)
Record gui : Type := mk_gui {
  initialized : bool;
  features_path : string;
  features_output_path : option string
}.

(** The reading loop, lines 445-452: the frames read and the log. *)
Definition read_feature_files (w : world) (paths : list string)
    : list DataFrame * list log_entry :=
  fold_left
    (fun (acc : list DataFrame * list log_entry) feature_file_path =>
       let (list_of_dfs_for_class, log) := acc in
       match read_csv w feature_file_path with
       | ReadFrame df_temp => (list_of_dfs_for_class ++ [df_temp], log)
       | ReadEmptyDataError =>
           (list_of_dfs_for_class,
            log ++ [(MsgEmptyFeatureFile feature_file_path, Some LvWarning)])
       | ReadOtherError =>
           (list_of_dfs_for_class,
            log ++ [(MsgReadError feature_file_path, Some LvError)])
       end)
    paths ([], []).

(** The log of the reading loop: one entry per file that is not read. *)
Definition read_log (w : world) (paths : list string) : list log_entry :=
  flat_map (fun path => match read_csv w path with
                        | ReadFrame _ => []
                        | ReadEmptyDataError =>
                            [(MsgEmptyFeatureFile path, Some LvWarning)]
                        | ReadOtherError =>
                            [(MsgReadError path, Some LvError)]
                        end) paths.

(** [aggregate_and_save_class_features]: the log it writes and the disk it
    leaves. *)
Definition aggregate_and_save_class_features (w : world) (self : gui)
    (class_subdir_name : string) (class_id : Z) (d : disk)
    : list log_entry * disk :=
  if negb (initialized self) then ([(MsgNotInitialized, Some LvError)], d)
  else
    let log0 := [(MsgAggregating class_subdir_name class_id, None)] in
    let class_specific_features_dir :=
      path_join (features_path self) class_subdir_name in
    let all_feature_files_in_subdir :=
      glob_csv w class_specific_features_dir in
    match all_feature_files_in_subdir with
    | [] =>
        (log0 ++ [(MsgNoCsvFound class_specific_features_dir class_id,
                   Some LvWarning)], d)
    | _ =>
        let (list_of_dfs_for_class, log1) :=
          read_feature_files w all_feature_files_in_subdir in
        match list_of_dfs_for_class with
        | [] =>
            (log0 ++ log1 ++ [(MsgNoValidFrames class_id, Some LvWarning)], d)
        | _ =>
            let aggregated_class_df := concat list_of_dfs_for_class in
            match save_features_to_csv (writable w)
                    (features_output_path self)
                    (OfFrame aggregated_class_df)
                    (str_of_Z class_id) false 0 d
            with
            | (RaisedValueError, d') =>
                (log0 ++ log1 ++ [(MsgCritical class_id, Some LvError)], d')
            | (ReturnedFrame _, d') =>
                (log0 ++ log1 ++ [(MsgSaved class_id, Some LvInfo)], d')
            | (_, d') =>
                (log0 ++ log1 ++ [(MsgSaveError class_id, Some LvError)], d')
            end
        end
    end.

End LacevAppGUI.

(** ** The specification's wording, for comparison with the code *)

Module SpecWords.
Import Py.

(** A candidate segment: its bounds and whether it is discarded. *)
Definition candidate : Type := (Z * Z * bool)%type.

(** Segments after the first: the start is the previous end minus the
    overlap, the end is the start plus [pointsPerSegment] clamped to
    [totalSamples], and a segment whose clamped end does not exceed its
    start is discarded. *)
Fixpoint later_segments (pointsPerSegment overlap totalSamples : Z)
    (previous_end : Z) (k : nat) : list candidate :=
  match k with
  | O => []
  | S k' =>
      let start := previous_end - overlap in
      let stop := Z.min (start + pointsPerSegment) totalSamples in
      (start, stop, stop <=? start)
      :: later_segments pointsPerSegment overlap totalSamples stop k'
  end.

(** The candidate segments: segment 1 is [0, pointsPerSegment). *)
Definition segments (pointsPerSegment totalSamples : Z) : list candidate :=
  let numberOfSegments := totalSamples / pointsPerSegment in
  let overlap := pointsPerSegment / 3 in
  match Z.to_nat numberOfSegments with
  | O => []
  | S k =>
      (0, pointsPerSegment, false)
      :: later_segments pointsPerSegment overlap totalSamples
           pointsPerSegment k
  end.

(** The bins of a PSD lying in the half-open range [low, high). *)
Definition bins_half_open (frequencies psd_values : list Q) (low high : Q)
    : list Q :=
  mask_select
    (map (fun f => Qle_bool low f && negb (Qle_bool high f)) frequencies)
    psd_values.

(** A raw minute value falls strictly between the hour boundary
    [H*100+60] and the next hour start [(H+1)*100]. *)
Definition strictly_inside_hour_gap (H v : Z) : Prop :=
  H * 100 + 60 < v < (H + 1) * 100.

End SpecWords.

(** ** Notions used to state what the code does *)

Module Statements.
Import Py.

(** The bins of a PSD lying in the closed range [low, high]. *)
Definition bins_closed (frequencies psd_values : list Q) (low high : Q)
    : list Q :=
  map snd
    (filter (fun fp => Qle_bool low (fst fp) && Qle_bool (fst fp) high)
            (combine frequencies psd_values)).

(** The per-file tables read back for a class: the frames of the files
    that [pd.read_csv] reads, in discovery order. *)
Definition tables_read_back (read_csv : string -> LacevAppGUI.read_outcome)
    (paths : list string) : list Pandas.DataFrame :=
  flat_map (fun path => match read_csv path with
                        | LacevAppGUI.ReadFrame df => [df]
                        | _ => []
                        end) paths.

(** Number of rows of a table. *)
Definition row_count (df : Pandas.DataFrame) : nat :=
  List.length (Pandas.rows df).

End Statements.

(** ** Concrete stand-ins for the library routines *)

Module Instances.
Import Py FeatureExtractor SignalFilter.

(** Sum of the Simpson panels [y0 + 4 y1 + y2] over consecutive pairs of
    intervals. *)
Fixpoint simpson_panels (y : list Q) : Q :=
  match y with
  | y0 :: t1 =>
      match t1 with
      | y1 :: t2 =>
          match t2 with
          | y2 :: _ => (y0 + 4 * y1 + y2 + simpson_panels t2)%Q
          | [] => 0%Q
          end
      | [] => 0%Q
      end
  | [] => 0%Q
  end.

(** Composite Simpson quadrature of equally spaced samples as
    [scipy.integrate.simpson] computes it: the panels over an odd number of
    samples; for an even number the last interval is added by the
    three-point correction, and two samples are joined by the trapezoid. *)
Definition composite_simpson (y : list Q) (dx : Q) : Q :=
  let n := List.length y in
  if Nat.even n then
    if Nat.eqb n 2 then
      ((1 # 2) * dx * (nth 0 y 0 + nth 1 y 0))%Q
    else if Nat.eqb n 0 then 0%Q
    else
      (dx / 3 * simpson_panels y
       + dx * ((5 # 12) * nth (n - 1) y 0 + (2 # 3) * nth (n - 2) y 0
               - (1 # 12) * nth (n - 3) y 0))%Q
  else (dx / 3 * simpson_panels y)%Q.

(** [numpy.fft.fftfreq(n, 1/fs)]: the two-sided frequency grid on which
    [welch] returns the PSD of a window of [n] samples. *)
Definition fftfreq (n : nat) (fs : Q) : list Q :=
  map (fun k =>
         (inject_Z (if Z.of_nat k <? (Z.of_nat n + 1) / 2
                    then Z.of_nat k else Z.of_nat k - Z.of_nat n)
          * fs / inject_Z (Z.of_nat n))%Q)
      (seq 0 n).

(** Estimators that return zeros, with Simpson quadrature for the band
    powers and, for [welch], a flat PSD on the grid of a 256-sample window
    at the given sampling rate. *)
Definition flat_psd_estimators : estimators :=
  mk_estimators (fun _ => 0%Q) (fun _ => 0%Q) (fun _ => []) (fun _ _ => 0%Q)
    (fun _ => []) (fun _ fs => (fftfreq 256 fs, repeat 1%Q 256))
    (fun _ => mk_describe 0 0 0 0 0 0 0 0) composite_simpson.

(** The same with an empty spectrum. *)
Definition zero_estimators : estimators :=
  mk_estimators (fun _ => 0%Q) (fun _ => 0%Q) (fun _ => []) (fun _ _ => 0%Q)
    (fun _ => []) (fun _ _ => ([], []))
    (fun _ => mk_describe 0 0 0 0 0 0 0 0) composite_simpson.

(** A backend whose filters return the signal unchanged and whose writes
    succeed. *)
Definition identity_backend : backend :=
  mk_backend (fun _ _ x => LibReturned x) (fun _ _ _ x => LibReturned x)
    (fun _ => true).

(** A backend whose notch filter raises. *)
Definition failing_notch_backend : backend :=
  mk_backend (fun _ _ _ => LibRaised 1) (fun _ _ _ x => LibReturned x)
    (fun _ => true).

(** Inputs on which the statements below are run. *)
Definition ones (n : nat) : list Q := repeat 1%Q n.
Definition zeros (n : nat) : list Q := repeat 0%Q n.

(** A call with one sample per minute and three-minute segments. *)
Definition call_on (data : list Q) (stage : value) : call_args :=
  mk_call_args data 3 (TimeInt 0) (DateInt 0) 7 "c" (1 # 60) stage.
Definition small_call : call_args := call_on (ones 10) (PyBool false).

(** The call of the specification's example: 60 samples per second,
    three-minute segments, 25000 samples. *)
Definition spec_example_call : call_args :=
  mk_call_args (ones (Z.to_nat 25000)) 3 (TimeInt 0) (DateInt 0) 7 "c" 60
    (PyBool false).

(** A call at 4.29 samples per second with fifteen-minute segments, on 3860
    samples. *)
Definition fractional_rate_call : call_args :=
  mk_call_args (ones 3860) 15 (TimeInt 0) (DateInt 0) 7 "c" (429 # 100)
    (PyBool false).

(** The samples 1, 2, ..., n. *)
Definition ramp (n : nat) : list Q :=
  map (fun k => inject_Z (Z.of_nat k + 1)) (seq 0 n).

(** A library in which [np.mean] is the double of the exact mean, the
    routines return zeros and only [lyap_r] raises, by its trajectory check
    at the smallest lag. *)
Definition nolds_library : LibraryCalls.library :=
  LibraryCalls.mk_library
    (fun x => round_binary64 (np_mean x))
    zero_estimators
    (fun x min_tsep => len x - 28 <? 2 * min_tsep + 2)
    (fun _ _ => false).

(** One segment of 180 samples and one of 2640, at one sample per second. *)
Definition short_segment_call : call_args :=
  mk_call_args (ramp 180) 3 (TimeInt 0) (DateInt 0) 7 "c" 1 (PyBool false).
Definition long_segment_call : call_args :=
  mk_call_args (ramp 2640) 44 (TimeInt 0) (DateInt 0) 7 "c" 1 (PyBool false).

(** A call at 64 samples per second with three-minute segments, on one
    segment of data; the PSD grid then has a bin on every band boundary. *)
Definition boundary_call : call_args :=
  mk_call_args (ones (Z.to_nat 11520)) 3 (TimeInt 0) (DateInt 0) 7 "c" 64
    (PyBool false).

(** A call at 16 samples per second, whose PSD grid ends below 8 Hz. *)
Definition narrow_call : call_args :=
  mk_call_args (ones (Z.to_nat 2880)) 3 (TimeInt 0) (DateInt 0) 7 "c" 16
    (PyBool false).

(** A call at 7680 samples per second, whose PSD grid has bins every 30 Hz:
    the beta band holds the bin on its upper bound only. *)
Definition coarse_call : call_args :=
  mk_call_args (ones 3) 3 (TimeInt 0) (DateInt 0) 7 "c" 7680 (PyBool false).

(** A call whose stage tag is the integer 0: one sample per second,
    three-minute segments, 200 samples. *)
Definition falsy_stage_call : call_args :=
  mk_call_args (ones 200) 3 (TimeInt 0) (DateInt 0) 7 "c" 1 (PyInt 0).

(** A filter configuration whose cutoffs are in the wrong order. *)
Definition reversed_config : config := mk_config "filtered" 32 (1 # 20) 4.

(** The default configuration: 0.05 Hz to 32 Hz, order 4. *)
Definition default_config : config := mk_config "filtered" (1 # 20) 32 4.

(** A per-file table without stage column, of one row. *)
Definition plain_table (minute : Z) : Pandas.DataFrame :=
  Pandas.mk_frame (FeatureTable.column_names false)
    [[PyInt 0; PyStr "c"; PyInt minute; PyStr "0/00/0000"]
     ++ repeat (PyFloat 0) 21].

(** A per-file table with the stage column, of one row. *)
Definition staged_table (minute : Z) : Pandas.DataFrame :=
  Pandas.mk_frame (FeatureTable.column_names true)
    [[PyInt 0; PyStr "c"; PyInt minute; PyStr "0/00/0000"; PyStr "rest"]
     ++ repeat (PyFloat 0) 21].

(** A features directory of class "c" with three files: two tables and an
    empty file. *)
Definition class_world (table : Z -> Pandas.DataFrame) : LacevAppGUI.world :=
  LacevAppGUI.mk_world
    (fun dir => if String.eqb dir "features/c"
                then ["features/c/df_a.csv"; "features/c/df_b.csv";
                      "features/c/df_e.csv"]%string
                else [])
    (fun path =>
       if String.eqb path "features/c/df_a.csv"
       then LacevAppGUI.ReadFrame (table 1)
       else if String.eqb path "features/c/df_b.csv"
       then LacevAppGUI.ReadFrame (table 2)
       else LacevAppGUI.ReadEmptyDataError)
    (fun _ => true).

(** A directory whose only file is empty. *)
Definition empty_class_world : LacevAppGUI.world :=
  LacevAppGUI.mk_world (fun _ => ["features/c/df_e.csv"%string])
    (fun _ => LacevAppGUI.ReadEmptyDataError) (fun _ => true).

(** The GUI object once a directory has been opened. *)
Definition ready_gui : LacevAppGUI.gui :=
  LacevAppGUI.mk_gui true "features" (Some "features"%string).

(** The loop variables before the first iteration. *)
Definition initial_state : loop_state := mk_loop_state 0 0 [] [].

End Instances.

(** ** Python text primitives *)

(** Text is ASCII: the spaces that [strip] removes and the digits that [int]
    reads are the ASCII ones, and a character above 127 is neither. *)

Module PyText.
Import Py.

(** [c.isspace()] for an ASCII character: tab to carriage return, the four
    separators 28 to 31, and the space. *)
Definition is_space (c : ascii) : bool :=
  let n := nat_of_ascii c in
  ((9 <=? n) && (n <=? 13) || (28 <=? n) && (n <=? 32))%nat.

(** [s.lstrip()], [s.rstrip()] and [s.strip()] on ASCII text. *)
Fixpoint lstrip (s : string) : string :=
  match s with
  | EmptyString => EmptyString
  | String c s' => if is_space c then lstrip s' else s
  end.

Fixpoint rstrip (s : string) : string :=
  match s with
  | EmptyString => EmptyString
  | String c s' =>
      match rstrip s' with
      | EmptyString => if is_space c then EmptyString
                       else String c EmptyString
      | t => String c t
      end
  end.

Definition strip (s : string) : string := lstrip (rstrip s).

(** [s.replace(c, '')] for a single character [c]. *)
Fixpoint remove_char (c : ascii) (s : string) : string :=
  match s with
  | EmptyString => EmptyString
  | String c' s' =>
      if Ascii.eqb c' c then remove_char c s' else String c' (remove_char c s')
  end.

(** [s.split(sep)] for a single character [sep]. *)
Fixpoint split_on (sep : ascii) (s : string) : list string :=
  match s with
  | EmptyString => [EmptyString]
  | String c s' =>
      if Ascii.eqb c sep then EmptyString :: split_on sep s'
      else match split_on sep s' with
           | [] => [String c EmptyString]
           | h :: t => String c h :: t
           end
  end.

(** [sep.join(parts)]. *)
Fixpoint join (sep : string) (parts : list string) : string :=
  match parts with
  | [] => EmptyString
  | [p] => p
  | p :: rest => (p ++ sep ++ join sep rest)%string
  end.

(** Value of a decimal digit. *)
Definition digit_value (c : ascii) : option Z :=
  let n := nat_of_ascii c in
  if ((48 <=? n) && (n <=? 57))%nat then Some (Z.of_nat n - 48) else None.

Definition is_digit (c : ascii) : bool :=
  match digit_value c with Some _ => true | None => false end.

(** The digits of an integer literal: decimal digits, with single
    underscores allowed between two digits. [after_digit] tells whether the
    character before was a digit. *)
Fixpoint literal_value (s : string) (acc : Z) (after_digit : bool)
    : option Z :=
  match s with
  | EmptyString => if after_digit then Some acc else None
  | String c s' =>
      match digit_value c with
      | Some d => literal_value s' (10 * acc + d) true
      | None =>
          if Ascii.eqb c "_" && after_digit then literal_value s' acc false
          else None
      end
  end.

(** [int(s)] for ASCII text: surrounding whitespace, an optional sign, then
    the literal; [None] stands for the ValueError. *)
Definition int_of_str (s : string) : option Z :=
  match strip s with
  | String "+" r => literal_value r 0 false
  | String "-" r => option_map Z.opp (literal_value r 0 false)
  | t => literal_value t 0 false
  end.

(** [f"{z:02d}"]. *)
Definition pad2 (z : Z) : string :=
  if (0 <=? z) && (z <=? 9) then ("0" ++ str_of_Z z)%string else str_of_Z z.

(** [str(v)] for a table cell; [float_repr] renders a finite float. *)
Definition str_of_value (float_repr : Q -> string) (v : value) : string :=
  match v with
  | PyNone => "None"
  | PyBool true => "True"
  | PyBool false => "False"
  | PyInt z => str_of_Z z
  | PyFloat q => float_repr q
  | PyStr s => s
  | PyNaN => "nan"
  end.

(** [c] does not occur in [s]. *)
Fixpoint free_of (c : ascii) (s : string) : bool :=
  match s with
  | EmptyString => true
  | String c' s' => negb (Ascii.eqb c' c) && free_of c s'
  end.

(** [s.replace(c, r)] for single characters. *)
Fixpoint replace_char (c r : ascii) (s : string) : string :=
  match s with
  | EmptyString => EmptyString
  | String c' s' =>
      String (if Ascii.eqb c' c then r else c') (replace_char c r s')
  end.

(** Every character of [s] satisfies [p]. *)
Fixpoint all_chars (p : ascii -> bool) (s : string) : bool :=
  match s with
  | EmptyString => true
  | String c s' => p c && all_chars p s'
  end.

End PyText.

(** ** [FeatureExtractor.format_time_from_hora_column] *)

Module HoraColumn.
Import Py PyText.

(** The cleaning of the hour part, line 164, and of the minute part, line
    166. *)
Definition clean_hour (part : string) : string :=
  lstrip (rstrip (remove_char "n" (remove_char "\" (remove_char " " part)))).
Definition clean_minute (part : string) : string :=
  lstrip (rstrip (remove_char " " (remove_char "n" (remove_char "\" part)))).

(** Lines 185-192 and 199-204: the label one adjustment after the label read
    as the integer [prev_time_numeric]. *)
Definition next_label (prev_time_numeric minute_cutoff_adjustment : Z)
    : string :=
  let prev_hour := prev_time_numeric / 100 in
  let prev_minute := prev_time_numeric mod 100 in
  let new_minute_total := prev_minute + minute_cutoff_adjustment in
  let new_hour_total := prev_hour + new_minute_total / 60 in
  let new_minute_final := new_minute_total mod 60 in
  (pad2 (new_hour_total mod 24) ++ pad2 new_minute_final)%string.

(** [l[-1]] of a non-empty list. *)
Definition last_label (time_list : list string) : string :=
  List.last time_list EmptyString.

(** The variables of the loop: the labels so far and the accumulated
    string. *)
Definition hora_state : Type := (list string * string)%type.

(** The [try] block, lines 163-194, on one entry: the new state, or [None]
    when one of its [int] calls raises. *)
Definition try_block (minute_cutoff_adjustment : Z) (st : hora_state)
    (time_entry : string) : option hora_state :=
  let (time_list, accumulated_hour_minute_str) := st in
  let time_parts := split_on ":" time_entry in
  match int_of_str (clean_hour (nth 0 time_parts EmptyString)) with
  | None => None
  | Some hour_val =>
      if (hour_val <? 24) && (1 <? len time_parts) then
        match int_of_str (clean_minute (nth 1 time_parts EmptyString)) with
        | None => None
        | Some minute_val =>
            let minute_val_str :=
              if minute_val <? 10 then ("0" ++ str_of_Z minute_val)%string
              else str_of_Z minute_val in
            let joined := (str_of_Z hour_val ++ minute_val_str)%string in
            let accumulated :=
              if Nat.eqb (String.length joined) 3 then ("0" ++ joined)%string
              else if Nat.ltb (String.length joined) 3
                   then ("00" ++ joined)%string
                   else joined in
            Some (time_list ++ [accumulated], accumulated)
        end
      else if String.eqb accumulated_hour_minute_str "0000"
              && match time_list with [] => true | _ => false end
      then Some (time_list ++ [accumulated_hour_minute_str],
                 accumulated_hour_minute_str)
      else
        match int_of_str (match time_list with
                          | [] => accumulated_hour_minute_str
                          | _ => last_label time_list
                          end) with
        | None => None
        | Some prev_time_numeric =>
            let accumulated :=
              next_label prev_time_numeric minute_cutoff_adjustment in
            Some (time_list ++ [accumulated], accumulated)
        end
  end.

(** The [except] block, lines 195-206: [None] when its own [int] call
    raises, which ends the whole call with that exception. *)
Definition except_block (minute_cutoff_adjustment : Z) (st : hora_state)
    : option hora_state :=
  let (time_list, accumulated_hour_minute_str) := st in
  match time_list with
  | [] => Some (["0000"%string], accumulated_hour_minute_str)
  | _ =>
      match int_of_str (last_label time_list) with
      | None => None
      | Some prev_time_numeric =>
          Some (time_list
                ++ [next_label prev_time_numeric minute_cutoff_adjustment],
                accumulated_hour_minute_str)
      end
  end.

(** One iteration of the loop over the column. *)
Definition hora_step (minute_cutoff_adjustment : Z) (st : hora_state)
    (time_entry : string) : option hora_state :=
  match try_block minute_cutoff_adjustment st time_entry with
  | Some st' => Some st'
  | None => except_block minute_cutoff_adjustment st
  end.

(** The loop from a given state. *)
Fixpoint hora_loop (minute_cutoff_adjustment : Z) (st : hora_state)
    (entries : list string) : option hora_state :=
  match entries with
  | [] => Some st
  | time_entry :: rest =>
      match hora_step minute_cutoff_adjustment st time_entry with
      | Some st' => hora_loop minute_cutoff_adjustment st' rest
      | None => None
      end
  end.

(** [format_time_from_hora_column] on the cells of the HORA column as [str]
    renders them: the list of labels, or [None] when an exception leaves the
    call. *)
Definition format_time_from_hora_column (hora : list string)
    (minute_cutoff_adjustment : Z) : option (list string) :=
  option_map fst
    (hora_loop minute_cutoff_adjustment ([], "0000"%string) hora).

End HoraColumn.

(** ** [main.py]: [LacevAppGUI.process_time] and [process_date] *)

Module TimeAndDate.
Import Py PyText Pandas HoraColumn.

(** [df[name]]: the cells of a column, [None] when the label is absent
    (the labels of a frame read from a CSV file are distinct). *)
Definition column (df : DataFrame) (name : string) : option (list value) :=
  match column_position name (columns df) with
  | Some k => Some (map (fun row => nth k row PyNaN) (rows df))
  | None => None
  end.

(** The messages of [process_time]. *)
Inductive time_message : Type :=
| MsgExtractorNotInitialized
| MsgErrorFormattingTime.

Definition time_log_entry : Type :=
  (time_message * option LacevAppGUI.level)%type.

(** [process_time]: the labels and the log. [extractor] tells whether
    [self.feature_extractor] is set. *)
Definition process_time (float_repr : Q -> string) (extractor : bool)
    (raw_data_df : DataFrame) (minute_segment_length : Z)
    : list string * list time_log_entry :=
  match column raw_data_df "HORA" with
  | Some cells =>
      if extractor then
        match format_time_from_hora_column
                (map (str_of_value float_repr) cells) minute_segment_length
        with
        | Some time_list => (time_list, [])
        | None =>
            (repeat "0000"%string (List.length (rows raw_data_df)),
             [(MsgErrorFormattingTime, Some LacevAppGUI.LvWarning)])
        end
      else
        (repeat "0000"%string (List.length (rows raw_data_df)),
         [(MsgExtractorNotInitialized, Some LacevAppGUI.LvError)])
  | None => (repeat "0000"%string (List.length (rows raw_data_df)), [])
  end.

(** The label of one date cell, line 418. *)
Definition date_label (float_repr : Q -> string) (date_val : value)
    : string :=
  join "/"
    (map (fun part =>
            strip (remove_char "n" (remove_char "\" (remove_char " " part))))
         (split_on "-" (str_of_value float_repr date_val))).

(** [process_date]. The string operations of line 417 raise nothing, so the
    handler of lines 420-422 is never entered. *)
Definition process_date (float_repr : Q -> string) (raw_data_df : DataFrame)
    : list string :=
  let date_column_name :=
    match column raw_data_df "DATA" with
    | Some _ => "DATA"%string
    | None => "DATA "%string
    end in
  match column raw_data_df date_column_name with
  | Some cells => map (date_label float_repr) cells
  | None => repeat "00/00/0000"%string (List.length (rows raw_data_df))
  end.

End TimeAndDate.

(** ** Further notions used to state what the code does *)

Module Notions.
Import Py PyText FeatureExtractor SignalFilter HoraColumn.

(** The flag of a slicing iteration is the validity of its slice. *)
Definition event_flag_sound (a : call_args) (ev : segment_event) : Prop :=
  match ev with
  | Sliced s e appended => appended = segment_valid (slice (data_array a) s e)
  | Discarded _ _ => True
  end.

(** The path of the text file of a filtered signal. *)
Definition filtered_txt_path (self : config)
    (output_subdir_name output_file_name_prefix : string) : string :=
  FeatureTable.path_join
    (FeatureTable.path_join (filtered_data_output_path self)
       output_subdir_name)
    (output_file_name_prefix ++ ".txt").

(** The hour and minute that the [try] block of
    [format_time_from_hora_column] reads off an entry, when it reads both:
    the entry has a part after a colon, both parts are integers once cleaned,
    and the hour is below 24. *)
Definition clock_reading (time_entry : string) : option (Z * Z) :=
  let time_parts := split_on ":" time_entry in
  match int_of_str (clean_hour (nth 0 time_parts EmptyString)) with
  | Some hour_val =>
      if (hour_val <? 24) && (1 <? len time_parts) then
        match int_of_str (clean_minute (nth 1 time_parts EmptyString)) with
        | Some minute_val => Some (hour_val, minute_val)
        | None => None
        end
      else None
  | None => None
  end.

(** A clock time [adjustment] minutes later, on a 24 hour clock. *)
Definition advance (adjustment : Z) (hm : Z * Z) : Z * Z :=
  ((fst hm + (snd hm + adjustment) / 60) mod 24,
   (snd hm + adjustment) mod 60).

(** The clock times of a column: an entry that is read gives its own time,
    any other entry the time one adjustment after the previous one, or
    midnight when it comes first. *)
Fixpoint track (adjustment : Z) (prev : option (Z * Z))
    (readings : list (option (Z * Z))) : list (Z * Z) :=
  match readings with
  | [] => []
  | r :: rest =>
      let cur := match r, prev with
                 | Some hm, _ => hm
                 | None, Some p => advance adjustment p
                 | None, None => (0, 0)
                 end in
      cur :: track adjustment (Some cur) rest
  end.

(** An hour of the day with a minute count below [bound]. *)
Definition clock_time (bound : Z) (hm : Z * Z) : Prop :=
  0 <= fst hm < 24 /\ 0 <= snd hm < bound.

(** The four characters HHMM of a clock time. *)
Definition hhmm (hm : Z * Z) : string :=
  (pad2 (fst hm) ++ pad2 (snd hm))%string.

End Notions.

(** * Properties of the segment loop *)

Import Py FeatureExtractor Instances.

(** The segment loop is studied for whatever count line 30 yields. *)
Opaque points_per_segment.

Section SegmentLoop.
Variable est : estimators.
Variable a : call_args.

Lemma len_nonneg {A : Type} (l : list A) : 0 <= len l.
Proof. unfold len. lia. Qed.

Lemma process_segment_end st s e :
  segment_end_index (process_segment est a st s e) = e.
Proof.
  unfold process_segment.
  destruct (len (slice (data_array a) s e) =? 0); [reflexivity|].
  destruct (segment_valid (slice (data_array a) s e)); reflexivity.
Qed.

Lemma process_segment_events st s e :
  events (process_segment est a st s e)
  = events st ++ [Sliced s e (segment_valid (slice (data_array a) s e))].
Proof.
  unfold process_segment.
  destruct (len (slice (data_array a) s e) =? 0) eqn:E.
  - apply Z.eqb_eq in E. unfold segment_valid. rewrite E. reflexivity.
  - destruct (segment_valid (slice (data_array a) s e)); reflexivity.
Qed.

Lemma loop_body_later total pps ov st i :
  1 <= pps -> i <> 1 ->
  let start := segment_end_index st - ov in
  let stop := Z.min (start + pps) total in
  let st' := loop_body est a total pps ov st i in
  segment_end_index st' = stop
  /\ map event_candidate (events st')
     = map event_candidate (events st) ++ [(start, stop, stop <=? start)].
Proof.
  intros Hpps Hi start stop st'. subst st'. unfold loop_body.
  apply Z.eqb_neq in Hi. rewrite Hi. fold start.
  destruct (start + pps >? total) eqn:Hclamp.
  - assert (Hs : stop = total) by (subst stop; lia). rewrite Hs.
    destruct (start >=? total) eqn:Hd.
    + simpl. rewrite map_app. simpl.
      replace (total <=? start) with true by lia. auto.
    + rewrite process_segment_end, process_segment_events, map_app. simpl.
      replace (total <=? start) with false by lia. auto.
  - assert (Hs : stop = start + pps) by (subst stop; lia). rewrite Hs.
    rewrite process_segment_end, process_segment_events, map_app. simpl.
    replace (start + pps <=? start) with false by lia. auto.
Qed.

Lemma loop_later_refines total pps ov :
  1 <= pps ->
  forall (k : nat) (i0 : Z) (st : loop_state),
    2 <= i0 ->
    map event_candidate
      (events (fold_left (loop_body est a total pps ov)
                 (map (fun j => i0 + Z.of_nat j) (seq 0 k)) st))
    = map event_candidate (events st)
      ++ SpecWords.later_segments pps ov total (segment_end_index st) k.
Proof.
  intros Hpps. induction k as [|k IH]; intros i0 st Hi0.
  - simpl. now rewrite app_nil_r.
  - cbn [seq map fold_left]. rewrite <- seq_shift, map_map.
    rewrite (map_ext (fun j => i0 + Z.of_nat (S j))
                     (fun j => (i0 + 1) + Z.of_nat j)) by (intros; lia).
    rewrite IH by lia.
    destruct (loop_body_later total pps ov st (i0 + Z.of_nat 0) Hpps)
      as [He Hev]; [simpl; lia|].
    rewrite He, Hev, <- app_assoc. reflexivity.
Qed.

Lemma loop_body_first total pps ov st :
  pps <= total ->
  loop_body est a total pps ov st 1
  = process_segment est a st 0 pps.
Proof.
  intros H. unfold loop_body. simpl (1 =? 1).
  cbv iota. replace (pps >? total) with false by lia. reflexivity.
Qed.

Lemma range_from_1 n :
  range 1 (n + 1) = map (fun j => 1 + Z.of_nat j) (seq 0 (Z.to_nat n)).
Proof. unfold range. now replace (n + 1 - 1) with n by lia. Qed.

Lemma extract_features_events_refine init :
  1 <= points_per_segment a ->
  map event_candidate (events (extract_features_state est a init))
  = SpecWords.segments (points_per_segment a) (len (data_array a)).
Proof.
  unfold extract_features_state.
  generalize (points_per_segment a). intros pps Hpps.
  unfold SpecWords.segments.
  set (total := len (data_array a)).
  replace (pps =? 0) with false by lia.
  destruct (total >=? pps) eqn:Hge.
  - rewrite range_from_1.
    destruct (Z.to_nat (total / pps)) as [|k] eqn:Hn.
    + reflexivity.
    + cbn [seq map fold_left]. rewrite <- seq_shift, map_map.
      rewrite loop_body_first by lia.
      rewrite (map_ext (fun j => 1 + Z.of_nat (S j))
                       (fun j => 2 + Z.of_nat j)) by (intros; lia).
      rewrite loop_later_refines by lia.
      rewrite process_segment_end, process_segment_events. reflexivity.
  - assert (Hz : total / pps = 0) by (apply Z.div_small; pose proof (len_nonneg (data_array a)); subst total; lia).
    rewrite Hz. reflexivity.
Qed.

End SegmentLoop.

Lemma later_segments_length pps ov total k :
  forall prev, List.length (SpecWords.later_segments pps ov total prev k) = k.
Proof. induction k as [|k IH]; intros prev; simpl; [|rewrite IH]; reflexivity. Qed.

Lemma segments_length pps total :
  List.length (SpecWords.segments pps total) = Z.to_nat (total / pps).
Proof.
  unfold SpecWords.segments. destruct (Z.to_nat (total / pps)); [reflexivity|].
  simpl. now rewrite later_segments_length.
Qed.

Lemma overlap_bounds pps : 1 <= pps -> 0 <= pps / 3 <= pps.
Proof.
  intros H. split.
  - apply Z.div_pos; lia.
  - apply Z.div_le_upper_bound; lia.
Qed.

Lemma later_segments_closed pps total :
  1 <= pps ->
  forall (k j : nat),
    (k = O \/ pps + Z.of_nat (j + k) * (pps - pps / 3) <= total) ->
    SpecWords.later_segments pps (pps / 3) total
      (pps + Z.of_nat j * (pps - pps / 3)) k
    = map (fun i => (Z.of_nat i * (pps - pps / 3),
                     pps + Z.of_nat i * (pps - pps / 3), false))
          (seq (S j) k).
Proof.
  intros Hpps. pose proof (overlap_bounds pps Hpps) as Hov.
  induction k as [|k IH]; intros j Hb; [reflexivity|].
  destruct Hb as [Hb|Hb]; [discriminate|].
  cbn [SpecWords.later_segments seq map].
  set (stride := pps - pps / 3) in *.
  assert (Hs : pps + Z.of_nat j * stride - pps / 3 = Z.of_nat (S j) * stride)
    by (subst stride; lia).
  assert (Hle : Z.of_nat (S j) * stride + pps <= total)
    by (subst stride; nia).
  rewrite Hs, Z.min_l by exact Hle.
  replace (Z.of_nat (S j) * stride + pps <=? Z.of_nat (S j) * stride)
    with false by lia.
  replace (Z.of_nat (S j) * stride + pps)
    with (pps + Z.of_nat (S j) * stride) by lia.
  f_equal. apply IH.
  destruct k; [now left|right].
  replace (S j + S k)%nat with (j + S (S k))%nat by lia. exact Hb.
Qed.

Lemma segments_closed pps total :
  1 <= pps -> 0 <= total ->
  SpecWords.segments pps total
  = map (fun i => (Z.of_nat i * (pps - pps / 3),
                   pps + Z.of_nat i * (pps - pps / 3), false))
        (seq 0 (Z.to_nat (total / pps))).
Proof.
  intros Hpps Htot. unfold SpecWords.segments.
  destruct (Z.to_nat (total / pps)) as [|k] eqn:Hn; [reflexivity|].
  cbn [seq map]. change (Z.of_nat 0) with 0.
  rewrite Z.mul_0_l, Z.add_0_r. f_equal.
  pose proof (later_segments_closed pps total Hpps k 0) as H.
  cbn [Z.of_nat] in H. rewrite Z.mul_0_l, Z.add_0_r in H. apply H.
  destruct k; [now left|right]. cbn [Nat.add].
  pose proof (overlap_bounds pps Hpps).
  pose proof (Z.mul_div_le total pps ltac:(lia)).
  assert (Z.of_nat (S (S k)) = total / pps) by lia.
  nia.
Qed.

Lemma slice_length {A : Type} (l : list A) s e :
  0 <= s -> s <= e -> e <= len l -> len (slice l s e) = e - s.
Proof.
  intros Hs Hse He. unfold slice, slice_bound.
  replace (s <? 0) with false by lia. replace (e <? 0) with false by lia.
  rewrite !Z.min_l by lia. unfold len in *.
  rewrite length_firstn, length_skipn. lia.
Qed.

Lemma round_binary64_Qeq (x y : Q) :
  x == y -> round_binary64 x = round_binary64 y.
Proof.
  intros H. unfold round_binary64. now rewrite (Qred_complete x y H).
Qed.

Lemma Qred_inject_Z z : Qred (inject_Z z) = inject_Z z.
Proof. apply Qcanon.Qred_identity. simpl. apply Z.gcd_1_r. Qed.

Lemma round_half_even_whole n : round_half_even n 1 = n.
Proof.
  unfold round_half_even. rewrite Z.mod_1_r, Z.div_1_r. reflexivity.
Qed.

(** An integer below 2^53 in absolute value is a double. *)
Lemma round_binary64_int z :
  Z.abs z < 2 ^ 53 -> round_binary64 (inject_Z z) == inject_Z z.
Proof.
  intros Hz. unfold round_binary64. rewrite Qred_inject_Z.
  cbn [Qnum Qden inject_Z].
  destruct (Z.abs z =? 0) eqn:E0.
  - apply Z.eqb_eq in E0. assert (z = 0) by lia. subst z. reflexivity.
  - apply Z.eqb_neq in E0.
    assert (Hn : 0 < Z.abs z) by lia.
    pose proof (Z.log2_spec (Z.abs z) Hn) as [Hlo Hhi].
    pose proof (Z.log2_nonneg (Z.abs z)) as Hl0.
    assert (Hl52 : Z.log2 (Z.abs z) <= 52).
    { apply Z.lt_succ_r. apply Z.log2_lt_pow2; [exact Hn|exact Hz]. }
    assert (Hfl : floor_log2 (Z.abs z) 1 = Z.log2 (Z.abs z)).
    { unfold floor_log2. change (Z.log2 1) with 0. rewrite Z.sub_0_r.
      replace (0 <=? Z.log2 (Z.abs z)) with true by lia.
      rewrite Z.mul_1_l.
      now replace (2 ^ Z.log2 (Z.abs z) <=? Z.abs z) with true by lia. }
    rewrite Hfl, Z.max_l by lia.
    set (e := Z.log2 (Z.abs z) - 52).
    assert (He : -52 <= e <= 0) by (subst e; lia). clearbody e.
    assert (Hmag : (if 0 <=? e
                    then inject_Z
                           ((if 0 <=? e
                             then round_half_even (Z.abs z) (1 * 2 ^ e)
                             else round_half_even (Z.abs z * 2 ^ (- e)) 1)
                            * 2 ^ e)
                    else Qmake (if 0 <=? e
                                then round_half_even (Z.abs z) (1 * 2 ^ e)
                                else round_half_even (Z.abs z * 2 ^ (- e)) 1)
                               (Z.to_pos (2 ^ (- e))))
                   == inject_Z (Z.abs z)).
    { destruct (0 <=? e) eqn:Ee.
      - assert (e = 0) by lia. subst e.
        change (1 * 2 ^ 0) with 1. rewrite round_half_even_whole.
        now rewrite Z.mul_1_r.
      - rewrite round_half_even_whole. unfold Qeq. cbn [Qnum Qden inject_Z].
        rewrite Z2Pos.id by (apply Z.pow_pos_nonneg; lia). lia. }
    destruct (z <? 0) eqn:Es.
    + apply Qeq_trans with (- inject_Z (Z.abs z))%Q;
        [apply Qopp_comp; exact Hmag|].
      unfold Qeq. cbn. lia.
    + apply Qeq_trans with (inject_Z (Z.abs z)); [exact Hmag|].
      unfold Qeq. cbn. lia.
Qed.

Lemma int_of_Q_whole (x : Q) (z : Z) : x == inject_Z z -> int_of_Q x = z.
Proof.
  unfold Qeq, int_of_Q. cbn [Qnum Qden inject_Z]. intros H.
  rewrite Z.mul_1_r in H. rewrite H. apply Z.quot_mul. lia.
Qed.

Transparent points_per_segment.

(** Line 30 on integers. *)
Lemma points_per_segment_whole (a : call_args) (r : Z) :
  sample_rate a == inject_Z r ->
  Z.abs (r * 60) < 2 ^ 53 ->
  Z.abs (segment_duration_minutes a) < 2 ^ 53 ->
  Z.abs (r * 60 * segment_duration_minutes a) < 2 ^ 53 ->
  points_per_segment a = r * 60 * segment_duration_minutes a.
Proof.
  intros Hr H60 Hm Hp. unfold points_per_segment. apply int_of_Q_whole.
  assert (H1 : round_binary64 (sample_rate a) == inject_Z r).
  { rewrite (round_binary64_Qeq _ _ Hr). apply round_binary64_int. lia. }
  assert (H2 : round_binary64 (round_binary64 (sample_rate a) * 60)
               == inject_Z (r * 60)).
  { rewrite (round_binary64_Qeq _ (inject_Z (r * 60))).
    - now apply round_binary64_int.
    - rewrite H1, inject_Z_mult. reflexivity. }
  assert (H3 : round_binary64 (inject_Z (segment_duration_minutes a))
               == inject_Z (segment_duration_minutes a))
    by now apply round_binary64_int.
  rewrite (round_binary64_Qeq _
             (inject_Z (r * 60 * segment_duration_minutes a))).
  - now apply round_binary64_int.
  - rewrite H2, H3, <- inject_Z_mult. reflexivity.
Qed.

(** C1, amended. Windowed segmentation. [pointsPerSegment] is the integer
    part of the product [sampleRate * 60 * segmentDurationMinutes] as line 30
    computes it, in doubles; for a sample rate and a duration that are
    integers, with products below 2^53, it is the floor of the exact
    product. Whenever it is at least 1, [extract_features] goes through
    [floor(totalSamples / pointsPerSegment)] candidate segments, and they
    are the ones the specification describes: the first is
    [0, pointsPerSegment), each later one starts at the previous end minus
    [floor(pointsPerSegment / 3)] and ends at its start plus
    [pointsPerSegment] clamped to [totalSamples], and it is discarded when the
    clamped end does not exceed the start. For [sampleRate = 60],
    [segmentDurationMinutes = 3] and 25000 samples the segments are
    [0, 10800) and [7200, 18000). *)
Theorem windowed_segmentation :
  (forall (a : call_args) (r : Z),
      sample_rate a == inject_Z r ->
      Z.abs (r * 60) < 2 ^ 53 ->
      Z.abs (segment_duration_minutes a) < 2 ^ 53 ->
      Z.abs (r * 60 * segment_duration_minutes a) < 2 ^ 53 ->
      points_per_segment a
      = Qfloor (sample_rate a * 60 * inject_Z (segment_duration_minutes a)))
  /\ (forall (est : estimators) (a : call_args) (init : list (list value)),
         1 <= points_per_segment a ->
         let st := extract_features_state est a init in
         List.length (events st)
         = Z.to_nat (len (data_array a) / points_per_segment a)
         /\ map event_candidate (events st)
            = SpecWords.segments (points_per_segment a) (len (data_array a)))
  /\ (forall (est : estimators) (a : call_args) (init : list (list value)),
         sample_rate a = 60%Q ->
         segment_duration_minutes a = 3 ->
         len (data_array a) = 25000 ->
         points_per_segment a = 10800
         /\ points_per_segment a / 3 = 3600
         /\ map event_candidate (events (extract_features_state est a init))
            = [(0, 10800, false); (7200, 18000, false)]).
Proof.
  split; [|split].
  - intros a r Hr H60 Hm Hp.
    rewrite (points_per_segment_whole a r Hr H60 Hm Hp).
    rewrite (Qfloor_comp _ (inject_Z (r * 60 * segment_duration_minutes a))).
    + now rewrite Qfloor_Z.
    + rewrite Hr, !inject_Z_mult. reflexivity.
  - intros est a init Hpps st.
    pose proof (extract_features_events_refine est a init Hpps) as Href.
    split.
    + subst st. rewrite <- (length_map event_candidate), Href.
      apply segments_length.
    + exact Href.
  - intros est a init Hsr Hdur Hlen.
    assert (Hp : points_per_segment a = 10800)
      by (unfold points_per_segment; rewrite Hsr, Hdur; reflexivity).
    split; [exact Hp|]. split; [rewrite Hp; reflexivity|].
    rewrite extract_features_events_refine by (rewrite Hp; lia).
    rewrite Hp, Hlen. reflexivity.
Qed.

Lemma windowed_segmentation_witness :
  points_per_segment spec_example_call = Qfloor (60 * 60 * 3)
  /\ (1 <= points_per_segment small_call
      /\ map event_candidate
           (events (extract_features_state zero_estimators small_call []))
         = [(0, 3, false); (2, 5, false); (4, 7, false)])
  /\ map event_candidate
       (events (extract_features_state zero_estimators
                  spec_example_call []))
     = [(0, 10800, false); (7200, 18000, false)].
Proof.
  assert (H : 1 <= points_per_segment small_call) by (vm_compute; discriminate).
  split; [|split; [split; [exact H|]|]].
  - apply (proj1 windowed_segmentation spec_example_call 60);
      [reflexivity|reflexivity|reflexivity|reflexivity].
  - exact (proj2 (proj1 (proj2 windowed_segmentation)
                    zero_estimators small_call [] H)).
  - exact (proj2 (proj2 (proj2 (proj2 windowed_segmentation)
                           zero_estimators spec_example_call []
                           eq_refl eq_refl eq_refl))).
Defined.

(** C1 as stated fails. At 4.29 samples per second and 15 minutes the floor
    of the exact product is 3861, also when 4.29 is read as the double it
    denotes, but line 30 rounds 4.29 * 60 to a double and the product with 15
    again, and truncates 3860.9999999999995 to 3860. On 3860 samples the
    call therefore goes through the one segment [0, 3860), where the claim
    has no segment at all. *)
Lemma points_per_segment_floor_counterexample :
  Qfloor (sample_rate fractional_rate_call * 60
          * inject_Z (segment_duration_minutes fractional_rate_call)) = 3861
  /\ Qfloor (round_binary64 (sample_rate fractional_rate_call) * 60
             * inject_Z (segment_duration_minutes fractional_rate_call))
     = 3861
  /\ len (data_array fractional_rate_call) = 3860
  /\ SpecWords.segments 3861 3860 = []
  /\ points_per_segment fractional_rate_call = 3860
  /\ map event_candidate
       (events (extract_features_state zero_estimators
                  fractional_rate_call []))
     = [(0, 3860, false)].
Proof.
  repeat split; vm_compute; reflexivity.
Qed.

Opaque points_per_segment.

(** C9. The clamping branch is never taken. Whenever [pointsPerSegment] is at
    least 1, segment [i] (counted from 1) is
    [(i-1) * (pointsPerSegment - overlap),
     pointsPerSegment + (i-1) * (pointsPerSegment - overlap)),
    its end never exceeds [totalSamples] for [i] up to [numberOfSegments], so
    no segment is clamped or discarded and every slice taken has exactly
    [pointsPerSegment] samples. *)
Theorem clamping_branch_unreachable :
  forall (est : estimators) (a : call_args) (init : list (list value)),
    1 <= points_per_segment a ->
    let pps := points_per_segment a in
    let total := len (data_array a) in
    let stride := pps - pps / 3 in
    let st := extract_features_state est a init in
    map event_candidate (events st)
    = map (fun i => (Z.of_nat i * stride, pps + Z.of_nat i * stride, false))
          (seq 0 (Z.to_nat (total / pps)))
    /\ Forall (fun ev =>
                 exists s b,
                   ev = Sliced s (s + pps) b
                   /\ 0 <= s /\ s + pps <= total
                   /\ len (slice (data_array a) s (s + pps)) = pps)
              (events st).
Proof.
  intros est a init Hpps pps total stride st.
  assert (Hclosed :
    map event_candidate (events st)
    = map (fun i => (Z.of_nat i * stride, pps + Z.of_nat i * stride, false))
          (seq 0 (Z.to_nat (total / pps)))).
  { subst st. rewrite extract_features_events_refine by exact Hpps.
    apply segments_closed; [exact Hpps|apply len_nonneg]. }
  split; [exact Hclosed|].
  apply Forall_forall. intros ev Hin.
  apply (in_map event_candidate) in Hin. rewrite Hclosed in Hin.
  apply in_map_iff in Hin. destruct Hin as [i [Hi Hrange]].
  apply in_seq in Hrange.
  pose proof (overlap_bounds pps Hpps) as Hov.
  pose proof (len_nonneg (data_array a)) as Htot. fold total in Htot.
  pose proof (Z.mul_div_le total pps ltac:(lia)) as Hdiv.
  assert (Hi1 : Z.of_nat i + 1 <= total / pps) by lia.
  assert (Hs : 0 <= Z.of_nat i * stride) by (subst stride; nia).
  assert (He : Z.of_nat i * stride + pps <= total) by (subst stride; nia).
  destruct ev as [s e|s e b]; simpl in Hi; inversion Hi; subst s e.
  exists (Z.of_nat i * stride), b.
  split; [f_equal; lia|]. split; [exact Hs|]. split; [exact He|].
  rewrite slice_length; fold total; lia.
Qed.

Lemma clamping_branch_unreachable_witness :
  1 <= points_per_segment small_call
  /\ Forall (fun ev =>
               exists s b,
                 ev = Sliced s (s + 3) b
                 /\ 0 <= s /\ s + 3 <= 10
                 /\ len (slice (data_array small_call) s (s + 3)) = 3)
            (events (extract_features_state zero_estimators
                       small_call [])).
Proof.
  assert (H : 1 <= points_per_segment small_call) by (vm_compute; discriminate).
  split; [exact H|].
  exact (proj2 (clamping_branch_unreachable zero_estimators
                  small_call [] H)).
Defined.

(** * Properties of the validity gate *)

Lemma Qgtb_true_iff (x y : Q) : Qgtb x y = true <-> (y < x)%Q.
Proof.
  unfold Qgtb. rewrite negb_true_iff. split.
  - intros H. apply Qnot_le_lt. intros Hle.
    apply Qle_bool_iff in Hle. congruence.
  - intros H. destruct (Qle_bool x y) eqn:E; [|reflexivity].
    apply Qle_bool_iff in E. exfalso. exact (Qlt_not_le _ _ H E).
Qed.

Lemma segment_valid_iff (seg : list Q) :
  segment_valid seg = true
  <-> 100 < len seg /\ (epsilon < Qabs (np_mean seg))%Q.
Proof.
  unfold segment_valid. rewrite andb_true_iff, Qgtb_true_iff.
  split; intros [H1 H2]; split; try assumption; lia.
Qed.

Lemma sumQ_zeros (seg : list Q) :
  Forall (fun x => x == 0)%Q seg -> (sumQ seg == 0)%Q.
Proof.
  induction 1 as [|x l Hx _ IH]; simpl; [reflexivity|].
  rewrite Hx, IH. reflexivity.
Qed.

Section Gate.
Variable est : estimators.
Variable a : call_args.

Lemma process_segment_cases st s e :
  let seg := slice (data_array a) s e in
  (segment_valid seg = true
   /\ process_segment est a st s e
      = mk_loop_state e
          (_adjust_minute_representation
             (current_minute_offset st + segment_duration_minutes a))
          (feature_results_list st
           ++ [feature_vector est a s e (current_minute_offset st) seg])
          (events st ++ [Sliced s e true]))
  \/ (segment_valid seg = false
      /\ process_segment est a st s e
         = mk_loop_state e (current_minute_offset st)
             (feature_results_list st) (events st ++ [Sliced s e false])).
Proof.
  intros seg. unfold process_segment. fold seg.
  destruct (len seg =? 0) eqn:E.
  - right. split; [|reflexivity].
    apply Z.eqb_eq in E. unfold segment_valid. now rewrite E.
  - destruct (segment_valid seg); [left|right]; split; reflexivity.
Qed.

Lemma loop_body_cases total pps ov st i :
  exists s e,
    loop_body est a total pps ov st i = process_segment est a st s e
    \/ loop_body est a total pps ov st i
       = mk_loop_state e (current_minute_offset st) (feature_results_list st)
           (events st ++ [Discarded s e]).
Proof.
  unfold loop_body.
  set (s := if i =? 1 then 0 else segment_end_index st - ov).
  set (e := if i =? 1 then pps else s + pps).
  destruct (e >? total).
  - destruct (s >=? total); exists s, total; [right|left]; reflexivity.
  - exists s, e. left. reflexivity.
Qed.

(** Invariants of the loop carry over to the state on return. *)
Lemma extract_features_state_inv (Inv : loop_state -> Prop) init :
  Inv (mk_loop_state 0 0 init []) ->
  (forall st s e, Inv st -> Inv (process_segment est a st s e)) ->
  (forall st s e, Inv st ->
     Inv (mk_loop_state e (current_minute_offset st)
            (feature_results_list st) (events st ++ [Discarded s e]))) ->
  Inv (extract_features_state est a init).
Proof.
  intros H0 Hp Hd. unfold extract_features_state.
  destruct (points_per_segment a =? 0); [exact H0|].
  destruct (len (data_array a) >=? points_per_segment a); [|exact H0].
  generalize (range 1 (len (data_array a) / points_per_segment a + 1)).
  intros l. revert H0. generalize (mk_loop_state 0 0 init []).
  induction l as [|i l IH]; intros st Hst; [exact Hst|].
  simpl. apply IH.
  destruct (loop_body_cases (len (data_array a)) (points_per_segment a)
              (points_per_segment a / 3) st i) as [s [e [H|H]]];
    rewrite H; [apply Hp|apply Hd]; exact Hst.
Qed.

End Gate.

Lemma accepted_count_app evs ev :
  accepted_count (evs ++ [ev])
  = (accepted_count evs
     + match ev with Sliced _ _ true => 1 | _ => 0 end)%nat.
Proof.
  unfold accepted_count. rewrite filter_app, length_app. f_equal.
  destruct ev as [s e|s e [|]]; reflexivity.
Qed.

Import LibraryCalls.

(** * The validity gate and the library calls *)

Lemma segment_passes_iff (lib : library) (seg : list Q) :
  segment_passes lib seg = true
  <-> 100 < len seg /\ (epsilon_double < Qabs (mean_double lib seg))%Q.
Proof.
  unfold segment_passes. rewrite andb_true_iff, Qgtb_true_iff.
  split; intros [H1 H2]; (split; [lia|exact H2]).
Qed.

(** The three ways the work on a window ends. *)
Lemma process_segment_calls_cases lib a st s e :
  let seg := slice (data_array a) s e in
  segment_passes lib seg = false
  /\ process_segment_calls lib a st s e
     = Continues (mk_loop_state e (current_minute_offset st)
                    (feature_results_list st) (events st))
  \/ segment_passes lib seg = true /\ segment_raises lib a seg = true
     /\ process_segment_calls lib a st s e
        = Raises (mk_loop_state e (current_minute_offset st)
                    (feature_results_list st) (events st))
  \/ segment_passes lib seg = true /\ segment_raises lib a seg = false
     /\ process_segment_calls lib a st s e
        = Continues
            (mk_loop_state e
               (_adjust_minute_representation
                  (current_minute_offset st + segment_duration_minutes a))
               (feature_results_list st
                ++ [feature_vector (returned lib) a s e
                      (current_minute_offset st) seg])
               (events st)).
Proof.
  intros seg. unfold process_segment_calls. fold seg.
  destruct (len seg =? 0) eqn:E0.
  - left. split; [|reflexivity]. apply Z.eqb_eq in E0.
    unfold segment_passes. rewrite E0. reflexivity.
  - destruct (segment_passes lib seg); [|left; now split].
    right. destruct (segment_raises lib a seg); [left|right]; now repeat split.
Qed.

(** With line 73's separation, nolds has too few trajectories on every
    segment of fewer than 2640 samples. *)
Lemma min_tsep_leaves_no_room (n : Z) :
  n < 2640 -> n - 28 < 2 * lyap_r_min_tsep n + 2.
Proof.
  intros Hn. unfold lyap_r_min_tsep.
  destruct (n >? 1305 * 2) eqn:E; [lia|].
  pose proof (Z.mul_succ_div_gt n 2 ltac:(lia)). lia.
Qed.

Lemma nolds_raises_below_2640 lib a seg :
  nolds_trajectory_check lib -> len seg < 2640 ->
  segment_raises lib a seg = true.
Proof.
  intros Hnolds Hlen. unfold segment_raises.
  rewrite (Hnolds seg (lyap_r_min_tsep (len seg))
             (min_tsep_leaves_no_room (len seg) Hlen)).
  apply orb_true_r.
Qed.

Lemma mean_of_zeros_fails lib seg :
  mean_of_zeros lib -> Forall (fun v => v == 0)%Q seg ->
  segment_passes lib seg = false.
Proof.
  intros Hmean Hz. unfold segment_passes, Qgtb.
  assert (Hle : Qle_bool (Qabs (mean_double lib seg)) epsilon_double = true).
  { apply Qle_bool_iff. rewrite (Hmean seg Hz). vm_compute. discriminate. }
  rewrite Hle. apply andb_false_r.
Qed.

Lemma loop_calls_cons lib a total pps ov i rest st :
  loop_calls lib a total pps ov (i :: rest) st
  = match loop_body_calls lib a total pps ov st i with
    | Continues st' => loop_calls lib a total pps ov rest st'
    | Raises st' => Raises st'
    end.
Proof.
  unfold loop_calls. cbn [fold_left].
  destruct (loop_body_calls lib a total pps ov st i) as [st'|st'];
    [reflexivity|].
  induction rest as [|i' rest IH]; [reflexivity|exact IH].
Qed.

(** Iteration [j + 1] works on window [j], unclamped. *)
Lemma loop_body_calls_window lib a (j : nat) st :
  1 <= points_per_segment a ->
  Z.of_nat j < len (data_array a) / points_per_segment a ->
  (j = O \/ segment_end_index st = window_end a (j - 1)) ->
  loop_body_calls lib a (len (data_array a)) (points_per_segment a)
    (points_per_segment a / 3) st (1 + Z.of_nat j)
  = process_segment_calls lib a st (window_start a j) (window_end a j).
Proof.
  unfold window_end, window_start.
  generalize (points_per_segment a). intros pps Hpps Hj Hinv.
  pose proof (overlap_bounds pps Hpps) as Hov.
  pose proof (len_nonneg (data_array a)) as Htot.
  pose proof (Z.mul_div_le (len (data_array a)) pps ltac:(lia)) as Hdiv.
  assert (Hfit : Z.of_nat j * (pps - pps / 3) + pps <= len (data_array a))
    by nia.
  unfold loop_body_calls.
  destruct j as [|j].
  - cbn [Z.of_nat Z.add Z.eqb Pos.eqb]. cbv iota.
    rewrite Z.mul_0_l, Z.add_0_l in *.
    now replace (pps >? len (data_array a)) with false by lia.
  - destruct Hinv as [Hinv|Hinv]; [discriminate|].
    replace (S j - 1)%nat with j in Hinv by lia.
    assert (E1 : (1 + Z.of_nat (S j) =? 1) = false)
      by (apply Z.eqb_neq; lia).
    rewrite E1, Hinv.
    replace (Z.of_nat j * (pps - pps / 3) + pps - pps / 3)
      with (Z.of_nat (S j) * (pps - pps / 3))
      by (rewrite Nat2Z.inj_succ; ring).
    assert (E2 : (Z.of_nat (S j) * (pps - pps / 3) + pps
                  >? len (data_array a)) = false)
      by (rewrite Z.gtb_ltb; apply Z.ltb_ge; exact Hfit).
    now rewrite E2.
Qed.

(** The loop from iteration [j + 1] on reads as the rows of the windows
    from [j] on. *)
Lemma loop_calls_windows lib a :
  1 <= points_per_segment a ->
  forall (k j : nat) (st : loop_state),
    Z.of_nat (j + k) <= len (data_array a) / points_per_segment a ->
    (j = O \/ segment_end_index st = window_end a (j - 1)) ->
    ending_of
      (loop_calls lib a (len (data_array a)) (points_per_segment a)
         (points_per_segment a / 3)
         (map (fun x => 1 + Z.of_nat x) (seq j k)) st)
    = rows_of_windows lib a (current_minute_offset st)
        (feature_results_list st) (seq j k).
Proof.
  intros Hpps. induction k as [|k IH]; intros j st Hjk Hinv; [reflexivity|].
  cbn [seq map rows_of_windows]. rewrite loop_calls_cons.
  rewrite (loop_body_calls_window lib a j st Hpps ltac:(lia) Hinv).
  destruct (process_segment_calls_cases lib a st (window_start a j)
              (window_end a j)) as [[Hp Hr]|[[Hp [Hx Hr]]|[Hp [Hx Hr]]]];
    fold (window a j) in Hp, Hr; try fold (window a j) in Hx;
    rewrite Hr, Hp; try rewrite Hx.
  - rewrite IH; [reflexivity|lia|right].
    cbn [segment_end_index]. f_equal. lia.
  - reflexivity.
  - rewrite IH; [reflexivity|lia|right].
    cbn [segment_end_index]. f_equal. lia.
Qed.

(** A call reads as the rows of its windows. *)
Lemma extract_features_calls_windows lib a init :
  1 <= points_per_segment a ->
  extract_features_calls lib a init
  = rows_of_windows lib a 0 init
      (seq 0 (Z.to_nat (len (data_array a) / points_per_segment a))).
Proof.
  intros Hpps. unfold extract_features_calls.
  pose proof (len_nonneg (data_array a)) as Htot.
  replace (points_per_segment a =? 0) with false by lia.
  destruct (len (data_array a) >=? points_per_segment a) eqn:Hge.
  - rewrite range_from_1.
    apply (loop_calls_windows lib a Hpps
             (Z.to_nat (len (data_array a) / points_per_segment a)) O
             (mk_loop_state 0 0 init [])); [|now left].
    pose proof (Z.div_pos (len (data_array a)) (points_per_segment a)
                  Htot ltac:(lia)). lia.
  - rewrite Z.div_small by lia. reflexivity.
Qed.

(** When the calls return on every window that passes the test, every such
    window gives its row. *)
Lemma rows_of_windows_returning lib a :
  forall (indices : list nat) (m : Z) (rows : list (list value)),
    (forall i, In i indices ->
       segment_passes lib (window a i) = true ->
       segment_raises lib a (window a i) = false) ->
    exists new,
      rows_of_windows lib a m rows indices = Returned (rows ++ new)
      /\ List.length new
         = List.length
             (filter (fun i => segment_passes lib (window a i)) indices).
Proof.
  induction indices as [|i rest IH]; intros m rows Hret.
  - exists []. now rewrite app_nil_r.
  - cbn [rows_of_windows filter].
    destruct (segment_passes lib (window a i)) eqn:Hp.
    + rewrite (Hret i (or_introl eq_refl) Hp).
      destruct (IH (_adjust_minute_representation
                      (m + segment_duration_minutes a))
                   (rows ++ [feature_vector (returned lib) a
                               (window_start a i) (window_end a i) m
                               (window a i)]))
        as [new [Hrun Hlen]];
        [intros i' Hi'; apply Hret; now right|].
      eexists. rewrite Hrun, <- app_assoc. split; [reflexivity|].
      cbn [app List.length]. now rewrite Hlen.
    + apply IH. intros i' Hi'. apply Hret. now right.
Qed.

(** Every window of a call has [points_per_segment] samples. *)
Lemma window_length a (i : nat) :
  1 <= points_per_segment a ->
  Z.of_nat i < len (data_array a) / points_per_segment a ->
  len (window a i) = points_per_segment a.
Proof.
  unfold window, window_end, window_start.
  generalize (points_per_segment a). intros pps Hpps Hi.
  pose proof (overlap_bounds pps Hpps) as Hov.
  pose proof (len_nonneg (data_array a)) as Htot.
  pose proof (Z.mul_div_le (len (data_array a)) pps ltac:(lia)) as Hdiv.
  rewrite slice_length; nia.
Qed.

(** C2. Segment validity gate, with the library calls as they can end. A
    segment passes the test of line 66 exactly when it has more than 100
    samples and the absolute value of the mean that [np.mean] returns
    exceeds the double [1e-9]. A segment that fails it, and so a segment of
    zeros of any length, leaves the rows and the minute counter as they
    were. A segment that passes it gives a row, and advances the counter by
    [segmentDurationMinutes] (renormalized), only if every library call
    returns: if one raises, the exception leaves the call before the row is
    appended. That is what happens, by the trajectory check of nolds, on
    every segment of fewer than 2640 samples that passes the test, whatever
    its samples: line 73 asks [lyap_r] for a separation that leaves no
    room. Over a whole call the rows are those of the windows that pass the
    test, in order, up to the first such window on which a call raises; when
    no call raises on them, the call returns one new row for each. *)
Theorem segment_validity_gate :
  (forall (lib : library) (a : call_args) (st : loop_state) (s e : Z),
      let seg := slice (data_array a) s e in
      let it := process_segment_calls lib a st s e in
      (segment_passes lib seg = true
       <-> 100 < len seg
           /\ (epsilon_double < Qabs (mean_double lib seg))%Q)
      /\ (segment_passes lib seg = false ->
          exists st',
            it = Continues st'
            /\ feature_results_list st' = feature_results_list st
            /\ current_minute_offset st' = current_minute_offset st)
      /\ (mean_of_zeros lib -> Forall (fun v => v == 0)%Q seg ->
          segment_passes lib seg = false)
      /\ (segment_passes lib seg = true -> segment_raises lib a seg = false ->
          exists st',
            it = Continues st'
            /\ feature_results_list st'
               = feature_results_list st
                 ++ [feature_vector (returned lib) a s e
                       (current_minute_offset st) seg]
            /\ current_minute_offset st'
               = _adjust_minute_representation
                   (current_minute_offset st + segment_duration_minutes a))
      /\ (segment_passes lib seg = true -> segment_raises lib a seg = true ->
          exists st',
            it = Raises st'
            /\ feature_results_list st' = feature_results_list st
            /\ current_minute_offset st' = current_minute_offset st)
      /\ (nolds_trajectory_check lib ->
          segment_passes lib seg = true -> len seg < 2640 ->
          exists st',
            it = Raises st'
            /\ feature_results_list st' = feature_results_list st))
  /\ (forall (lib : library) (a : call_args) (init : list (list value)),
         1 <= points_per_segment a ->
         extract_features_calls lib a init
         = rows_of_windows lib a 0 init
             (seq 0 (Z.to_nat (len (data_array a) / points_per_segment a))))
  /\ (forall (lib : library) (a : call_args) (init : list (list value)),
         1 <= points_per_segment a ->
         let indices :=
           seq 0 (Z.to_nat (len (data_array a) / points_per_segment a)) in
         (forall i, In i indices ->
            segment_passes lib (window a i) = true ->
            segment_raises lib a (window a i) = false) ->
         exists new,
           extract_features_calls lib a init = Returned (init ++ new)
           /\ List.length new
              = List.length
                  (filter (fun i => segment_passes lib (window a i))
                          indices)).
Proof.
  split; [|split; [exact extract_features_calls_windows|]];
    [|intros lib a init Hpps indices Hret;
      rewrite (extract_features_calls_windows lib a init Hpps);
      now apply rows_of_windows_returning].
  intros lib a st s e seg it.
  split; [apply segment_passes_iff|].
  destruct (process_segment_calls_cases lib a st s e)
    as [[Hp Hr]|[[Hp [Hx Hr]]|[Hp [Hx Hr]]]];
    fold seg in Hp, Hr; try fold seg in Hx; fold it in Hr.
  - split; [intros _; eexists; split; [exact Hr|now split]|].
    split; [intros Hm Hz; now apply mean_of_zeros_fails|].
    split; [congruence|]. split; [congruence|]. congruence.
  - split; [congruence|].
    split; [intros Hm Hz; now apply mean_of_zeros_fails|].
    split; [congruence|].
    split; [intros _ _; eexists; split; [exact Hr|now split]|].
    intros _ _ _. eexists. split; [exact Hr|reflexivity].
  - split; [congruence|].
    split; [intros Hm Hz; now apply mean_of_zeros_fails|].
    split; [intros _ _; eexists; split; [exact Hr|now split]|].
    split; [congruence|].
    intros Hnolds _ Hlen.
    rewrite (nolds_raises_below_2640 lib a seg Hnolds Hlen) in Hx.
    discriminate.
Qed.

Lemma nolds_library_checks :
  nolds_trajectory_check nolds_library /\ mean_of_zeros nolds_library.
Proof.
  split.
  - intros x m H. apply Z.ltb_lt. exact H.
  - intros x Hz. cbn [mean_double nolds_library].
    assert (Hm : (np_mean x == 0)%Q)
      by (unfold np_mean; rewrite (sumQ_zeros x Hz); unfold Qdiv; ring).
    rewrite (round_binary64_Qeq _ _ Hm). reflexivity.
Qed.

(** On the 180 samples 1, 2, ..., 180, at one sample per second and with
    three-minute segments, the one segment passes the test and
    the call ends with the exception of [lyap_r], no row appended; a
    segment of 2640 samples is the shortest that gives a row; a segment of
    500 zeros fails the test. *)
Lemma segment_validity_gate_witness :
  segment_passes nolds_library (ramp 180) = true
  /\ (exists st',
        process_segment_calls nolds_library short_segment_call initial_state
          0 180 = Raises st'
        /\ feature_results_list st' = [])
  /\ extract_features_calls nolds_library short_segment_call [] = Raised []
  /\ (exists row,
        extract_features_calls nolds_library long_segment_call []
        = Returned [row])
  /\ segment_passes nolds_library
       (slice (data_array (call_on (zeros 500) (PyBool false))) 0 500)
     = false.
Proof.
  pose proof (proj1 segment_validity_gate nolds_library) as G.
  destruct nolds_library_checks as [Hnolds Hmean].
  split; [vm_compute; reflexivity|]. split; [|split; [|split]].
  - destruct (G short_segment_call initial_state 0 180)
      as [_ [_ [_ [_ [_ Hbug]]]]].
    apply (Hbug Hnolds); vm_compute; reflexivity.
  - rewrite (proj1 (proj2 segment_validity_gate) nolds_library
               short_segment_call [])
      by (vm_compute; discriminate).
    vm_compute. reflexivity.
  - rewrite (proj1 (proj2 segment_validity_gate) nolds_library
               long_segment_call [])
      by (vm_compute; discriminate).
    eexists. vm_compute. reflexivity.
  - destruct (G (call_on (zeros 500) (PyBool false)) initial_state 0 500)
      as [_ [_ [Hzero _]]].
    apply (Hzero Hmean). vm_compute. repeat constructor.
Defined.

Import Pandas FeatureTable.

(** * Properties of the minute label and of the Lyapunov separation *)

(** C3. Minute renormalization on the values the specification lists, and on
    the hours whose branch the function lacks: 65, 2170 and 2400 go to 100,
    2200 and 0, while 265, which lies strictly between 2*100+60 and 3*100,
    is returned unchanged instead of 300, and so is every value strictly
    inside the gap of any hour from 2 to 20 and of hour 22. The running
    minute counter of a call with three-minute segments reaches such a value,
    263, with its 63rd accepted segment. *)
Theorem adjust_minute_missing_hours :
  _adjust_minute_representation 65 = 100
  /\ _adjust_minute_representation 2170 = 2200
  /\ _adjust_minute_representation 2400 = 0
  /\ SpecWords.strictly_inside_hour_gap 2 265
  /\ _adjust_minute_representation 265 = 265
  /\ forallb (fun H =>
                forallb (fun v => _adjust_minute_representation v =? v)
                        (range (H * 100 + 61) ((H + 1) * 100)))
             (range 2 21 ++ [22]) = true
  /\ Nat.iter 63 (fun m => _adjust_minute_representation (m + 3)) 0 = 263.
Proof.
  unfold SpecWords.strictly_inside_hour_gap.
  repeat split; try reflexivity; lia.
Qed.

(** C7. Adaptive Lyapunov separation. The minimum temporal separation handed
    to the scalar Lyapunov estimator is 1305 when the segment has more than
    2*1305 samples and [max(1, floor(n/2) - 1)] otherwise, hence never below
    1; it is the value the fourth numeric field of a row is computed with. *)
Theorem adaptive_lyapunov_separation :
  (forall n : Z,
      (2 * 1305 < n -> lyap_r_min_tsep n = 1305)
      /\ (n <= 2 * 1305 -> lyap_r_min_tsep n = Z.max 1 (n / 2 - 1))
      /\ 1 <= lyap_r_min_tsep n)
  /\ (forall (est : estimators) (a : call_args) (seg : list Q),
         nth 3 (numeric_features est a seg) 0%Q
         = lyap_r est seg (lyap_r_min_tsep (len seg))).
Proof.
  split.
  - intros n. unfold lyap_r_min_tsep.
    destruct (n >? 1305 * 2) eqn:E; repeat split; intros; lia.
  - intros est a seg. unfold numeric_features.
    destruct (welch est seg (sample_rate a)). reflexivity.
Qed.

Lemma adaptive_lyapunov_separation_witness :
  lyap_r_min_tsep 3000 = 1305 /\ lyap_r_min_tsep 200 = 99.
Proof.
  split.
  - apply (proj1 (proj1 adaptive_lyapunov_separation 3000)). lia.
  - apply (proj1 (proj2 (proj1 adaptive_lyapunov_separation 200))). lia.
Defined.

(** * Properties of the rows and of the table schema *)

Lemma feature_vector_length est a s e m seg :
  List.length (feature_vector est a s e m seg)
  = (if truthy (stage_info a) then 26 else 25)%nat.
Proof.
  unfold feature_vector, numeric_features.
  destruct (welch est seg (sample_rate a)).
  destruct (truthy (stage_info a)); reflexivity.
Qed.

(** The rows a call appends are feature vectors of segments of the data. *)
Lemma extract_features_rows est a init :
  exists new,
    extract_features est a init = init ++ new
    /\ Forall (fun fv => exists s e m,
                 fv = feature_vector est a s e m (slice (data_array a) s e))
              new.
Proof.
  unfold extract_features.
  apply (extract_features_state_inv est a
           (fun st => exists new,
              feature_results_list st = init ++ new
              /\ Forall (fun fv => exists s e m,
                   fv = feature_vector est a s e m (slice (data_array a) s e))
                   new)).
  - exists []. simpl. split; [now rewrite app_nil_r|constructor].
  - intros st s e [new [Hr Hall]].
    destruct (process_segment_cases est a st s e) as [[_ Hp]|[_ Hp]];
      rewrite Hp; simpl.
    + exists (new ++ [feature_vector est a s e (current_minute_offset st)
                        (slice (data_array a) s e)]).
      split; [rewrite Hr; now rewrite app_assoc|].
      apply Forall_app. split; [exact Hall|].
      constructor; [|constructor]. now exists s, e, (current_minute_offset st).
    + exists new. auto.
  - intros st s e [new [Hr Hall]]. exists new. auto.
Qed.

(** C6. Arity and order of a row. Every row [extract_features] appends has
    25 fields when no stage tag is present (the tag is absent or falsy) and 26
    when one is, as many as the column schema of [save_features_to_csv] has
    names for the same flag, and under that schema each name sits over its own
    quantity: class id, class name, minute label, date label, the stage tag
    if present, then entropy, fractal exponent, count of positive Lyapunov
    exponents, scalar Lyapunov estimate, the five band powers, and mean,
    minimum, maximum and spread of the FFT magnitudes, of the PSD and of the
    amplitudes. *)
Theorem feature_vector_arity_and_order :
  forall (est : estimators) (a : call_args) (init : list (list value)),
  exists new,
    extract_features est a init = init ++ new
    /\ Forall
         (fun fv =>
            List.length fv = (if truthy (stage_info a) then 26 else 25)%nat
            /\ List.length fv
               = List.length (column_names (truthy (stage_info a)))
            /\ exists s e m,
                 let seg := slice (data_array a) s e in
                 let spectrum := welch est seg (sample_rate a) in
                 let band lo hi :=
                   PyFloat (Qabs (absolute_band_power est (fst spectrum)
                                    (snd spectrum) lo hi)) in
                 let fft := describe est (rfft_abs est seg) in
                 let psd := describe est (map Qabs (snd spectrum)) in
                 let amp := describe est (map Qabs seg) in
                 combine (column_names (truthy (stage_info a))) fv
                 = [ ("class_id", PyInt (class_id a));
                     ("class_name", PyStr (class_name a));
                     ("formatted_minute",
                      PyInt (formatted_minute (start_time_info a) s e m));
                     ("formatted_date",
                      PyStr (formatted_date (start_date_info a) s)) ]%string
                   ++ (if truthy (stage_info a)
                       then [("stage_info"%string, stage_info a)] else [])
                   ++ [ ("apen", PyFloat (Qabs (app_entropy est seg)));
                        ("dfa", PyFloat (Qabs (dfa est seg)));
                        ("chaos_cont_dim",
                         PyFloat (inject_Z (positive_count (lyap_e est seg))));
                        ("lyap_r",
                         PyFloat (lyap_r est seg (lyap_r_min_tsep (len seg))));
                        ("abp_low", band 0%Q (1 # 2)%Q);
                        ("abp_delta", band (1 # 2)%Q 4%Q);
                        ("abp_theta", band 4%Q 8%Q);
                        ("abp_alpha", band 8%Q 12%Q);
                        ("abp_beta", band 12%Q 30%Q);
                        ("fft_mean", PyFloat (d_mean fft));
                        ("fft_min", PyFloat (Qabs (d_min fft)));
                        ("fft_max", PyFloat (Qabs (d_max fft)));
                        ("fft_variance", PyFloat (Qabs (d_std fft)));
                        ("psd_mean", PyFloat (Qabs (d_mean psd)));
                        ("psd_min", PyFloat (Qabs (d_min psd)));
                        ("psd_max", PyFloat (Qabs (d_max psd)));
                        ("psd_variance", PyFloat (Qabs (d_std psd)));
                        ("electrome_mean", PyFloat (Qabs (d_mean amp)));
                        ("electrome_min", PyFloat (Qabs (d_min amp)));
                        ("electrome_max", PyFloat (Qabs (d_max amp)));
                        ("electrome_variance", PyFloat (Qabs (d_std amp)))
                      ]%string)
         new.
Proof.
  intros est a init.
  destruct (extract_features_rows est a init) as [new [Hr Hall]].
  exists new. split; [exact Hr|].
  eapply Forall_impl; [|exact Hall].
  intros fv [s [e [m Hfv]]]. subst fv.
  split; [apply feature_vector_length|].
  split; [rewrite feature_vector_length;
          destruct (truthy (stage_info a)); reflexivity|].
  exists s, e, m. unfold feature_vector, numeric_features.
  destruct (welch est (slice (data_array a) s e) (sample_rate a))
    as [frequencies psd_values].
  destruct (truthy (stage_info a)); reflexivity.
Qed.

Lemma max_width_uniform (data : list (list value)) (n : nat) :
  data <> [] -> Forall (fun r => List.length r = n) data ->
  max_width data = n.
Proof.
  intros Hne Hall. induction Hall as [|r l Hr Hl IH]; [congruence|].
  simpl. rewrite Hr. destruct l as [|r' l'].
  - simpl. lia.
  - rewrite IH by discriminate. lia.
Qed.

(** C10. A falsy stage tag counts as absent. The stage field is part of a
    row exactly when [stage_info] is truthy; 0, False and the empty string are
    not. With a falsy tag every appended row has 25 fields, and saving a
    non-empty list of such rows under the 26-name schema of the stage flag
    writes nothing and returns no table: the DataFrame constructor raises. *)
Theorem falsy_stage_tag_is_absent :
  (truthy (PyInt 0) = false /\ truthy (PyBool false) = false
   /\ truthy (PyStr "") = false)
  /\ (forall (est : estimators) (a : call_args) (s e m : Z) (seg : list Q),
         (nth_error (feature_vector est a s e m seg) 4 = Some (stage_info a)
          /\ List.length (feature_vector est a s e m seg) = 26%nat)
         <-> truthy (stage_info a) = true)
  /\ (forall (est : estimators) (a : call_args) (init : list (list value)),
         truthy (stage_info a) = false ->
         exists new,
           extract_features est a init = init ++ new
           /\ Forall (fun fv => List.length fv = 25%nat) new)
  /\ (forall (writable : string -> bool) (features_output_path : option string)
             (data : list (list value)) (output_identifier : string)
             (save_mode : Z) (d : disk),
         data <> [] ->
         Forall (fun fv => List.length fv = 25%nat) data ->
         let r := save_features_to_csv writable features_output_path
                    (OfLists data) output_identifier true save_mode d in
         snd r = d
         /\ (forall df, fst r <> ReturnedFrame df)
         /\ (features_output_path <> None -> fst r = RaisedValueError)).
Proof.
  split; [repeat split|]. split; [|split].
  - intros est a s e m seg. split.
    + intros [_ Hlen]. rewrite feature_vector_length in Hlen.
      destruct (truthy (stage_info a)); [reflexivity|discriminate].
    + intros Ht. rewrite feature_vector_length, Ht.
      split; [|reflexivity]. unfold feature_vector. rewrite Ht. reflexivity.
  - intros est a init Hf.
    destruct (extract_features_rows est a init) as [new [Hr Hall]].
    exists new. split; [exact Hr|].
    eapply Forall_impl; [|exact Hall].
    intros fv [s [e [m Hfv]]]. subst fv.
    now rewrite feature_vector_length, Hf.
  - intros writable features_output_path data output_identifier save_mode d
           Hne Hall r. subst r. unfold save_features_to_csv.
    destruct features_output_path as [base|];
      [|split; [reflexivity|split; [discriminate|congruence]]].
    assert (Hb : build_features_df (OfLists data) (column_names true) = None).
    { simpl. unfold frame_of_lists. destruct data as [|r0 data']; [congruence|].
      rewrite (max_width_uniform (r0 :: data') 25 Hne Hall). reflexivity. }
    rewrite Hb. split; [reflexivity|]. split; [discriminate|reflexivity].
Qed.

Lemma falsy_stage_tag_is_absent_witness :
  (exists new,
     extract_features zero_estimators falsy_stage_call [] = [] ++ new
     /\ Forall (fun fv => List.length fv = 25%nat) new)
  /\ fst (save_features_to_csv (fun _ => true) (Some "features"%string)
            (OfLists (extract_features zero_estimators falsy_stage_call []))
            "c/f" true 1 [])
     = RaisedValueError.
Proof.
  pose proof falsy_stage_tag_is_absent as [_ [_ [Hrows Hsave]]].
  split.
  - apply Hrows. reflexivity.
  - apply Hsave.
    + vm_compute. discriminate.
    + vm_compute. repeat constructor.
    + discriminate.
Defined.


(** * Properties of the band powers *)

Lemma mask_select_filter (g : Q -> bool) (frequencies psd_values : list Q) :
  mask_select (map g frequencies) psd_values
  = map snd (filter (fun fp => g (fst fp)) (combine frequencies psd_values)).
Proof.
  revert psd_values.
  induction frequencies as [|f fs IH]; intros [|p ps]; simpl; try reflexivity.
  rewrite IH. destruct (g f); reflexivity.
Qed.

Lemma in_band_iff (low high x : Q) :
  Qle_bool low x && Qle_bool x high = true <-> (low <= x /\ x <= high)%Q.
Proof. now rewrite andb_true_iff, !Qle_bool_iff. Qed.

Lemma any_band_index_iff (frequencies : list Q) (low high : Q) :
  existsb (fun b => b) (band_indices frequencies low high) = true
  <-> exists x, In x frequencies /\ (low <= x /\ x <= high)%Q.
Proof.
  unfold band_indices. rewrite existsb_exists. split.
  - intros [b [Hin Hb]]. apply in_map_iff in Hin.
    destruct Hin as [x [Hx Hin]]. exists x. split; [exact Hin|].
    apply in_band_iff. congruence.
  - intros [x [Hin Hx]]. exists true. split; [|reflexivity].
    apply in_map_iff. exists x. split; [|exact Hin]. now apply in_band_iff.
Qed.

Lemma band_power_empty est frequencies psd_values low high :
  (forall x, In x frequencies -> ~ (low <= x /\ x <= high)%Q) ->
  absolute_band_power est frequencies psd_values low high = 0%Q.
Proof.
  intros Hnone. unfold absolute_band_power.
  destruct (existsb (fun b => b) (band_indices frequencies low high)) eqn:E;
    [|reflexivity].
  apply any_band_index_iff in E. destruct E as [x [Hin Hx]].
  exfalso. exact (Hnone x Hin Hx).
Qed.

Lemma band_power_field est a seg (k : nat) (low high : Q) :
  nth_error bands k = Some (low, high) ->
  nth (4 + k) (numeric_features est a seg) 0%Q
  = Qabs (absolute_band_power est (fst (welch est seg (sample_rate a)))
            (snd (welch est seg (sample_rate a))) low high).
Proof.
  intros Hk. unfold numeric_features.
  destruct (welch est seg (sample_rate a)) as [frequencies psd_values].
  do 5 (destruct k as [|k]; [inversion Hk; reflexivity|]).
  destruct k; discriminate.
Qed.

Lemma mask_select_none (frequencies psd_values : list Q) (low high : Q) :
  (forall x, In x frequencies -> ~ (low <= x /\ x <= high)%Q) ->
  mask_select (band_indices frequencies low high) psd_values = [].
Proof.
  revert psd_values.
  induction frequencies as [|f fs IH]; intros [|p ps] Hnone; simpl;
    try reflexivity.
  destruct (Qle_bool low f && Qle_bool f high) eqn:E.
  - apply in_band_iff in E. exfalso. apply (Hnone f); [now left|exact E].
  - apply IH. intros x Hin. apply Hnone. now right.
Qed.

(** With distinct bins, a band whose half-open range is empty selects at most
    the bin on its upper bound. *)
Lemma boundary_bin_single (frequencies psd_values : list Q) (low high : Q) :
  List.length frequencies = List.length psd_values ->
  NoDupA Qeq frequencies ->
  (forall x, In x frequencies -> ~ (low <= x /\ x < high)%Q) ->
  (exists x, In x frequencies /\ (low <= x /\ x <= high)%Q) ->
  exists y, mask_select (band_indices frequencies low high) psd_values = [y].
Proof.
  revert psd_values.
  induction frequencies as [|f fs IH]; intros [|p ps] Hlen Hnd Hopen Hsome;
    try discriminate.
  - destruct Hsome as [x [[] _]].
  - inversion Hnd as [|f' fs' Hnotin Hnd']; subst. simpl.
    destruct (Qle_bool low f && Qle_bool f high) eqn:E.
    + exists p. f_equal. apply mask_select_none.
      intros x Hin [Hlo Hhi]. apply in_band_iff in E. destruct E as [Hlof Hfhi].
      assert (Hfx : (f == x)%Q).
      { apply Qle_antisym.
        - apply Qnot_lt_le. intros Hlt.
          apply (Hopen x (or_intror Hin)). split; [exact Hlo|].
          eapply Qlt_le_trans; eassumption.
        - apply Qnot_lt_le. intros Hlt.
          apply (Hopen f (or_introl eq_refl)). split; [exact Hlof|].
          eapply Qlt_le_trans; eassumption. }
      apply Hnotin. apply InA_alt. exists x. split; [exact Hfx|exact Hin].
    + apply IH.
      * simpl in Hlen. lia.
      * exact Hnd'.
      * intros x Hin. apply Hopen. now right.
      * destruct Hsome as [x [[->|Hin] Hx]].
        -- apply in_band_iff in Hx. congruence.
        -- now exists x.
Qed.

Lemma distinctQ_sound (l : list Q) : distinctQ l = true -> NoDupA Qeq l.
Proof.
  induction l as [|x l IH]; intros H; [constructor|].
  simpl in H. apply andb_true_iff in H. destruct H as [Hx Hl].
  constructor; [|now apply IH].
  intros Hin. apply InA_alt in Hin. destruct Hin as [y [Hxy Hy]].
  apply negb_true_iff in Hx.
  assert (Ht : existsb (Qeq_bool x) l = true).
  { apply existsb_exists. exists y. split; [exact Hy|].
    now apply Qeq_bool_iff. }
  congruence.
Qed.

Lemma composite_simpson_single (y dx : Q) :
  (composite_simpson [y] dx == 0)%Q.
Proof. unfold composite_simpson. simpl. unfold Qdiv. ring. Qed.

(** C5, amended. Each of the five band powers of a row is the magnitude of
    the Simpson integral, with the PSD's frequency resolution as the step, of
    the PSD restricted to the frequency bins lying in the closed range
    [0, 0.5], [0.5, 4], [4, 8], [8, 12], [12, 30] Hz respectively, a bin on a
    shared bound counting for both bands. A band whose closed range holds no
    bin has power exactly 0. A band with no bin in its half-open range has
    power 0 as well when the bins are distinct and the quadrature of a single
    sample is 0, for then it integrates at most the bin on its upper bound;
    in particular a PSD with no bin in [12, 30) Hz gives a beta band power
    of 0. *)
Theorem band_powers_closed_ranges :
  forall (est : estimators) (a : call_args) (seg : list Q),
    let frequencies := fst (welch est seg (sample_rate a)) in
    let psd_values := snd (welch est seg (sample_rate a)) in
    let single_sample_rule := forall y dx : Q, (simpson est [y] dx == 0)%Q in
    let distinct_bins :=
      List.length frequencies = List.length psd_values
      /\ NoDupA Qeq frequencies in
    bands = [(0, 1 # 2); (1 # 2, 4); (4, 8); (8, 12); (12, 30)]%Q
    /\ (forall (k : nat) (low high : Q),
          nth_error bands k = Some (low, high) ->
          nth (4 + k) (numeric_features est a seg) 0%Q
          = Qabs (absolute_band_power est frequencies psd_values low high)
          /\ ((exists x, In x frequencies /\ (low <= x /\ x <= high)%Q) ->
              absolute_band_power est frequencies psd_values low high
              = simpson est
                  (Statements.bins_closed frequencies psd_values low high)
                  (frequency_resolution frequencies))
          /\ ((forall x, In x frequencies -> ~ (low <= x /\ x <= high)%Q) ->
              absolute_band_power est frequencies psd_values low high = 0%Q
              /\ nth (4 + k) (numeric_features est a seg) 0%Q = 0%Q)
          /\ (single_sample_rule -> distinct_bins ->
              (forall x, In x frequencies -> ~ (low <= x /\ x < high)%Q) ->
              (nth (4 + k) (numeric_features est a seg) 0 == 0)%Q))
    /\ ((forall x, In x frequencies -> ~ (12 <= x /\ x <= 30)%Q) ->
        nth 8 (numeric_features est a seg) 0%Q = 0%Q)
    /\ (single_sample_rule -> distinct_bins ->
        (forall x, In x frequencies -> ~ (12 <= x /\ x < 30)%Q) ->
        (nth 8 (numeric_features est a seg) 0 == 0)%Q).
Proof.
  intros est a seg frequencies psd_values single_sample_rule distinct_bins.
  assert (Hband : forall (k : nat) (low high : Q),
             nth_error bands k = Some (low, high) ->
             single_sample_rule -> distinct_bins ->
             (forall x, In x frequencies -> ~ (low <= x /\ x < high)%Q) ->
             (nth (4 + k) (numeric_features est a seg) 0 == 0)%Q).
  { intros k low high Hk Hrule [Hlen Hnd] Hopen.
    rewrite (band_power_field est a seg k low high Hk).
    fold frequencies psd_values. unfold absolute_band_power.
    destruct (existsb (fun b => b) (band_indices frequencies low high)) eqn:E;
      [|reflexivity].
    apply any_band_index_iff in E.
    destruct (boundary_bin_single frequencies psd_values low high
                Hlen Hnd Hopen E) as [y Hy].
    rewrite Hy, (Hrule y (frequency_resolution frequencies)). reflexivity. }
  split; [reflexivity|]. split; [|split].
  - intros k low high Hk.
    pose proof (band_power_field est a seg k low high Hk) as Hfield.
    fold frequencies psd_values in Hfield.
    split; [exact Hfield|]. split; [|split].
    + intros Hsome. apply any_band_index_iff in Hsome.
      unfold absolute_band_power. rewrite Hsome.
      unfold band_indices, Statements.bins_closed.
      now rewrite (mask_select_filter
                     (fun f => Qle_bool low f && Qle_bool f high)).
    + intros Hnone. rewrite Hfield.
      rewrite (band_power_empty est frequencies psd_values low high Hnone).
      split; reflexivity.
    + exact (Hband k low high Hk).
  - intros Hnone.
    rewrite (band_power_field est a seg 4 12 30 eq_refl
             : nth 8 _ _ = _).
    fold frequencies psd_values.
    now rewrite (band_power_empty est frequencies psd_values 12 30 Hnone).
  - exact (Hband 4%nat 12%Q 30%Q eq_refl).
Qed.

Lemma no_bin_by_test (P : Q -> Prop) (test : Q -> bool) (l : list Q) :
  (forall x, test x = true -> ~ P x) ->
  forallb test l = true -> forall x, In x l -> ~ P x.
Proof.
  intros Htest Hall x Hin. apply Htest.
  exact (proj1 (forallb_forall test l) Hall x Hin).
Qed.

Lemma outside_closed_test (low high x : Q) :
  negb (Qle_bool low x && Qle_bool x high) = true ->
  ~ (low <= x /\ x <= high)%Q.
Proof.
  intros H Hx. apply in_band_iff in Hx. rewrite Hx in H. discriminate.
Qed.

Lemma outside_half_open_test (low high x : Q) :
  negb (Qle_bool low x && negb (Qle_bool high x)) = true ->
  ~ (low <= x /\ x < high)%Q.
Proof.
  intros H [Hlo Hhi]. apply Qle_bool_iff in Hlo. rewrite Hlo in H.
  destruct (Qle_bool high x) eqn:E; [|discriminate].
  apply Qle_bool_iff in E. exact (Qlt_not_le _ _ Hhi E).
Qed.

Lemma band_powers_closed_ranges_witness :
  (nth 5 (numeric_features flat_psd_estimators boundary_call (ones 3)) 0
   == 7 # 2)%Q
  /\ nth 8 (numeric_features flat_psd_estimators narrow_call (ones 3)) 0%Q
     = 0%Q
  /\ (nth 8 (numeric_features flat_psd_estimators coarse_call (ones 3)) 0
      == 0)%Q.
Proof.
  split; [|split].
  - destruct (proj1 (proj2 (band_powers_closed_ranges flat_psd_estimators
                              boundary_call (ones 3)))
                1%nat (1 # 2) 4%Q eq_refl) as [Hfield [Hsome _]].
    cbn [Nat.add] in Hfield. rewrite Hfield, Hsome.
    + vm_compute. reflexivity.
    + exists (nth 2 (fftfreq 256 64) 0%Q).
      split; [apply nth_In; vm_compute; lia|].
      split; vm_compute; discriminate.
  - apply (proj1 (proj2 (proj2 (band_powers_closed_ranges flat_psd_estimators
                                  narrow_call (ones 3))))).
    apply (no_bin_by_test _ (fun x => negb (Qle_bool 12 x && Qle_bool x 30))).
    + intros x. apply outside_closed_test.
    + vm_compute. reflexivity.
  - apply (proj2 (proj2 (proj2 (band_powers_closed_ranges flat_psd_estimators
                                  coarse_call (ones 3))))).
    + exact composite_simpson_single.
    + split; [vm_compute; reflexivity|].
      apply distinctQ_sound. vm_compute. reflexivity.
    + apply (no_bin_by_test _
               (fun x => negb (Qle_bool 12 x && negb (Qle_bool 30 x)))).
      * intros x. apply outside_half_open_test.
      * vm_compute. reflexivity.
Defined.

(** C5 as stated, with half-open ranges, fails. At 64 samples per second the
    PSD grid has bins every 0.25 Hz, one of them on 4 Hz. On a flat PSD the
    delta field of the row integrates the fifteen bins from 0.5 to 4 Hz and
    is 7/2, while the integral over the fourteen bins of [0.5, 4) Hz is
    13/4. *)
Lemma band_powers_half_open_counterexample :
  map (fun row => Qred (float_of (nth 9 row PyNone)))
    (extract_features flat_psd_estimators boundary_call [])
  = [7 # 2]
  /\ Qred (composite_simpson
             (SpecWords.bins_half_open (fftfreq 256 64) (repeat 1%Q 256)
                (1 # 2) 4)
             (frequency_resolution (fftfreq 256 64)))
     = 13 # 4
  /\ ~ (7 # 2 == 13 # 4)%Q.
Proof.
  split; [vm_compute; reflexivity|]. split; [vm_compute; reflexivity|].
  discriminate.
Qed.

Import SignalFilter.

(** * Properties of the filter *)

Lemma cutoff_check_iff (self : config) (sampling_frequency : Q) :
  Qle_bool (normalized_high_cutoff self sampling_frequency)
           (normalized_low_cutoff self sampling_frequency) = false
  <-> (normalized_low_cutoff self sampling_frequency
       < normalized_high_cutoff self sampling_frequency)%Q.
Proof.
  split.
  - intros H. apply Qnot_le_lt. intros Hle.
    apply Qle_bool_iff in Hle. congruence.
  - intros H. destruct (Qle_bool _ _) eqn:E; [|reflexivity].
    apply Qle_bool_iff in E. exfalso. exact (Qlt_not_le _ _ H E).
Qed.

(** The bandpass stage raises the cutoff error exactly when the check of
    line 88 holds, and then runs no filter. *)
Lemma bandpass_stage_cases be self x sampling_frequency :
  (Qle_bool (normalized_high_cutoff self sampling_frequency)
            (normalized_low_cutoff self sampling_frequency) = true
   /\ _apply_butterworth_bandpass_filter be self x sampling_frequency
      = ([], inl CutoffValueError))
  \/ (Qle_bool (normalized_high_cutoff self sampling_frequency)
               (normalized_low_cutoff self sampling_frequency) = false
      /\ exists r,
           _apply_butterworth_bandpass_filter be self x sampling_frequency
           = ([BandpassStage], r)
           /\ r <> inl CutoffValueError).
Proof.
  unfold _apply_butterworth_bandpass_filter.
  fold (normalized_low_cutoff self sampling_frequency).
  fold (normalized_high_cutoff self sampling_frequency).
  destruct (Qle_bool _ _); [left; split; reflexivity|right].
  split; [reflexivity|].
  destruct (butter_filtfilt be _ _ _ x) as [code|y]; simpl;
    eexists; (split; [reflexivity|discriminate]).
Qed.

(** C4, amended. For a configuration whose normalized low cutoff is not
    strictly less than its normalized high cutoff, [apply_filters_and_save]
    never designs or runs the bandpass filter and never writes anything,
    whatever the input and the backend, and it never returns: it ends with
    an exception. On an accepted input on which the notch stage completes
    that exception is the configuration error, raised in the bandpass stage
    after the notch stage has run. For a configuration whose normalized low
    cutoff is strictly less than the high one the call never ends with that
    error. *)
Theorem cutoff_error_raised_in_bandpass_stage :
  forall (be : backend) (self : config) (raw_signal_data : raw_signal)
         (output_subdir_name output_file_name_prefix : string)
         (sample_rate notch_frequency quality_factor : Q),
    let run := apply_filters_and_save be self raw_signal_data
                 output_subdir_name output_file_name_prefix sample_rate
                 notch_frequency quality_factor in
    (~ (normalized_low_cutoff self sample_rate
        < normalized_high_cutoff self sample_rate)%Q ->
     ~ In BandpassStage (fst run)
     /\ no_output_artifact (fst run)
     /\ (exists e, snd run = inl e)
     /\ (forall x y,
           signal_array raw_signal_data = Some x ->
           notch_filtfilt be (notch_frequency / (sample_rate / 2))%Q
             quality_factor x = LibReturned y ->
           run = ([NotchStage], inl CutoffValueError)))
    /\ ((normalized_low_cutoff self sample_rate
         < normalized_high_cutoff self sample_rate)%Q ->
        snd run <> inl CutoffValueError).
Proof.
  intros be self raw sub prefix sr nf qf run. split.
  - intros Hbad.
    assert (Hcases :
              run = ([], inl TypeError)
              \/ (exists code, run = ([NotchStage], inl (LibraryError code)))
              \/ run = ([NotchStage], inl CutoffValueError)
                 /\ exists x y,
                      signal_array raw = Some x
                      /\ notch_filtfilt be (nf / (sr / 2))%Q qf x
                         = LibReturned y).
    { subst run. unfold apply_filters_and_save, _apply_notch_filter.
      destruct (signal_array raw) as [x|]; [|now left].
      right. simpl.
      destruct (notch_filtfilt be (nf / (sr / 2))%Q qf x) as [code|y] eqn:Hn;
        simpl; [left; now exists code|].
      right. split; [|now exists x, y].
      destruct (bandpass_stage_cases be self y sr) as [[_ Hb]|[Hok _]].
      - rewrite Hb. reflexivity.
      - apply cutoff_check_iff in Hok. contradiction. }
    assert (Hquiet : ~ In BandpassStage (fst run)
                     /\ no_output_artifact (fst run)
                     /\ exists e, snd run = inl e).
    { destruct Hcases as [H|[[code H]|[H _]]]; rewrite H; cbn [fst snd].
      - split; [intros []|]. split; [intros path []|now eexists].
      - split; [intros [E|[]]; discriminate|].
        split; [intros path [E|[]]; discriminate|now eexists].
      - split; [intros [E|[]]; discriminate|].
        split; [intros path [E|[]]; discriminate|now eexists]. }
    destruct Hquiet as [Hb [Hs He]].
    split; [exact Hb|]. split; [exact Hs|]. split; [exact He|].
    intros x y Hx Hnotch.
    destruct Hcases as [H|[[code H]|[H _]]]; [| |exact H].
    + exfalso. subst run.
      unfold apply_filters_and_save, _apply_notch_filter in H.
      rewrite Hx in H. simpl in H. rewrite Hnotch in H. simpl in H.
      destruct (_apply_butterworth_bandpass_filter be self y sr)
        as [t [e|z]]; simpl in H; [discriminate|].
      destruct (_save_signal_to_txt be self z prefix sub) as [t' [e|b]];
        simpl in H; [discriminate|]. destruct b; discriminate.
    + exfalso. subst run.
      unfold apply_filters_and_save, _apply_notch_filter in H.
      rewrite Hx in H. simpl in H. rewrite Hnotch in H. simpl in H.
      destruct (bandpass_stage_cases be self y sr) as [[_ Hbp]|[Hok _]].
      * rewrite Hbp in H. simpl in H. discriminate.
      * apply cutoff_check_iff in Hok. contradiction.
  - intros Hgood. apply cutoff_check_iff in Hgood.
    subst run. unfold apply_filters_and_save, _apply_notch_filter.
    destruct (signal_array raw) as [x|]; [|simpl; discriminate].
    simpl. destruct (notch_filtfilt be _ qf x) as [code|y];
      [simpl; discriminate|]. simpl.
    destruct (bandpass_stage_cases be self y sr) as [[Hbad _]|[_ [r [Hb Hr]]]];
      [congruence|].
    rewrite Hb. destruct r as [e|z]; simpl.
    + congruence.
    + unfold _save_signal_to_txt.
      destruct (savetxt_ok be _); simpl; discriminate.
Qed.

Lemma cutoff_error_raised_in_bandpass_stage_witness :
  apply_filters_and_save identity_backend reversed_config
    (RawArray (ones 16)) "c" "f" 250 60 10
  = ([NotchStage], inl CutoffValueError)
  /\ no_output_artifact
       (fst (apply_filters_and_save failing_notch_backend reversed_config
               (RawArray (ones 16)) "c" "f" 250 60 10))
  /\ snd (apply_filters_and_save identity_backend default_config
            (RawArray (ones 16)) "c" "f" 250 60 10)
     <> inl CutoffValueError.
Proof.
  assert (Hbad : ~ (normalized_low_cutoff reversed_config 250
                    < normalized_high_cutoff reversed_config 250)%Q)
    by (intros H; vm_compute in H; discriminate).
  split; [|split].
  - exact (proj2 (proj2 (proj2 (proj1 (cutoff_error_raised_in_bandpass_stage
                                         identity_backend reversed_config
                                         (RawArray (ones 16)) "c" "f"
                                         250 60 10) Hbad)))
             (ones 16) (ones 16) eq_refl eq_refl).
  - exact (proj1 (proj2 (proj1 (cutoff_error_raised_in_bandpass_stage
                                  failing_notch_backend reversed_config
                                  (RawArray (ones 16)) "c" "f" 250 60 10)
                           Hbad))).
  - apply (proj2 (cutoff_error_raised_in_bandpass_stage
                    identity_backend default_config
                    (RawArray (ones 16)) "c" "f" 250 60 10)).
    reflexivity.
Defined.

(** C4 as stated fails. With the cutoffs 32 Hz and 0.05 Hz in the wrong
    order the configuration error comes after the notch filter has been run
    on the signal, not before any filtering; and it is not raised at all on
    an input of another type, where the call ends with the type error of
    line 40, nor when the notch stage itself raises. *)
Lemma fail_fast_before_any_filtering_counterexample :
  ~ (normalized_low_cutoff reversed_config 250
     < normalized_high_cutoff reversed_config 250)%Q
  /\ ~ no_filtering_attempted
         (fst (apply_filters_and_save identity_backend reversed_config
                 (RawArray (ones 16)) "c" "f" 250 60 10))
  /\ snd (apply_filters_and_save identity_backend reversed_config
            RawOther "c" "f" 250 60 10)
     = inl TypeError
  /\ snd (apply_filters_and_save failing_notch_backend reversed_config
            (RawArray (ones 16)) "c" "f" 250 60 10)
     = inl (LibraryError 1).
Proof.
  split; [|split; [|split]].
  - intros H. vm_compute in H. discriminate.
  - intros [Hnotch _]. apply Hnotch. simpl. auto.
  - reflexivity.
  - reflexivity.
Qed.

Import LacevAppGUI.

(** * Properties of the aggregation *)

Lemma column_position_notin c cols :
  ~ In c cols -> column_position c cols = None.
Proof.
  induction cols as [|c' cols IH]; intros Hn; simpl; [reflexivity|].
  destruct (String.eqb_spec c c') as [->|Hne].
  - exfalso. apply Hn. now left.
  - rewrite IH; [reflexivity|]. intros Hin. apply Hn. now right.
Qed.

Lemma column_position_in c cols :
  In c cols -> exists k, column_position c cols = Some k.
Proof.
  induction cols as [|c' cols IH]; intros Hin; [contradiction|]. simpl.
  destruct (String.eqb_spec c c') as [->|Hne]; [now exists O|].
  destruct Hin as [->|Hin]; [congruence|].
  destruct (IH Hin) as [k Hk]. rewrite Hk. now exists (S k).
Qed.

Lemma column_position_middle c pre rest :
  ~ In c pre -> column_position c (pre ++ c :: rest) = Some (List.length pre).
Proof.
  induction pre as [|c' pre IH]; intros Hn; simpl.
  - now rewrite String.eqb_refl.
  - destruct (String.eqb_spec c c') as [->|Hne].
    + exfalso. apply Hn. now left.
    + rewrite IH; [reflexivity|]. intros Hin. apply Hn. now right.
Qed.

Lemma reindex_row_same_aux :
  forall (cols pre : list string) (row_pre row : list value),
    NoDup (pre ++ cols) ->
    List.length pre = List.length row_pre ->
    List.length row = List.length cols ->
    map (fun c => match column_position c (pre ++ cols) with
                  | Some k => nth k (row_pre ++ row) PyNaN
                  | None => PyNaN
                  end) cols
    = row.
Proof.
  induction cols as [|c cols IH]; intros pre row_pre row Hnd Hpre Hrow.
  - destruct row; [reflexivity|discriminate].
  - destruct row as [|v row]; [discriminate|]. simpl.
    assert (Hc : ~ In c pre).
    { apply NoDup_remove_2 in Hnd. intros Hin. apply Hnd.
      apply in_or_app. now left. }
    rewrite (column_position_middle c pre cols Hc), Hpre.
    rewrite nth_middle. f_equal.
    specialize (IH (pre ++ [c]) (row_pre ++ [v]) row).
    rewrite <- !app_assoc in IH. simpl in IH. apply IH.
    + exact Hnd.
    + rewrite !length_app. simpl. lia.
    + simpl in Hrow. lia.
Qed.

(** Laying a row out under its own labels changes nothing. *)
Lemma reindex_row_same (cols : list string) (row : list value) :
  NoDup cols -> List.length row = List.length cols ->
  reindex_row cols cols row = row.
Proof.
  intros Hnd Hlen. exact (reindex_row_same_aux cols [] [] row Hnd eq_refl Hlen).
Qed.

Lemma column_names_false_NoDup : NoDup (column_names false).
Proof.
  unfold column_names, feature_metric_names. simpl.
  repeat (constructor; [simpl; intuition discriminate|]). constructor.
Qed.

Lemma read_feature_files_from w paths :
  forall (dfs : list DataFrame) (log : list log_entry),
    fold_left
      (fun (acc : list DataFrame * list log_entry) feature_file_path =>
         let (list_of_dfs_for_class, log) := acc in
         match read_csv w feature_file_path with
         | ReadFrame df_temp => (list_of_dfs_for_class ++ [df_temp], log)
         | ReadEmptyDataError =>
             (list_of_dfs_for_class,
              log ++ [(MsgEmptyFeatureFile feature_file_path, Some LvWarning)])
         | ReadOtherError =>
             (list_of_dfs_for_class,
              log ++ [(MsgReadError feature_file_path, Some LvError)])
         end)
      paths (dfs, log)
    = (dfs ++ Statements.tables_read_back (read_csv w) paths,
       log ++ read_log w paths).
Proof.
  induction paths as [|path paths IH]; intros dfs log; simpl.
  - now rewrite !app_nil_r.
  - destruct (read_csv w path); rewrite IH; simpl;
      now rewrite <- ?app_assoc.
Qed.

Lemma read_feature_files_spec w paths :
  read_feature_files w paths
  = (Statements.tables_read_back (read_csv w) paths, read_log w paths).
Proof. unfold read_feature_files. now rewrite read_feature_files_from. Qed.

Lemma read_log_levels w paths :
  Forall (fun entry : log_entry =>
            (snd entry = Some LvWarning \/ snd entry = Some LvError)
            /\ (snd entry = Some LvError ->
                exists path, fst entry = MsgReadError path))
         (read_log w paths).
Proof.
  unfold read_log. induction paths as [|path paths IH]; simpl;
    [constructor|].
  apply Forall_app. split; [|exact IH].
  destruct (read_csv w path) as [df| |].
  - constructor.
  - constructor; [|constructor]. simpl. split; [now left|discriminate].
  - constructor; [|constructor]. simpl.
    split; [now right|]. intros _. now exists path.
Qed.

Lemma column_position_nth c cols k :
  column_position c cols = Some k -> nth_error cols k = Some c.
Proof.
  revert k. induction cols as [|c' cols IH]; intros k; simpl; [discriminate|].
  destruct (String.eqb_spec c c') as [->|Hne].
  - now intros [= <-].
  - destruct (column_position c cols) as [k'|]; simpl; [|discriminate].
    intros [= <-]. now apply IH.
Qed.

Lemma union_columns_keep frames :
  forall seen c,
    In c seen ->
    In c (fold_left (fun seen df => seen ++ new_columns seen (columns df))
            frames seen).
Proof.
  induction frames as [|df frames IH]; intros seen c Hin; [exact Hin|].
  simpl. apply IH, in_or_app. now left.
Qed.

Lemma union_columns_cover frames :
  forall seen df c,
    In df frames -> In c (columns df) ->
    In c (fold_left (fun seen df => seen ++ new_columns seen (columns df))
            frames seen).
Proof.
  induction frames as [|df' frames IH]; intros seen df c Hdf Hc; [destruct Hdf|].
  simpl. destruct Hdf as [->|Hdf]; [|now apply IH with (df := df)].
  apply union_columns_keep.
  destruct (in_dec string_dec c seen) as [Hs|Hs];
    [apply in_or_app; now left|].
  apply in_or_app. right. unfold new_columns. apply filter_In.
  split; [exact Hc|]. now rewrite (column_position_notin c seen Hs).
Qed.

(** Laying a row under the labels [mid] and then under [to] is laying it
    under [to], when [mid] has every label of the row. *)
Lemma reindex_row_compose (from mid to : list string) (row : list value) :
  (forall c, In c from -> In c mid) ->
  reindex_row mid to (reindex_row from mid row) = reindex_row from to row.
Proof.
  intros Hincl. unfold reindex_row. apply map_ext. intros c.
  destruct (column_position c mid) as [k|] eqn:Hmid.
  - pose proof (column_position_nth c mid k Hmid) as Hnth.
    assert (Hk : (k < List.length mid)%nat)
      by (apply nth_error_Some; congruence).
    rewrite nth_indep
      with (d' := match column_position EmptyString from with
                  | Some k0 => nth k0 row PyNaN
                  | None => PyNaN
                  end)
      by (now rewrite length_map).
    rewrite (map_nth (fun c0 => match column_position c0 from with
                                | Some k0 => nth k0 row PyNaN
                                | None => PyNaN
                                end) mid EmptyString k).
    now rewrite (nth_error_nth mid k EmptyString Hnth).
  - destruct (column_position c from) as [k|] eqn:Hfrom; [|reflexivity].
    exfalso. apply column_position_nth, nth_error_In, Hincl in Hfrom.
    apply column_position_in in Hfrom. destruct Hfrom as [k' Hk'].
    congruence.
Qed.

(** Selecting columns from a concatenation lays every row of every frame
    under the selected labels, frame after frame. *)
Lemma select_columns_concat frames names :
  select_columns (concat frames) names
  = mk_frame names
      (flat_map (fun df => map (reindex_row (columns df) names) (rows df))
                frames).
Proof.
  unfold select_columns, concat. cbn [columns rows]. f_equal.
  set (cols := fold_left
                 (fun seen df => seen ++ new_columns seen (columns df))
                 frames []).
  assert (Hcover : forall df c, In df frames -> In c (columns df) -> In c cols)
    by (intros df c; apply union_columns_cover).
  clearbody cols. induction frames as [|df frames IH]; [reflexivity|].
  cbn [flat_map]. rewrite map_app, map_map. f_equal.
  - apply map_ext. intros row. apply reindex_row_compose.
    intros c. apply Hcover. now left.
  - apply IH. intros df' c Hdf'. apply Hcover. now right.
Qed.

Lemma reindexed_row_count names tables :
  List.length
    (flat_map (fun df => map (reindex_row (columns df) names) (rows df))
              tables)
  = list_sum (map Statements.row_count tables).
Proof.
  induction tables as [|t ts IH]; [reflexivity|]. cbn [flat_map map list_sum].
  rewrite length_app, length_map, IH. reflexivity.
Qed.

(** C8, amended. Whatever columns the per-file tables read back for a class
    carry, the per-class table written for the class has the 25 names of the
    schema without the stage flag as its columns, and its rows are the rows
    of the per-file tables, each laid under these names by label, file after
    file in discovery order and in their order within each file, so that its
    row count is the sum of theirs. The rows of a per-file table that
    carries this 25-name schema, one cell per name in every row, are written
    as they are, so that its column order is kept; any other column order is
    not. A class with no readable per-file table leaves the disk as it was,
    and the report that closes the log is a warning; the only error-level
    entries are those of single files that could not be read. *)
Theorem per_class_aggregation :
  forall (w : world) (self : gui) (class_subdir_name : string) (class_id : Z)
         (d : disk),
    initialized self = true ->
    let dir := path_join (features_path self) class_subdir_name in
    let tables :=
      Statements.tables_read_back (read_csv w) (glob_csv w dir) in
    let run :=
      aggregate_and_save_class_features w self class_subdir_name class_id d in
    (forall base : string,
        features_output_path self = Some base ->
        let out := path_join base ("df" ++ str_of_Z class_id ++ ".csv") in
        let written :=
          flat_map (fun t => map (reindex_row (columns t) (column_names false))
                                 (rows t)) tables in
        tables <> [] ->
        writable w out = true ->
        snd run = (out, mk_frame (column_names false) written) :: d
        /\ List.length written = list_sum (map Statements.row_count tables)
        /\ (forall t, In t tables ->
              well_formed (column_names false) t ->
              map (reindex_row (columns t) (column_names false)) (rows t)
              = rows t))
    /\ (tables = [] ->
        snd run = d
        /\ (exists earlier msg, fst run = earlier ++ [(msg, Some LvWarning)])
        /\ Forall (fun entry : log_entry =>
                     snd entry = Some LvError ->
                     exists path, fst entry = MsgReadError path)
                  (fst run)).
Proof.
  intros w self cls id d Hinit dir tables run.
  assert (Hrun : run = aggregate_and_save_class_features w self cls id d)
    by reflexivity.
  unfold aggregate_and_save_class_features in Hrun.
  rewrite Hinit in Hrun. cbn [negb] in Hrun. fold dir in Hrun.
  split.
  - intros base Hbase out written Hne Hw.
    split; [|split; [apply reindexed_row_count|]].
    + destruct (glob_csv w dir) as [|p ps] eqn:Hglob; [now subst tables|].
      rewrite read_feature_files_spec in Hrun. fold tables in Hrun.
      subst written. destruct tables as [|t ts] eqn:Ht; [congruence|].
      unfold save_features_to_csv in Hrun. rewrite Hbase in Hrun.
      cbn [build_features_df] in Hrun.
      rewrite select_columns_concat in Hrun.
      unfold csv_output_path in Hrun. cbn [Z.eqb] in Hrun.
      fold out in Hrun. rewrite Hw in Hrun. rewrite Hrun. reflexivity.
    + intros t _ [Hcols Hrows]. rewrite Hcols.
      rewrite <- (map_id (rows t)) at 2. apply map_ext_in. intros row Hin.
      rewrite Forall_forall in Hrows.
      apply reindex_row_same; [apply column_names_false_NoDup|].
      now apply Hrows.
  - intros Hnone.
    destruct (glob_csv w dir) as [|p ps] eqn:Hglob.
    + rewrite Hrun. simpl. split; [reflexivity|]. split.
      * now exists [(MsgAggregating cls id, None)],
                   (MsgNoCsvFound dir id).
      * repeat constructor; simpl; discriminate.
    + rewrite read_feature_files_spec in Hrun. fold tables in Hrun.
      rewrite Hnone in Hrun. rewrite Hrun. cbn [fst snd].
      split; [reflexivity|]. split.
      * exists ([(MsgAggregating cls id, None)] ++ read_log w (p :: ps)),
               (MsgNoValidFrames id). now rewrite <- app_assoc.
      * apply Forall_app. split; [repeat constructor; simpl; discriminate|].
        apply Forall_app. split.
        -- eapply Forall_impl; [|apply read_log_levels].
           intros entry [_ H]. exact H.
        -- repeat constructor; simpl; discriminate.
Qed.

Lemma per_class_aggregation_witness :
  snd (aggregate_and_save_class_features (class_world plain_table) ready_gui
         "c" 0 [])
  = [("features/df0.csv"%string,
      mk_frame (column_names false)
        (rows (plain_table 1) ++ rows (plain_table 2)))]
  /\ List.length
       (rows (snd (hd ("x"%string, mk_frame [] [])
                     (snd (aggregate_and_save_class_features
                             (class_world staged_table) ready_gui
                             "c" 0 [])))))
     = 2%nat
  /\ snd (aggregate_and_save_class_features empty_class_world ready_gui
            "c" 0 [])
     = [].
Proof.
  split; [|split].
  - refine (proj1 (proj1 (per_class_aggregation (class_world plain_table)
                            ready_gui "c" 0 [] eq_refl)
                     "features"%string eq_refl _ eq_refl)).
    vm_compute. discriminate.
  - rewrite (proj1 (proj1 (per_class_aggregation (class_world staged_table)
                             ready_gui "c" 0 [] eq_refl)
                      "features"%string eq_refl
                      ltac:(vm_compute; discriminate) eq_refl)).
    reflexivity.
  - refine (proj1 (proj2 (per_class_aggregation empty_class_world
                            ready_gui "c" 0 [] eq_refl) _)).
    reflexivity.
Defined.

(** C8 as stated fails: per-file tables that all carry the 26-name schema
    with the stage column are written back as a per-class table under the
    25-name schema, which is not their column order. *)
Lemma aggregation_identical_columns_counterexample :
  Forall (fun t => columns t = column_names true)
    (Statements.tables_read_back (read_csv (class_world staged_table))
       (glob_csv (class_world staged_table) "features/c"))
  /\ map (fun file : string * DataFrame => columns (snd file))
       (snd (aggregate_and_save_class_features (class_world staged_table)
               ready_gui "c" 0 []))
     = [column_names false]
  /\ column_names false <> column_names true.
Proof.
  split; [|split].
  - vm_compute. repeat constructor.
  - reflexivity.
  - discriminate.
Qed.

Import PyText HoraColumn TimeAndDate Notions.

(** * Further properties of the segment loop *)

Lemma events_closed_form est a init :
  1 <= points_per_segment a ->
  map event_candidate (events (extract_features_state est a init))
  = map (fun i => (Z.of_nat i * (points_per_segment a - points_per_segment a / 3),
                   points_per_segment a
                   + Z.of_nat i * (points_per_segment a - points_per_segment a / 3),
                   false))
        (seq 0 (Z.to_nat (len (data_array a) / points_per_segment a))).
Proof.
  intros Hpps. rewrite extract_features_events_refine by exact Hpps.
  apply segments_closed; [exact Hpps|apply len_nonneg].
Qed.

(** Every iteration slices a full window that lies inside the data. *)
Lemma events_full_windows est a init :
  1 <= points_per_segment a ->
  Forall (fun ev =>
            exists (i : nat) (b : bool),
              (i < Z.to_nat (len (data_array a) / points_per_segment a))%nat
              /\ ev = Sliced
                        (Z.of_nat i * (points_per_segment a - points_per_segment a / 3))
                        (Z.of_nat i * (points_per_segment a - points_per_segment a / 3)
                         + points_per_segment a) b
              /\ len (slice (data_array a)
                        (Z.of_nat i * (points_per_segment a - points_per_segment a / 3))
                        (Z.of_nat i * (points_per_segment a - points_per_segment a / 3)
                         + points_per_segment a))
                 = points_per_segment a)
         (events (extract_features_state est a init)).
Proof.
  intros Hpps. pose proof (events_closed_form est a init Hpps) as Hclosed.
  set (pps := points_per_segment a) in *.
  set (total := len (data_array a)) in *.
  apply Forall_forall. intros ev Hin.
  apply (in_map event_candidate) in Hin. rewrite Hclosed in Hin.
  apply in_map_iff in Hin. destruct Hin as [i [Hi Hrange]].
  apply in_seq in Hrange.
  pose proof (overlap_bounds pps Hpps) as Hov.
  pose proof (len_nonneg (data_array a)) as Htot. fold total in Htot.
  pose proof (Z.mul_div_le total pps ltac:(lia)) as Hdiv.
  assert (Hi1 : Z.of_nat i + 1 <= total / pps) by lia.
  assert (Hs : 0 <= Z.of_nat i * (pps - pps / 3)) by nia.
  assert (He : Z.of_nat i * (pps - pps / 3) + pps <= total) by nia.
  destruct ev as [s e|s e b]; simpl in Hi; inversion Hi; subst s e.
  exists i, b. split; [lia|]. split; [f_equal; lia|].
  rewrite slice_length; fold total; lia.
Qed.

(** The rows of a call: the old ones, then one per accepted iteration. *)
Lemma extract_features_accounting est a init :
  exists new,
    feature_results_list (extract_features_state est a init) = init ++ new
    /\ List.length new
       = accepted_count (events (extract_features_state est a init))
    /\ Forall (event_flag_sound a)
         (events (extract_features_state est a init)).
Proof.
  apply (extract_features_state_inv est a
           (fun st => exists new,
              feature_results_list st = init ++ new
              /\ List.length new = accepted_count (events st)
              /\ Forall (event_flag_sound a) (events st))).
  - exists []. simpl. rewrite app_nil_r. repeat split. constructor.
  - intros st s e [new [Hr [Hlen Hev]]].
    destruct (process_segment_cases est a st s e) as [[Hv Hp]|[Hv Hp]];
      rewrite Hp; simpl; rewrite accepted_count_app.
    + eexists. split; [rewrite Hr, <- app_assoc; reflexivity|].
      split; [rewrite length_app; simpl; lia|].
      apply Forall_app. split; [exact Hev|].
      constructor; [simpl; now rewrite Hv|constructor].
    + exists new. split; [exact Hr|]. split; [lia|].
      apply Forall_app. split; [exact Hev|].
      constructor; [simpl; now rewrite Hv|constructor].
  - intros st s e [new [Hr [Hlen Hev]]]. simpl. rewrite accepted_count_app.
    exists new. split; [exact Hr|]. split; [lia|].
    apply Forall_app. split; [exact Hev|]. repeat constructor.
Qed.

Lemma accepted_count_none evs :
  Forall (fun ev => match ev with Sliced _ _ true => False | _ => True end) evs ->
  accepted_count evs = O.
Proof.
  unfold accepted_count. induction 1 as [|ev evs Hev _ IH]; [reflexivity|].
  simpl. destruct ev as [s e|s e [|]]; [exact IH|contradiction|exact IH].
Qed.

Lemma div_nonneg_neg_divisor (x y : Z) : 0 <= x -> y < 0 -> x / y <= 0.
Proof.
  intros Hx Hy. pose proof (Z.div_mod x y ltac:(lia)) as Hdm.
  pose proof (Z.mod_neg_bound x y Hy). nia.
Qed.

(** X1. When a segment holds at most 100 samples, or more samples than the
    recording has, [extract_features] appends no row: it returns the list it
    was given. *)
Theorem extract_features_short_segments :
  forall (est : estimators) (a : call_args) (init : list (list value)),
    points_per_segment a <= 100
    \/ len (data_array a) < points_per_segment a ->
    extract_features est a init = init.
Proof.
  intros est a init H.
  destruct (Z.le_gt_cases 1 (points_per_segment a)) as [Hpps|Hpps].
  - destruct (extract_features_accounting est a init) as [new [Hr [Hlen Hev]]].
    unfold extract_features. rewrite Hr.
    assert (Hnone : accepted_count (events (extract_features_state est a init)) = O).
    { destruct H as [Hshort|Hfew].
      - apply accepted_count_none.
        pose proof (events_full_windows est a init Hpps) as Hwin.
        rewrite Forall_forall in *. intros ev Hin.
        destruct (Hwin ev Hin) as [i [b [_ [-> Hl]]]].
        specialize (Hev _ Hin). simpl in Hev.
        destruct b; [|exact I].
        symmetry in Hev. apply segment_valid_iff in Hev. lia.
      - unfold extract_features_state.
        replace (points_per_segment a =? 0) with false by lia.
        replace (len (data_array a) >=? points_per_segment a) with false by lia.
        reflexivity. }
    rewrite Hnone in Hlen. destruct new; [apply app_nil_r|discriminate].
  - unfold extract_features, extract_features_state.
    destruct (points_per_segment a =? 0) eqn:E0; [reflexivity|].
    destruct (len (data_array a) >=? points_per_segment a); [|reflexivity].
    assert (Hn : len (data_array a) / points_per_segment a <= 0).
    { apply div_nonneg_neg_divisor; [apply len_nonneg|lia]. }
    unfold range.
    replace (Z.to_nat (len (data_array a) / points_per_segment a + 1 - 1))
      with O by lia.
    reflexivity.
Qed.

Lemma extract_features_short_segments_witness :
  extract_features zero_estimators small_call [] = [].
Proof.
  apply extract_features_short_segments. left. vm_compute. discriminate.
Defined.

Lemma Forall_slice {A : Type} (P : A -> Prop) (l : list A) (s e : Z) :
  Forall P l -> Forall P (slice l s e).
Proof.
  intros H. unfold slice.
  set (n := Z.to_nat (slice_bound (len l) e - slice_bound (len l) s)).
  set (k := Z.to_nat (slice_bound (len l) s)).
  rewrite <- (firstn_skipn k l) in H. apply Forall_app in H. destruct H as [_ H].
  rewrite <- (firstn_skipn n (skipn k l)) in H. apply Forall_app in H.
  now destruct H.
Qed.

Lemma rows_of_windows_short lib a :
  nolds_trajectory_check lib ->
  forall (indices : list nat) (m : Z) (rows : list (list value)),
    Forall (fun i => len (window a i) < 2640) indices ->
    rows_of_windows lib a m rows indices
    = if existsb (fun i => segment_passes lib (window a i)) indices
      then Raised rows else Returned rows.
Proof.
  intros Hnolds. induction indices as [|i rest IH]; intros m rows Hshort;
    [reflexivity|].
  inversion Hshort as [|? ? Hi Hrest]; subst.
  cbn [rows_of_windows existsb].
  destruct (segment_passes lib (window a i)).
  - now rewrite (nolds_raises_below_2640 lib a (window a i) Hnolds Hi).
  - now apply IH.
Qed.

(** X2. By the trajectory check of nolds, a call whose segments have fewer
    than 2640 samples appends no row. When no window passes the test of
    line 66 it returns the list as it was given; otherwise the exception of
    [lyap_r] leaves it at the first window that passes, with the list still
    as it was given. *)
Theorem short_segments_give_no_row :
  forall (lib : library) (a : call_args) (init : list (list value)),
    nolds_trajectory_check lib ->
    1 <= points_per_segment a ->
    points_per_segment a < 2640 ->
    extract_features_calls lib a init
    = if existsb (fun i => segment_passes lib (window a i))
           (seq 0 (Z.to_nat (len (data_array a) / points_per_segment a)))
      then Raised init else Returned init.
Proof.
  intros lib a init Hnolds Hpps Hshort.
  rewrite (extract_features_calls_windows lib a init Hpps).
  apply (rows_of_windows_short lib a Hnolds).
  apply Forall_forall. intros i Hi. apply in_seq in Hi.
  rewrite window_length; [exact Hshort|exact Hpps|].
  pose proof (len_nonneg (data_array a)) as Htot.
  pose proof (Z.div_pos (len (data_array a)) (points_per_segment a)
                Htot ltac:(lia)).
  lia.
Qed.

Lemma short_segments_give_no_row_witness :
  extract_features_calls nolds_library falsy_stage_call [] = Raised []
  /\ extract_features_calls nolds_library
       (call_on (zeros 500) (PyBool false)) [] = Returned [].
Proof.
  pose proof (proj1 nolds_library_checks) as Hnolds.
  split.
  - rewrite (short_segments_give_no_row nolds_library falsy_stage_call []
               Hnolds);
      vm_compute; congruence.
  - rewrite (short_segments_give_no_row nolds_library
               (call_on (zeros 500) (PyBool false)) [] Hnolds);
      vm_compute; congruence.
Defined.

(** X3. When the recording holds at least one segment, the windows sliced by
    the loop cover every sample index below
    covered = pps + (floor(total / pps) - 1) * (pps - pps // 3), none
    reaches beyond it, so the samples from [covered] on are in no window;
    this tail holds at least (floor(total / pps) - 1) * (pps // 3)
    samples. *)
Theorem segments_cover_a_prefix :
  forall (est : estimators) (a : call_args) (init : list (list value)),
    1 <= points_per_segment a ->
    points_per_segment a <= len (data_array a) ->
    let pps := points_per_segment a in
    let total := len (data_array a) in
    let overlap := pps / 3 in
    let covered := pps + (total / pps - 1) * (pps - overlap) in
    let evs := events (extract_features_state est a init) in
    (forall j, 0 <= j < covered ->
       exists s e b, In (Sliced s e b) evs /\ s <= j < e)
    /\ (forall ev, In ev evs ->
          exists s e b, ev = Sliced s e b /\ 0 <= s /\ e <= covered)
    /\ covered <= total
    /\ (total / pps - 1) * overlap <= total - covered.
Proof.
  intros est a init Hpps Hfit pps total overlap covered evs.
  pose proof (events_closed_form est a init Hpps) as Hclosed.
  fold pps total overlap evs in Hclosed.
  pose proof (overlap_bounds pps Hpps) as Hov. fold overlap in Hov.
  pose proof (Z.mul_div_le total pps ltac:(lia)) as Hdiv.
  assert (Hn : 1 <= total / pps).
  { apply Z.div_le_lower_bound; lia. }
  assert (Hstride : 1 <= pps - overlap).
  { subst overlap.
    pose proof (Z.mul_div_le pps 3 ltac:(lia)).
    assert (pps / 3 < pps) by (apply Z.div_lt_upper_bound; lia). lia. }
  split; [|split; [|split]].
  - intros j Hj.
    set (i := Z.min (j / (pps - overlap)) (total / pps - 1)).
    assert (Hi0 : 0 <= i).
    { subst i. apply Z.min_glb; [apply Z.div_pos; lia|lia]. }
    assert (Hilt : (Z.to_nat i < Z.to_nat (total / pps))%nat) by (subst i; lia).
    assert (Hin : In (Z.of_nat (Z.to_nat i) * (pps - overlap),
                      pps + Z.of_nat (Z.to_nat i) * (pps - overlap), false)
                     (map event_candidate evs)).
    { rewrite Hclosed.
      apply (in_map (fun k => (Z.of_nat k * (pps - overlap),
                               pps + Z.of_nat k * (pps - overlap), false))).
      apply in_seq. lia. }
    apply in_map_iff in Hin. destruct Hin as [ev [Hev Hin]].
    rewrite Z2Nat.id in Hev by exact Hi0.
    destruct ev as [s e|s e b]; simpl in Hev; inversion Hev; subst s e.
    exists (i * (pps - overlap)), (pps + i * (pps - overlap)), b.
    split; [exact Hin|].
    pose proof (Z.mul_div_le j (pps - overlap) ltac:(lia)) as Hjd.
    pose proof (Z.mod_pos_bound j (pps - overlap) ltac:(lia)) as Hjm.
    pose proof (Z.div_mod j (pps - overlap) ltac:(lia)) as Hje.
    subst i covered.
    destruct (Z.min_spec (j / (pps - overlap)) (total / pps - 1))
      as [[Hlt ->]|[Hge ->]]; nia.
  - intros ev Hin.
    apply (in_map event_candidate) in Hin. rewrite Hclosed in Hin.
    apply in_map_iff in Hin. destruct Hin as [i [Hi Hrange]].
    apply in_seq in Hrange.
    destruct ev as [s e|s e b]; simpl in Hi; inversion Hi; subst s e.
    exists (Z.of_nat i * (pps - overlap)),
           (pps + Z.of_nat i * (pps - overlap)), b.
    split; [reflexivity|]. subst covered. split; nia.
  - subst covered. nia.
  - subst covered. nia.
Qed.

Lemma segments_cover_a_prefix_witness :
  (forall j, 0 <= j < 18000 ->
     exists s e b,
       In (Sliced s e b)
          (events (extract_features_state zero_estimators spec_example_call []))
       /\ s <= j < e)
  /\ 3600 <= 25000 - 18000.
Proof.
  pose proof (segments_cover_a_prefix zero_estimators spec_example_call []) as H.
  assert (H1 : 1 <= points_per_segment spec_example_call)
    by (vm_compute; discriminate).
  assert (H2 : points_per_segment spec_example_call
               <= len (data_array spec_example_call))
    by (vm_compute; discriminate).
  destruct (H H1 H2) as [Hcover [_ [_ Htail]]].
  split; [exact Hcover|exact Htail].
Defined.

(** * Further properties of the minute label *)

Lemma adjust_cases v :
  _adjust_minute_representation v = 100 /\ 60 < v < 100
  \/ _adjust_minute_representation v = 200 /\ 160 < v < 200
  \/ _adjust_minute_representation v = 2200 /\ 2160 < v < 2200
  \/ _adjust_minute_representation v = 0 /\ 2359 < v
  \/ _adjust_minute_representation v = v /\ v <= 2359
     /\ ~ 60 < v < 100 /\ ~ 160 < v < 200 /\ ~ 2160 < v < 2200.
Proof.
  unfold _adjust_minute_representation.
  destruct ((v >? 60) && (v <? 100)) eqn:E1; [left; lia|].
  destruct ((v >? 160) && (v <? 200)) eqn:E2; [right; left; lia|].
  destruct ((v >? 2160) && (v <? 2200)) eqn:E3; [right; right; left; lia|].
  destruct (v >? 2359) eqn:E4; [right; right; right; left; lia|].
  right; right; right; right. lia.
Qed.

Lemma adjust_le_2359 v : _adjust_minute_representation v <= 2359.
Proof.
  destruct (adjust_cases v) as [[-> _]|[[-> _]|[[-> _]|[[-> _]|[-> [H _]]]]]];
    lia.
Qed.

Lemma adjust_nonneg v : 0 <= v -> 0 <= _adjust_minute_representation v.
Proof.
  intros H0.
  destruct (adjust_cases v) as [[-> _]|[[-> _]|[[-> _]|[[-> _]|[-> _]]]]];
    lia.
Qed.

(** X4. [_adjust_minute_representation] applied twice gives what it gives
    once; its result never exceeds 2359, is non-negative on a non-negative
    value, and a time HHMM with hour 0 to 23 and minute 0 to 59 is left
    unchanged. *)
Theorem adjust_minute_stable :
  forall v : Z,
    _adjust_minute_representation (_adjust_minute_representation v)
    = _adjust_minute_representation v
    /\ _adjust_minute_representation v <= 2359
    /\ (0 <= v -> 0 <= _adjust_minute_representation v)
    /\ (forall h m, 0 <= h <= 23 -> 0 <= m <= 59 -> v = h * 100 + m ->
        _adjust_minute_representation v = v).
Proof.
  intros v. split; [|split; [|split]].
  - destruct (adjust_cases v) as [[-> _]|[[-> _]|[[-> _]|[[-> _]|[Hv _]]]]];
      try reflexivity. now rewrite !Hv.
  - apply adjust_le_2359.
  - apply adjust_nonneg.
  - intros h m Hh Hm ->.
    destruct (adjust_cases (h * 100 + m))
      as [[_ H]|[[_ H]|[[_ H]|[[_ H]|[H _]]]]]; lia.
Qed.

Lemma adjust_minute_stable_witness :
  _adjust_minute_representation 930 = 930
  /\ 0 <= _adjust_minute_representation 65.
Proof.
  split.
  - apply (proj2 (proj2 (proj2 (adjust_minute_stable 930))) 9 30); lia.
  - apply (proj1 (proj2 (proj2 (adjust_minute_stable 65)))). lia.
Defined.

Lemma int_of_Q_nonneg q : (0 <= q)%Q -> 0 <= int_of_Q q.
Proof.
  destruct q as [n d]. unfold Qle, int_of_Q. simpl. intros H.
  apply Z.quot_pos; lia.
Qed.

Lemma sumZ_nonneg l : Forall (fun t => 0 <= t) l -> 0 <= sumZ l.
Proof. induction 1; simpl; lia. Qed.

Lemma formatted_minute_bounds (t : time_info) (s e m : Z) :
  m <= 2359 ->
  formatted_minute t s e m <= 2359
  /\ (0 <= m ->
      match t with TimeList l => Forall (fun x => 0 <= x) l | _ => True end ->
      0 <= formatted_minute t s e m).
Proof.
  intros Hm. destruct t as [z|l|]; simpl; try (split; [lia|auto]).
  destruct (len l >? e - 1); [|split; [lia|auto]].
  destruct (slice l s e) as [|x xs] eqn:Hs; [split; [lia|auto]|].
  split; [apply adjust_le_2359|].
  intros _ Hall. apply adjust_nonneg. apply int_of_Q_nonneg.
  assert (Hsl : Forall (fun x => 0 <= x) (x :: xs)).
  { rewrite <- Hs. now apply Forall_slice. }
  apply Qle_shift_div_l.
  - rewrite <- (Zlt_Qlt 0). unfold len. simpl List.length. lia.
  - rewrite Qmult_0_l, <- (Zle_Qle 0). now apply sumZ_nonneg.
Qed.

Lemma feature_vector_minute est a s e m seg :
  nth_error (feature_vector est a s e m seg) 2
  = Some (PyInt (formatted_minute (start_time_info a) s e m)).
Proof. reflexivity. Qed.

(** X5. Every row appended by [extract_features] has an integer minute label
    as its third field; the label is at most 2359, and it is non-negative
    when the segment duration is non-negative and the time stamps, when a
    list is given, are non-negative. *)
Theorem minute_labels_in_range :
  forall (est : estimators) (a : call_args) (init : list (list value)),
  exists new,
    extract_features est a init = init ++ new
    /\ Forall (fun fv =>
                 exists m,
                   nth_error fv 2 = Some (PyInt m)
                   /\ m <= 2359
                   /\ (0 <= segment_duration_minutes a ->
                       match start_time_info a with
                       | TimeList l => Forall (fun t => 0 <= t) l
                       | _ => True
                       end ->
                       0 <= m))
         new.
Proof.
  intros est a init. unfold extract_features.
  set (P := fun fv : list value =>
              exists m,
                nth_error fv 2 = Some (PyInt m)
                /\ m <= 2359
                /\ (0 <= segment_duration_minutes a ->
                    match start_time_info a with
                    | TimeList l => Forall (fun t => 0 <= t) l
                    | _ => True
                    end ->
                    0 <= m)).
  assert (H : current_minute_offset (extract_features_state est a init) <= 2359
              /\ (0 <= segment_duration_minutes a ->
                  0 <= current_minute_offset (extract_features_state est a init))
              /\ exists new,
                   feature_results_list (extract_features_state est a init)
                   = init ++ new
                   /\ Forall P new).
  { apply (extract_features_state_inv est a
             (fun st => current_minute_offset st <= 2359
                        /\ (0 <= segment_duration_minutes a ->
                            0 <= current_minute_offset st)
                        /\ exists new,
                             feature_results_list st = init ++ new
                             /\ Forall P new)).
    - simpl. split; [lia|]. split; [lia|].
      exists []. split; [now rewrite app_nil_r|constructor].
    - intros st s e [Hle [Hge [new [Hr Hall]]]].
      destruct (process_segment_cases est a st s e) as [[_ Hp]|[_ Hp]];
        rewrite Hp; simpl.
      + split; [apply adjust_le_2359|].
        split; [intros Hd; apply adjust_nonneg; specialize (Hge Hd); lia|].
        exists (new ++ [feature_vector est a s e (current_minute_offset st)
                          (slice (data_array a) s e)]).
        split; [rewrite Hr; now rewrite app_assoc|].
        apply Forall_app. split; [exact Hall|].
        constructor; [|constructor].
        exists (formatted_minute (start_time_info a) s e
                  (current_minute_offset st)).
        split; [apply feature_vector_minute|].
        destruct (formatted_minute_bounds (start_time_info a) s e
                    (current_minute_offset st) Hle) as [Hu Hl].
        split; [exact Hu|]. intros Hd Ht. apply Hl; auto.
      + split; [exact Hle|]. split; [exact Hge|]. now exists new.
    - intros st s e [Hle [Hge [new [Hr Hall]]]]. simpl.
      split; [exact Hle|]. split; [exact Hge|]. now exists new. }
  destruct H as [_ [_ H]]. exact H.
Qed.

(** X6. When the start time is not a list of time stamps, the minute labels of
    the appended rows are 0, f(0), f(f(0)), ... where f adds the segment
    duration and renormalises: the counter moves only when a row is kept. *)
Theorem minute_counter_labels :
  forall (est : estimators) (a : call_args) (init : list (list value)),
    (forall l, start_time_info a <> TimeList l) ->
    exists new,
      extract_features est a init = init ++ new
      /\ map (fun fv => nth_error fv 2) new
         = map (fun k =>
                  Some (PyInt
                          (Nat.iter k
                             (fun m => _adjust_minute_representation
                                         (m + segment_duration_minutes a))
                             0)))
               (seq 0 (List.length new)).
Proof.
  intros est a init Hsrc. unfold extract_features.
  set (step := fun m => _adjust_minute_representation
                          (m + segment_duration_minutes a)).
  assert (H : exists new,
             feature_results_list (extract_features_state est a init)
             = init ++ new
             /\ map (fun fv => nth_error fv 2) new
                = map (fun k => Some (PyInt (Nat.iter k step 0)))
                      (seq 0 (List.length new))
             /\ current_minute_offset (extract_features_state est a init)
                = Nat.iter (List.length new) step 0).
  { apply (extract_features_state_inv est a
             (fun st => exists new,
                feature_results_list st = init ++ new
                /\ map (fun fv => nth_error fv 2) new
                   = map (fun k => Some (PyInt (Nat.iter k step 0)))
                         (seq 0 (List.length new))
                /\ current_minute_offset st
                   = Nat.iter (List.length new) step 0)).
    - exists []. simpl. now rewrite app_nil_r.
    - intros st s e [new [Hr [Hmap Hmin]]].
      destruct (process_segment_cases est a st s e) as [[_ Hp]|[_ Hp]];
        rewrite Hp; cbn [feature_results_list current_minute_offset].
      + exists (new ++ [feature_vector est a s e (current_minute_offset st)
                          (slice (data_array a) s e)]).
        split; [rewrite Hr; now rewrite app_assoc|].
        rewrite length_app, Nat.add_1_r, seq_S, !map_app, Hmap.
        split.
        * f_equal. cbn [map Nat.add]. rewrite feature_vector_minute.
          do 3 f_equal. rewrite <- Hmin.
          destruct (start_time_info a) as [z|l|] eqn:Ht; try reflexivity.
          exfalso. exact (Hsrc l eq_refl).
        * change (Nat.iter (S (List.length new)) step 0)
            with (step (Nat.iter (List.length new) step 0)).
          now rewrite <- Hmin.
      + now exists new.
    - intros st s e [new H]. now exists new. }
  destruct H as [new [Hr [Hmap _]]]. now exists new.
Qed.

Lemma minute_counter_labels_witness :
  exists new,
    extract_features zero_estimators falsy_stage_call [] = [] ++ new
    /\ map (fun fv => nth_error fv 2) new
       = map (fun k =>
                Some (PyInt
                        (Nat.iter k
                           (fun m => _adjust_minute_representation (m + 3))
                           0)))
             (seq 0 (List.length new)).
Proof.
  apply (minute_counter_labels zero_estimators falsy_stage_call []).
  intros l. discriminate.
Defined.

Lemma minute_labels_in_range_witness :
  exists new,
    extract_features zero_estimators falsy_stage_call [] = [] ++ new
    /\ Forall (fun fv =>
                 exists m, nth_error fv 2 = Some (PyInt m) /\ 0 <= m <= 2359)
              new.
Proof.
  destruct (minute_labels_in_range zero_estimators falsy_stage_call [])
    as [new [Hr Hall]].
  exists new. split; [exact Hr|].
  eapply Forall_impl; [|exact Hall].
  intros fv [m [Hm [Hu Hl]]]. exists m. split; [exact Hm|].
  split; [|exact Hu]. apply Hl; [simpl; lia|exact I].
Defined.

(** X7. The separation passed to lyap_r leaves room in the segment: from three
    samples on it is at least 1 and twice it is below the segment length;
    and it never decreases when the segment grows. *)
Theorem lyap_r_min_tsep_fits :
  forall n n' : Z,
    (3 <= n -> 1 <= lyap_r_min_tsep n /\ 2 * lyap_r_min_tsep n < n)
    /\ (n <= n' -> lyap_r_min_tsep n <= lyap_r_min_tsep n').
Proof.
  intros n n'. unfold lyap_r_min_tsep. split.
  - intros Hn. destruct (n >? 1305 * 2) eqn:E; [split; lia|].
    pose proof (Z.mul_div_le n 2 ltac:(lia)). split; lia.
  - intros Hle.
    pose proof (Z.div_le_mono n n' 2 ltac:(lia) Hle).
    destruct (n >? 1305 * 2) eqn:E; destruct (n' >? 1305 * 2) eqn:E'; try lia.
    assert (n / 2 <= 1305) by (apply Z.div_le_upper_bound; lia). lia.
Qed.

Lemma lyap_r_min_tsep_fits_witness :
  (1 <= lyap_r_min_tsep 101 /\ 2 * lyap_r_min_tsep 101 < 101)
  /\ lyap_r_min_tsep 101 <= lyap_r_min_tsep 10800.
Proof.
  split.
  - apply (proj1 (lyap_r_min_tsep_fits 101 101)). lia.
  - apply (proj2 (lyap_r_min_tsep_fits 101 10800)). lia.
Defined.

Lemma sumZ_repeat t (k : nat) : sumZ (repeat t k) = Z.of_nat k * t.
Proof. induction k as [|k IH]; [reflexivity|]. simpl repeat. simpl sumZ. rewrite IH. lia. Qed.

Lemma int_of_Q_ratio (x y : Z) :
  0 < y -> int_of_Q (inject_Z x / inject_Z y) = Z.quot x y.
Proof.
  intros Hy. destruct y as [|p|p]; try lia.
  unfold int_of_Q, Qdiv, Qmult, Qinv, inject_Z. simpl.
  now rewrite Z.mul_1_r.
Qed.

(** X8. When the list of time stamps reaches the end of the segment and the
    stamps of the segment all equal t, the minute label of the row is the
    renormalised t, whatever the running counter is. *)
Theorem constant_timestamps_label :
  forall (l : list Z) (s e m t : Z),
    e - 1 < len l ->
    slice l s e <> [] ->
    Forall (fun x => x = t) (slice l s e) ->
    formatted_minute (TimeList l) s e m = _adjust_minute_representation t.
Proof.
  intros l s e m t Hlen Hne Hall. unfold formatted_minute.
  replace (len l >? e - 1) with true by lia.
  destruct (slice l s e) as [|x xs] eqn:Hs; [congruence|].
  f_equal. rewrite int_of_Q_ratio by (unfold len; simpl List.length; lia).
  assert (Hrep : x :: xs = repeat t (List.length (x :: xs))).
  { apply Forall_eq_repeat. eapply Forall_impl; [|exact Hall]. auto. }
  rewrite Hrep at 1. rewrite sumZ_repeat. unfold len.
  rewrite Z.mul_comm. apply Z.quot_mul. simpl List.length. lia.
Qed.

Lemma constant_timestamps_label_witness :
  formatted_minute (TimeList (repeat 65 5)) 0 5 0 = 100.
Proof.
  apply (constant_timestamps_label (repeat 65 5) 0 5 0 65).
  - vm_compute. reflexivity.
  - vm_compute. discriminate.
  - vm_compute. repeat constructor.
Defined.

(** * Further properties of the tables *)

Lemma max_width_bound (data : list (list value)) (r : list value) :
  In r data -> (List.length r <= max_width data)%nat.
Proof.
  induction data as [|r0 data IH]; [contradiction|].
  intros [->|Hin]; simpl; [lia|]. specialize (IH Hin). lia.
Qed.

Lemma padded_rows_length (names : list string) (data : list (list value)) :
  (forall r, In r data -> (List.length r <= List.length names)%nat) ->
  Forall (fun row => List.length row = List.length names)
    (map (fun r => r ++ repeat PyNaN (List.length names - List.length r))
         data).
Proof.
  intros Hb. apply Forall_forall. intros row Hin. apply in_map_iff in Hin.
  destruct Hin as [r [<- Hr]]. specialize (Hb r Hr).
  rewrite length_app, repeat_length. lia.
Qed.

(** A table built from a list of rows is rectangular. *)
Lemma frame_of_lists_well_formed data names df :
  frame_of_lists data names = Some df -> well_formed names df.
Proof.
  unfold frame_of_lists. destruct data as [|r0 data'].
  - intros [= <-]. split; [reflexivity|constructor].
  - destruct (Nat.eqb_spec (max_width (r0 :: data')) (List.length names))
      as [Hw|Hw]; [|discriminate].
    intros [= <-]. split; [reflexivity|].
    apply (padded_rows_length names (r0 :: data')).
    intros r Hr. rewrite <- Hw. now apply max_width_bound.
Qed.

(** Rows of the right width are taken as they are. *)
Lemma frame_of_lists_uniform data names :
  Forall (fun r => List.length r = List.length names) data ->
  frame_of_lists data names = Some (mk_frame names data).
Proof.
  intros Hall. unfold frame_of_lists. destruct data as [|r0 data']; [reflexivity|].
  rewrite (max_width_uniform (r0 :: data') (List.length names))
    by (discriminate || exact Hall).
  rewrite Nat.eqb_refl. do 2 f_equal.
  rewrite <- (map_id (r0 :: data')) at 2. apply map_ext_Forall.
  eapply Forall_impl; [|exact Hall]. intros r Hr. simpl.
  rewrite Hr, Nat.sub_diag. apply app_nil_r.
Qed.

Lemma select_columns_well_formed df names :
  well_formed names (select_columns df names).
Proof.
  split; [reflexivity|]. simpl. apply Forall_forall. intros row Hin.
  apply in_map_iff in Hin. destruct Hin as [r [<- _]].
  unfold reindex_row. apply length_map.
Qed.

Lemma build_features_df_well_formed features names df :
  build_features_df features names = Some df -> well_formed names df.
Proof.
  destruct features as [data|frame]; simpl.
  - apply frame_of_lists_well_formed.
  - intros [= <-]. apply select_columns_well_formed.
Qed.

(** X9. Whenever [save_features_to_csv] returns a table, the table carries
    exactly the column names of the stage flag with one cell per column in
    every row, the save mode is 0 or 1, and that table has been written to
    the path of this mode, which was writable; whenever it returns no table,
    the disk is unchanged. *)
Theorem saved_table_is_rectangular :
  forall (writable : string -> bool) (features_output_path : option string)
         (features : features_arg) (output_identifier : string)
         (stage_parameter_flag : bool) (save_mode : Z) (d : disk),
    let r := save_features_to_csv writable features_output_path features
               output_identifier stage_parameter_flag save_mode d in
    (forall df, fst r = ReturnedFrame df ->
       well_formed (column_names stage_parameter_flag) df
       /\ (save_mode = 0 \/ save_mode = 1)
       /\ exists base path,
            features_output_path = Some base
            /\ csv_output_path base output_identifier save_mode = Some path
            /\ writable path = true
            /\ snd r = (path, df) :: d)
    /\ ((forall df, fst r <> ReturnedFrame df) -> snd r = d).
Proof.
  intros writable fop features id flag mode d r. subst r.
  unfold save_features_to_csv.
  destruct fop as [base|]; [|split; [discriminate|reflexivity]].
  destruct (build_features_df features (column_names flag)) as [df0|] eqn:Hb;
    [|split; [discriminate|reflexivity]].
  destruct (csv_output_path base id mode) as [path|] eqn:Hp;
    [|split; [discriminate|reflexivity]].
  destruct (writable path) eqn:Hw; [|split; [discriminate|reflexivity]].
  simpl. split.
  - intros df [= <-]. split; [now apply build_features_df_well_formed in Hb|].
    split.
    + unfold csv_output_path in Hp.
      destruct (mode =? 0) eqn:E0; [left; lia|].
      destruct (mode =? 1) eqn:E1; [right; lia|discriminate].
    + now exists base, path.
  - intros Hno. exfalso. exact (Hno df0 eq_refl).
Qed.

Lemma saved_table_is_rectangular_witness :
  well_formed (column_names true)
    (mk_frame (column_names true)
       [repeat (PyFloat 0) 26; repeat (PyFloat 0) 20 ++ repeat PyNaN 6]).
Proof.
  refine (proj1 (proj1 (saved_table_is_rectangular (fun _ => true)
                          (Some "features"%string)
                          (OfLists [repeat (PyFloat 0) 26;
                                    repeat (PyFloat 0) 20])
                          "0" true 0 []) _ eq_refl)).
Defined.

(** X10. The rows that [extract_features] returns always fit the schema chosen
    by the truth value of their own stage tag: saved with that flag to a
    writable path, they are written and returned as they are. *)
Theorem extracted_rows_always_save :
  forall (est : estimators) (a : call_args) (writable : string -> bool)
         (base output_identifier : string) (save_mode : Z) (d : disk)
         (path : string),
    csv_output_path base output_identifier save_mode = Some path ->
    writable path = true ->
    let table := mk_frame (column_names (truthy (stage_info a)))
                   (extract_features est a []) in
    save_features_to_csv writable (Some base)
      (OfLists (extract_features est a [])) output_identifier
      (truthy (stage_info a)) save_mode d
    = (ReturnedFrame table, (path, table) :: d).
Proof.
  intros est a writable base id mode d path Hp Hw table.
  unfold save_features_to_csv. cbn [build_features_df].
  rewrite frame_of_lists_uniform.
  - rewrite Hp, Hw. reflexivity.
  - destruct (extract_features_rows est a []) as [new [Hr Hall]].
    rewrite Hr. cbn [app]. eapply Forall_impl; [|exact Hall].
    intros fv [s [e [m ->]]]. rewrite feature_vector_length.
    destruct (truthy (stage_info a)); reflexivity.
Qed.

Lemma extracted_rows_always_save_witness :
  fst (save_features_to_csv (fun _ => true) (Some "features"%string)
         (OfLists (extract_features zero_estimators falsy_stage_call []))
         "c/f" false 1 [])
  = ReturnedFrame (mk_frame (column_names false)
                     (extract_features zero_estimators falsy_stage_call [])).
Proof.
  exact (f_equal fst
           (extracted_rows_always_save zero_estimators falsy_stage_call
              (fun _ => true) "features" "c/f" 1 [] "features/c/df_f.csv"
              eq_refl eq_refl)).
Defined.

(** * The path of a per-file table *)

Lemma normalize_separators_free s :
  free_of "\" s = true -> normalize_separators s = s.
Proof.
  induction s as [|c s IH]; [reflexivity|]. simpl.
  intros H. apply andb_true_iff in H. destruct H as [Hc Hs].
  apply negb_true_iff in Hc. rewrite Hc, IH by exact Hs. reflexivity.
Qed.

Lemma normalize_separators_app s t :
  normalize_separators (s ++ t)
  = (normalize_separators s ++ normalize_separators t)%string.
Proof. induction s as [|c s IH]; [reflexivity|]. simpl. now rewrite IH. Qed.

Lemma split_slash_free s : free_of "/" s = true -> split_slash s = [s].
Proof.
  induction s as [|c s IH]; [reflexivity|]. simpl.
  intros H. apply andb_true_iff in H. destruct H as [Hc Hs].
  apply negb_true_iff in Hc. rewrite Hc, IH by exact Hs. reflexivity.
Qed.

Lemma split_slash_app s t :
  free_of "/" s = true ->
  split_slash (s ++ String "/" t) = s :: split_slash t.
Proof.
  induction s as [|c s IH]; [reflexivity|]. simpl.
  intros H. apply andb_true_iff in H. destruct H as [Hc Hs].
  apply negb_true_iff in Hc. rewrite Hc, IH by exact Hs. reflexivity.
Qed.

Lemma split_on_slash_nonempty s : split_slash s <> [].
Proof.
  destruct s as [|c s]; simpl; [discriminate|].
  destruct (Ascii.eqb c "/"); [discriminate|].
  destruct (split_slash s); discriminate.
Qed.

(** X11. In per-file mode an identifier made of a class directory, a slash or a
    backslash, and a file name is saved as df_<file>.csv in the directory of
    the class under the base path; whatever follows a second separator is
    ignored; and an identifier without separator is saved as
    df_features.csv in the directory of that name. *)
Theorem per_file_table_path :
  forall (base class_subdir file_id rest : string) (sep sep' : ascii),
    (sep = "/" \/ sep = "\")%char ->
    (sep' = "/" \/ sep' = "\")%char ->
    free_of "/" class_subdir = true -> free_of "\" class_subdir = true ->
    free_of "/" file_id = true -> free_of "\" file_id = true ->
    let out :=
      Some (path_join (path_join base class_subdir)
              ("df_" ++ file_id ++ ".csv")) in
    csv_output_path base (class_subdir ++ String sep file_id) 1 = out
    /\ csv_output_path base
         (class_subdir ++ String sep (file_id ++ String sep' rest)) 1 = out
    /\ csv_output_path base class_subdir 1
       = Some (path_join (path_join base class_subdir) "df_features.csv").
Proof.
  intros base cls file rest sep sep' Hsep Hsep' Hc1 Hc2 Hf1 Hf2 out.
  subst out. unfold csv_output_path. cbn [Z.eqb Pos.eqb].
  assert (Hs : (if Ascii.eqb sep "\" then "/"%char else sep) = "/"%char)
    by (destruct Hsep as [-> | ->]; reflexivity).
  assert (Hs' : (if Ascii.eqb sep' "\" then "/"%char else sep') = "/"%char)
    by (destruct Hsep' as [-> | ->]; reflexivity).
  split; [|split].
  - rewrite normalize_separators_app. cbn [normalize_separators].
    rewrite !normalize_separators_free by assumption.
    rewrite Hs, split_slash_app, split_slash_free by assumption.
    reflexivity.
  - rewrite normalize_separators_app. cbn [normalize_separators].
    rewrite normalize_separators_app. cbn [normalize_separators].
    rewrite !normalize_separators_free by assumption.
    rewrite Hs, Hs', !split_slash_app by assumption.
    pose proof (split_on_slash_nonempty (normalize_separators rest)) as Hne.
    destruct (split_slash (normalize_separators rest)) as [|r rs];
      [contradiction|].
    cbv zeta.
    assert (Hlen : (1 <? len (cls :: file :: r :: rs)) = true)
      by (apply Z.ltb_lt; unfold len; cbn [List.length]; lia).
    rewrite Hlen. reflexivity.
  - rewrite normalize_separators_free, split_slash_free by assumption.
    reflexivity.
Qed.

Lemma per_file_table_path_witness :
  csv_output_path "features" "c\rec1" 1 = Some "features/c/df_rec1.csv"%string
  /\ csv_output_path "features" "c\rec1/old" 1
     = Some "features/c/df_rec1.csv"%string
  /\ csv_output_path "features" "c" 1
     = Some "features/c/df_features.csv"%string.
Proof.
  exact (per_file_table_path "features" "c" "rec1" "old" "\"%char "/"%char
           (or_intror eq_refl) (or_introl eq_refl)
           eq_refl eq_refl eq_refl eq_refl).
Defined.

(** * Further properties of the aggregation *)

Lemma concat_row_count frames :
  List.length (rows (concat frames))
  = list_sum (map Statements.row_count frames).
Proof.
  unfold concat. cbn [rows].
  generalize (fold_left (fun seen df => seen ++ new_columns seen (columns df))
                frames []).
  intros cols. induction frames as [|df frames IH]; [reflexivity|].
  cbn [flat_map map list_sum]. rewrite length_app, length_map, IH.
  reflexivity.
Qed.

(** What the step does once a directory has been opened, by the frames read. *)
Lemma aggregate_cases w self cls id d :
  initialized self = true ->
  let dir := path_join (features_path self) cls in
  let paths := glob_csv w dir in
  let tables := Statements.tables_read_back (read_csv w) paths in
  let log0 := [(MsgAggregating cls id, None)] in
  aggregate_and_save_class_features w self cls id d
  = match paths, tables with
    | [], _ => (log0 ++ [(MsgNoCsvFound dir id, Some LvWarning)], d)
    | _ :: _, [] =>
        (log0 ++ read_log w paths ++ [(MsgNoValidFrames id, Some LvWarning)], d)
    | _ :: _, _ :: _ =>
        match save_features_to_csv (writable w) (features_output_path self)
                (OfFrame (concat tables)) (str_of_Z id) false 0 d with
        | (RaisedValueError, d') =>
            (log0 ++ read_log w paths ++ [(MsgCritical id, Some LvError)], d')
        | (ReturnedFrame _, d') =>
            (log0 ++ read_log w paths ++ [(MsgSaved id, Some LvInfo)], d')
        | (_, d') =>
            (log0 ++ read_log w paths ++ [(MsgSaveError id, Some LvError)], d')
        end
    end.
Proof.
  intros Hinit dir paths tables log0.
  unfold aggregate_and_save_class_features. rewrite Hinit. cbn [negb].
  fold dir. fold paths. fold log0.
  destruct paths as [|p ps] eqn:Hp; [reflexivity|].
  rewrite read_feature_files_spec. fold tables.
  destruct tables as [|t ts]; reflexivity.
Qed.

(** X12. Whatever the columns of the per-file tables read back, when at least
    one is read and the output is writable, the per-class table is written
    to base/df<class_id>.csv with the 25 standard columns, one cell per
    column in every row, and as many rows as the tables read have together. *)
Theorem per_class_table_schema_and_rows :
  forall (w : world) (self : gui) (class_subdir_name : string) (class_id : Z)
         (d : disk) (base : string),
    initialized self = true ->
    features_output_path self = Some base ->
    let dir := path_join (features_path self) class_subdir_name in
    let tables :=
      Statements.tables_read_back (read_csv w) (glob_csv w dir) in
    let out := path_join base ("df" ++ str_of_Z class_id ++ ".csv") in
    tables <> [] ->
    writable w out = true ->
    exists df,
      snd (aggregate_and_save_class_features w self class_subdir_name
             class_id d)
      = (out, df) :: d
      /\ well_formed (column_names false) df
      /\ Statements.row_count df
         = list_sum (map Statements.row_count tables).
Proof.
  intros w self cls id d base Hinit Hbase dir tables out Hne Hw.
  rewrite (aggregate_cases w self cls id d Hinit). fold dir. fold tables.
  destruct (glob_csv w dir) as [|p ps] eqn:Hglob; [now subst tables|].
  destruct tables as [|t ts] eqn:Ht; [congruence|].
  unfold save_features_to_csv. rewrite Hbase. cbn [build_features_df].
  unfold csv_output_path. cbn [Z.eqb]. fold out. rewrite Hw. cbn [snd].
  eexists. split; [reflexivity|].
  split; [apply select_columns_well_formed|].
  unfold Statements.row_count at 1. unfold select_columns. cbn [rows].
  rewrite length_map. apply concat_row_count.
Qed.

Lemma per_class_table_schema_and_rows_witness :
  exists df,
    snd (aggregate_and_save_class_features (class_world staged_table)
           ready_gui "c" 0 [])
    = [("features/df0.csv"%string, df)]
    /\ well_formed (column_names false) df
    /\ Statements.row_count df = 2%nat.
Proof.
  refine (per_class_table_schema_and_rows (class_world staged_table)
            ready_gui "c" 0 [] "features" eq_refl eq_refl _ eq_refl).
  vm_compute. discriminate.
Defined.

Lemma read_log_length w paths :
  (List.length (Statements.tables_read_back (read_csv w) paths)
   + List.length (read_log w paths) = List.length paths)%nat.
Proof.
  unfold Statements.tables_read_back, read_log.
  induction paths as [|p ps IH]; [reflexivity|].
  cbn [flat_map]. rewrite !length_app.
  destruct (read_csv w p); cbn [List.length]; rewrite <- IH;
    cbn [Nat.add]; rewrite <- ?plus_n_Sm; reflexivity.
Qed.

(** X13. The reading loop accounts for every file once: the tables it keeps
    are those read with success, in order, the tables and the log entries
    together are as many as the files, and every log entry names a listed
    file, as a warning for an empty file and as an error for any other
    failure. *)
Theorem reading_loop_accounts_for_every_file :
  forall (w : world) (paths : list string),
    let r := read_feature_files w paths in
    fst r = Statements.tables_read_back (read_csv w) paths
    /\ (List.length (fst r) + List.length (snd r) = List.length paths)%nat
    /\ Forall (fun entry : log_entry =>
                 exists path,
                   In path paths
                   /\ (entry = (MsgEmptyFeatureFile path, Some LvWarning)
                       /\ read_csv w path = ReadEmptyDataError
                       \/ entry = (MsgReadError path, Some LvError)
                          /\ read_csv w path = ReadOtherError))
              (snd r).
Proof.
  intros w paths r. subst r. rewrite read_feature_files_spec. cbn [fst snd].
  split; [reflexivity|]. split; [apply read_log_length|].
  unfold read_log. apply Forall_forall. intros entry Hin.
  apply in_flat_map in Hin. destruct Hin as [p [Hp Hin]].
  exists p. split; [exact Hp|].
  destruct (read_csv w p) eqn:E; simpl in Hin.
  - contradiction.
  - destruct Hin as [<-|[]]. now left.
  - destruct Hin as [<-|[]]. now right.
Qed.

Lemma save_features_disk_cases writable fop features id flag mode d :
  let r := save_features_to_csv writable fop features id flag mode d in
  (forall df, fst r = ReturnedFrame df -> exists path, snd r = (path, df) :: d)
  /\ ((forall df, fst r <> ReturnedFrame df) -> snd r = d).
Proof.
  intros r. subst r. unfold save_features_to_csv.
  destruct fop as [base|]; [|split; [discriminate|reflexivity]].
  destruct (build_features_df features (column_names flag)) as [df0|];
    [|split; [discriminate|reflexivity]].
  destruct (csv_output_path base id mode) as [path|];
    [|split; [discriminate|reflexivity]].
  destruct (writable path); [|split; [discriminate|reflexivity]].
  simpl. split.
  - intros df [= <-]. now exists path.
  - intros Hno. exfalso. exact (Hno df0 eq_refl).
Qed.

(** X14. The last log entry of an aggregation tells what happened to the disk:
    either it is the information that the class was saved and exactly one
    file was added, or it is a warning or an error and the disk is
    unchanged. *)
Theorem aggregation_log_matches_disk :
  forall (w : world) (self : gui) (class_subdir_name : string) (class_id : Z)
         (d : disk),
    let run := aggregate_and_save_class_features w self class_subdir_name
                 class_id d in
    exists earlier final,
      fst run = earlier ++ [final]
      /\ (final = (MsgSaved class_id, Some LvInfo)
          /\ (exists path df, snd run = (path, df) :: d)
          \/ (snd final = Some LvWarning \/ snd final = Some LvError)
             /\ snd run = d).
Proof.
  intros w self cls id d run. subst run.
  destruct (initialized self) eqn:Hinit.
  - rewrite (aggregate_cases w self cls id d Hinit).
    set (dir := path_join (features_path self) cls).
    set (log0 := [(MsgAggregating cls id, None)]).
    destruct (glob_csv w dir) as [|p ps].
    + exists log0, (MsgNoCsvFound dir id, Some LvWarning).
      split; [reflexivity|]. right. split; [now left|reflexivity].
    + destruct (Statements.tables_read_back (read_csv w) (p :: ps))
        as [|t ts].
      * exists (log0 ++ read_log w (p :: ps)),
               (MsgNoValidFrames id, Some LvWarning).
        split; [now rewrite <- app_assoc|].
        right. split; [now left|reflexivity].
      * pose proof (save_features_disk_cases (writable w)
                      (features_output_path self)
                      (OfFrame (concat (t :: ts))) (str_of_Z id) false 0 d)
          as [Hok Hno].
        destruct (save_features_to_csv (writable w)
                    (features_output_path self)
                    (OfFrame (concat (t :: ts))) (str_of_Z id) false 0 d)
          as [[| df | |] d'] eqn:Hs; cbn [fst snd] in *.
        -- exists (log0 ++ read_log w (p :: ps)),
                  (MsgSaveError id, Some LvError).
           split; [now rewrite <- app_assoc|]. right.
           split; [now right|]. apply Hno. discriminate.
        -- exists (log0 ++ read_log w (p :: ps)), (MsgSaved id, Some LvInfo).
           split; [now rewrite <- app_assoc|]. left. split; [reflexivity|].
           destruct (Hok df eq_refl) as [path Hd]. now exists path, df.
        -- exists (log0 ++ read_log w (p :: ps)),
                  (MsgSaveError id, Some LvError).
           split; [now rewrite <- app_assoc|]. right.
           split; [now right|]. apply Hno. discriminate.
        -- exists (log0 ++ read_log w (p :: ps)),
                  (MsgCritical id, Some LvError).
           split; [now rewrite <- app_assoc|]. right.
           split; [now right|]. apply Hno. discriminate.
  - unfold aggregate_and_save_class_features. rewrite Hinit. cbn [negb].
    exists [], (MsgNotInitialized, Some LvError).
    split; [reflexivity|]. right. split; [now right|reflexivity].
Qed.

(** * Further properties of the filter *)

(** The five ways a call can end. *)
Lemma apply_filters_cases be self raw sub prefix sr nf qf :
  let run := apply_filters_and_save be self raw sub prefix sr nf qf in
  let w0 := (nf / (sr / 2))%Q in
  let low := normalized_low_cutoff self sr in
  let high := normalized_high_cutoff self sr in
  (signal_array raw = None /\ run = ([], inl TypeError))
  \/ (exists x code,
        signal_array raw = Some x
        /\ notch_filtfilt be w0 qf x = LibRaised code
        /\ run = ([NotchStage], inl (LibraryError code)))
  \/ (exists x n,
        signal_array raw = Some x
        /\ notch_filtfilt be w0 qf x = LibReturned n
        /\ Qle_bool high low = true
        /\ run = ([NotchStage], inl CutoffValueError))
  \/ (exists x n code,
        signal_array raw = Some x
        /\ notch_filtfilt be w0 qf x = LibReturned n
        /\ Qle_bool high low = false
        /\ butter_filtfilt be (config_filter_order self) low high n
           = LibRaised code
        /\ run = ([NotchStage; BandpassStage], inl (LibraryError code)))
  \/ (exists x n y,
        signal_array raw = Some x
        /\ notch_filtfilt be w0 qf x = LibReturned n
        /\ Qle_bool high low = false
        /\ butter_filtfilt be (config_filter_order self) low high n
           = LibReturned y
        /\ (savetxt_ok be (filtered_txt_path self sub prefix) = true
            /\ run = ([NotchStage; BandpassStage;
                       SavedTxt (filtered_txt_path self sub prefix)],
                      inr (Some (x, y, raw)))
            \/ savetxt_ok be (filtered_txt_path self sub prefix) = false
               /\ run = ([NotchStage; BandpassStage], inr None))).
Proof.
  intros run w0 low high. subst run.
  unfold apply_filters_and_save, _apply_notch_filter.
  destruct (signal_array raw) as [x|]; [|left; split; reflexivity].
  right. simpl. fold w0.
  destruct (notch_filtfilt be w0 qf x) as [code|n] eqn:Hn; simpl.
  - left. exists x, code. split; [reflexivity|]. split; [exact Hn|reflexivity].
  - right.
    destruct (bandpass_stage_cases be self n sr) as [[Hc Hb]|[Hc _]];
      fold low high in Hc.
    + left. exists x, n. split; [reflexivity|]. split; [exact Hn|].
      split; [exact Hc|]. rewrite Hb. reflexivity.
    + right. unfold _apply_butterworth_bandpass_filter.
      fold (normalized_low_cutoff self sr).
      fold (normalized_high_cutoff self sr). fold low high. rewrite Hc.
      destruct (butter_filtfilt be (config_filter_order self) low high n)
        as [code|y] eqn:Hb; simpl; rewrite ?Hb; simpl.
      * left. exists x, n, code. split; [reflexivity|]. split; [exact Hn|].
        split; [reflexivity|]. split; [exact Hb|reflexivity].
      * right. exists x, n, y. split; [reflexivity|]. split; [exact Hn|].
        split; [reflexivity|]. split; [exact Hb|].
        unfold _save_signal_to_txt.
        replace ((filtered_data_output_path self ++ "/" ++ sub) ++ "/"
                 ++ prefix ++ ".txt")%string
          with (filtered_txt_path self sub prefix)
          by reflexivity.
        destruct (savetxt_ok be (filtered_txt_path self sub prefix));
          [left|right]; (split; [reflexivity|]); reflexivity.
Qed.

(** X15. A call of [apply_filters_and_save] writes at most one file: when it
    writes, the file is prefix.txt in the directory of the subdir name under
    the output path, written last, after the notch and the bandpass stage, and the call returns the input array,
    the bandpass of the notch of it, and the raw signal; a call that
    returns these has written the file; a call that returns [None] has run
    both stages and failed to write. *)
Theorem filtered_signal_protocol :
  forall (be : backend) (self : config) (raw_signal_data : raw_signal)
         (output_subdir_name output_file_name_prefix : string)
         (sample_rate notch_frequency quality_factor : Q),
    let run := apply_filters_and_save be self raw_signal_data
                 output_subdir_name output_file_name_prefix sample_rate
                 notch_frequency quality_factor in
    let path := filtered_txt_path self output_subdir_name
                  output_file_name_prefix in
    (forall p, In (SavedTxt p) (fst run) ->
       p = path
       /\ fst run = [NotchStage; BandpassStage; SavedTxt path]
       /\ exists x n y,
            signal_array raw_signal_data = Some x
            /\ notch_filtfilt be (notch_frequency / (sample_rate / 2))%Q
                 quality_factor x = LibReturned n
            /\ butter_filtfilt be (config_filter_order self)
                 (normalized_low_cutoff self sample_rate)
                 (normalized_high_cutoff self sample_rate) n = LibReturned y
            /\ snd run = inr (Some (x, y, raw_signal_data)))
    /\ (forall res, snd run = inr (Some res) -> In (SavedTxt path) (fst run))
    /\ (snd run = inr None ->
        fst run = [NotchStage; BandpassStage]
        /\ savetxt_ok be path = false).
Proof.
  intros be self raw sub prefix sr nf qf run path.
  destruct (apply_filters_cases be self raw sub prefix sr nf qf)
    as [[_ H]|[[x [c [_ [_ H]]]]|[[x [n [_ [_ [_ H]]]]]
        |[[x [n [c [_ [_ [_ [_ H]]]]]]]
         |[x [n [y [Hx [Hn [_ [Hb [[Hs H]|[Hs H]]]]]]]]]]]]];
    fold run in H; fold path in H; rewrite H; cbn [fst snd].
  - split; [intros p []|]. split; intros; discriminate.
  - split; [intros p [Hp|[]]; discriminate|]. split; intros; discriminate.
  - split; [intros p [Hp|[]]; discriminate|]. split; intros; discriminate.
  - split; [intros p [Hp|[Hp|[]]]; discriminate|]. split; intros; discriminate.
  - split.
    + intros p [Hp|[Hp|[Hp|[]]]]; try discriminate.
      injection Hp as <-. split; [reflexivity|]. split; [reflexivity|].
      now exists x, n, y.
    + split; [intros res _; simpl; auto|intros; discriminate].
  - split; [intros p [Hp|[Hp|[]]]; discriminate|].
    split; [intros; discriminate|]. intros _. now split.
Qed.

Lemma filtered_signal_protocol_witness :
  fst (apply_filters_and_save identity_backend default_config
         (RawArray (ones 16)) "c" "f" 250 60 10)
  = [NotchStage; BandpassStage; SavedTxt "filtered/c/f.txt"].
Proof.
  refine (proj1 (proj2 (proj1 (filtered_signal_protocol identity_backend
                                 default_config (RawArray (ones 16))
                                 "c" "f" 250 60 10)
                          "filtered/c/f.txt"%string _))).
  simpl. auto.
Defined.

Lemma Qdiv_le_pos (x y z : Q) :
  (0 < z)%Q -> (x / z <= y / z <-> x <= y)%Q.
Proof.
  intros Hz. unfold Qdiv. apply Qmult_le_r. now apply Qinv_lt_0_compat.
Qed.

Lemma Qdiv_le_neg (x y z : Q) :
  (z < 0)%Q -> (x / z <= y / z <-> y <= x)%Q.
Proof.
  intros Hz.
  assert (Hpos : (0 < - z)%Q).
  { apply (Qplus_lt_l _ _ z). ring_simplify. exact Hz. }
  assert (Hnz : ~ (z == 0)%Q) by (intros E; rewrite E in Hz; discriminate).
  rewrite <- (Qdiv_le_pos y x (- z) Hpos).
  assert (Hx : (x / - z == - (x / z))%Q) by (field; exact Hnz).
  assert (Hy : (y / - z == - (y / z))%Q) by (field; exact Hnz).
  rewrite Hx, Hy. split; intros H.
  - now apply Qopp_le_compat.
  - apply Qopp_le_compat in H. now rewrite !Qopp_involutive in H.
Qed.

(** X16. For a positive sampling frequency the bandpass stage raises its
    cutoff error exactly when the high cutoff is at most the low cutoff,
    whatever the frequency is; for a negative sampling frequency exactly
    when the low cutoff is at most the high cutoff. *)
Theorem cutoff_check_follows_sign_of_rate :
  forall (be : backend) (self : config) (input_signal : list Q)
         (sampling_frequency : Q),
    let raises :=
      _apply_butterworth_bandpass_filter be self input_signal
        sampling_frequency = ([], inl CutoffValueError) in
    ((0 < sampling_frequency)%Q ->
     (raises <-> (config_highcut_freq self <= config_lowcut_freq self)%Q))
    /\ ((sampling_frequency < 0)%Q ->
        (raises <-> (config_lowcut_freq self <= config_highcut_freq self)%Q)).
Proof.
  intros be self x fs raises.
  assert (Hiff : raises
                 <-> (normalized_high_cutoff self fs
                      <= normalized_low_cutoff self fs)%Q).
  { subst raises.
    destruct (bandpass_stage_cases be self x fs)
      as [[Hc Hb]|[Hc [r [Hb Hr]]]]; rewrite Hb.
    - apply Qle_bool_iff in Hc. tauto.
    - split; [discriminate|]. intros Hle.
      apply Qle_bool_iff in Hle. congruence. }
  unfold normalized_high_cutoff, normalized_low_cutoff in Hiff.
  split; intros Hfs; rewrite Hiff.
  - apply Qdiv_le_pos.
    rewrite <- (Qmult_0_r (1 # 2)). apply Qmult_lt_l; [reflexivity|exact Hfs].
  - apply Qdiv_le_neg.
    rewrite <- (Qmult_0_r (1 # 2)). apply Qmult_lt_l; [reflexivity|exact Hfs].
Qed.

Lemma cutoff_check_follows_sign_of_rate_witness :
  _apply_butterworth_bandpass_filter identity_backend reversed_config
    (ones 16) 60
  = ([], inl CutoffValueError)
  /\ _apply_butterworth_bandpass_filter identity_backend default_config
       (ones 16) (-60)
     = ([], inl CutoffValueError).
Proof.
  split.
  - apply (proj1 (cutoff_check_follows_sign_of_rate identity_backend
                    reversed_config (ones 16) 60)); [reflexivity|].
    discriminate.
  - apply (proj2 (cutoff_check_follows_sign_of_rate identity_backend
                    default_config (ones 16) (-60))); [reflexivity|].
    discriminate.
Defined.

(** * Properties of the text primitives *)

Lemma split_on_nonempty sep s : split_on sep s <> [].
Proof.
  destruct s as [|c s]; simpl; [discriminate|].
  destruct (Ascii.eqb c sep); [discriminate|].
  destruct (split_on sep s); discriminate.
Qed.

Lemma join_cons sep p q rest :
  join sep (p :: q :: rest) = (p ++ sep ++ join sep (q :: rest))%string.
Proof. reflexivity. Qed.

Lemma join_split_on (c r : ascii) (s : string) :
  join (String r EmptyString) (split_on c s) = replace_char c r s.
Proof.
  induction s as [|c' s IH]; [reflexivity|].
  cbn [split_on replace_char]. destruct (Ascii.eqb c' c).
  - pose proof (split_on_nonempty c s) as Hne.
    destruct (split_on c s) as [|q rest]; [contradiction|].
    rewrite join_cons, IH. reflexivity.
  - pose proof (split_on_nonempty c s) as Hne.
    destruct (split_on c s) as [|q rest]; [contradiction|].
    destruct rest as [|q' rest].
    + simpl in IH |- *. now rewrite IH.
    + rewrite join_cons. rewrite join_cons in IH.
      rewrite <- IH. reflexivity.
Qed.

Lemma free_of_all_chars c s :
  free_of c s = all_chars (fun c' => negb (Ascii.eqb c' c)) s.
Proof. induction s as [|c' s IH]; [reflexivity|]. simpl. now rewrite IH. Qed.

Lemma all_chars_weaken (p q : ascii -> bool) s :
  (forall c, p c = true -> q c = true) ->
  all_chars p s = true -> all_chars q s = true.
Proof.
  intros Hpq. induction s as [|c s IH]; [reflexivity|]. simpl.
  rewrite !andb_true_iff. intros [Hc Hs]. split; [now apply Hpq|now apply IH].
Qed.

Lemma remove_char_free c s : free_of c (remove_char c s) = true.
Proof.
  induction s as [|c' s IH]; [reflexivity|]. simpl.
  destruct (Ascii.eqb c' c) eqn:E; [exact IH|]. simpl. now rewrite E, IH.
Qed.

Lemma remove_char_keeps_free c c' s :
  free_of c s = true -> free_of c (remove_char c' s) = true.
Proof.
  induction s as [|a s IH]; [reflexivity|]. simpl.
  rewrite andb_true_iff. intros [Ha Hs].
  destruct (Ascii.eqb a c'); [now apply IH|]. simpl. now rewrite Ha, IH.
Qed.

Lemma remove_char_id c s : free_of c s = true -> remove_char c s = s.
Proof.
  induction s as [|a s IH]; [reflexivity|]. simpl.
  rewrite andb_true_iff, negb_true_iff. intros [Ha Hs].
  now rewrite Ha, IH.
Qed.

Lemma lstrip_keeps_free c s : free_of c s = true -> free_of c (lstrip s) = true.
Proof.
  induction s as [|a s IH]; [reflexivity|]. intros H. simpl.
  destruct (is_space a); [|exact H].
  apply IH. simpl in H. now apply andb_true_iff in H.
Qed.

Lemma rstrip_keeps_free c s : free_of c s = true -> free_of c (rstrip s) = true.
Proof.
  induction s as [|a s IH]; [reflexivity|]. simpl.
  rewrite andb_true_iff. intros [Ha Hs]. specialize (IH Hs).
  destruct (rstrip s) as [|b t].
  - destruct (is_space a); [reflexivity|]. simpl. now rewrite Ha.
  - change (free_of c (String a (String b t)))
      with (negb (Ascii.eqb a c) && free_of c (String b t)).
    now rewrite Ha, IH.
Qed.

Lemma strip_keeps_free c s : free_of c s = true -> free_of c (strip s) = true.
Proof. intros H. unfold strip. now apply lstrip_keeps_free, rstrip_keeps_free. Qed.

Lemma lstrip_id s :
  all_chars (fun c => negb (is_space c)) s = true -> lstrip s = s.
Proof.
  destruct s as [|a s]; [reflexivity|]. simpl.
  rewrite andb_true_iff, negb_true_iff. intros [Ha _]. now rewrite Ha.
Qed.

Lemma rstrip_id s :
  all_chars (fun c => negb (is_space c)) s = true -> rstrip s = s.
Proof.
  induction s as [|a s IH]; [reflexivity|]. simpl.
  rewrite andb_true_iff, negb_true_iff. intros [Ha Hs].
  rewrite (IH Hs). destruct s; [now rewrite Ha|reflexivity].
Qed.

Lemma strip_id s :
  all_chars (fun c => negb (is_space c)) s = true -> strip s = s.
Proof. intros H. unfold strip. rewrite (rstrip_id s H). now apply lstrip_id. Qed.

Lemma free_of_app c s t :
  free_of c (s ++ t) = free_of c s && free_of c t.
Proof.
  induction s as [|a s IH]; [reflexivity|]. simpl. now rewrite IH, andb_assoc.
Qed.

Lemma join_free c sep parts :
  free_of c sep = true ->
  Forall (fun p => free_of c p = true) parts ->
  free_of c (join sep parts) = true.
Proof.
  intros Hsep. induction parts as [|p rest IH]; [reflexivity|].
  intros Hall. inversion Hall as [|? ? Hp Hrest]; subst.
  destruct rest as [|q rest]; [exact Hp|].
  rewrite join_cons, !free_of_app, Hp, Hsep. now apply IH.
Qed.

Lemma split_on_all_chars (p : ascii -> bool) sep s :
  all_chars p s = true ->
  Forall (fun q => all_chars p q = true) (split_on sep s).
Proof.
  induction s as [|a s IH]; [intros _; repeat constructor|].
  simpl. rewrite andb_true_iff. intros [Ha Hs]. specialize (IH Hs).
  destruct (Ascii.eqb a sep); [constructor; [reflexivity|exact IH]|].
  destruct (split_on sep s) as [|h t].
  - constructor; [|constructor]. simpl. now rewrite Ha.
  - inversion IH as [|? ? Hh Ht]; subst. constructor; [|exact Ht].
    simpl. now rewrite Ha, Hh.
Qed.

Lemma split_on_free sep s :
  Forall (fun q => free_of sep q = true) (split_on sep s).
Proof.
  induction s as [|a s IH]; [repeat constructor|]. simpl.
  destruct (Ascii.eqb a sep) eqn:E; [constructor; [reflexivity|exact IH]|].
  destruct (split_on sep s) as [|h t].
  - constructor; [|constructor]. simpl. now rewrite E.
  - inversion IH as [|? ? Hh Ht]; subst. constructor; [|exact Ht].
    simpl. now rewrite E, Hh.
Qed.

(** * Properties of the date labels *)

Lemma column_length df name cells :
  column df name = Some cells -> List.length cells = List.length (rows df).
Proof.
  unfold column. destruct (column_position name (columns df)); [|discriminate].
  intros [= <-]. apply length_map.
Qed.

Lemma date_part_clean c part :
  (c = " " \/ c = "\" \/ c = "n")%char ->
  free_of c
    (strip (remove_char "n" (remove_char "\" (remove_char " " part)))) = true.
Proof.
  intros Hc. apply strip_keeps_free.
  destruct Hc as [-> | [-> | ->]].
  - apply remove_char_keeps_free, remove_char_keeps_free, remove_char_free.
  - apply remove_char_keeps_free, remove_char_free.
  - apply remove_char_free.
Qed.

Lemma date_label_free float_repr v c :
  (c = "-" \/ c = " " \/ c = "\" \/ c = "n")%char ->
  free_of c (date_label float_repr v) = true.
Proof.
  intros Hc. unfold date_label. apply join_free.
  - destruct Hc as [->|[-> | [-> | ->]]]; reflexivity.
  - apply Forall_forall. intros p Hp. apply in_map_iff in Hp.
    destruct Hp as [part [<- Hin]].
    destruct Hc as [-> | Hc]; [|now apply date_part_clean].
    apply strip_keeps_free.
    do 3 apply remove_char_keeps_free.
    pose proof (split_on_free "-" (str_of_value float_repr v)) as Hall.
    rewrite Forall_forall in Hall. now apply Hall.
Qed.

(** X17. [process_date] returns one label per row of the frame, whatever the
    frame holds, and no label contains a hyphen, a space, a backslash or
    the letter n (which the cleaning also takes out of month names). *)
Theorem process_date_labels :
  forall (float_repr : Q -> string) (raw_data_df : DataFrame),
    List.length (process_date float_repr raw_data_df)
    = List.length (rows raw_data_df)
    /\ Forall (fun label =>
                 free_of "-" label = true /\ free_of " " label = true
                 /\ free_of "\" label = true /\ free_of "n" label = true)
              (process_date float_repr raw_data_df).
Proof.
  intros fr df. unfold process_date.
  set (name := match column df "DATA" with
               | Some _ => "DATA"%string
               | None => "DATA "%string
               end).
  destruct (column df name) as [cells|] eqn:Hcol.
  - split.
    + rewrite length_map. now apply column_length with (name := name).
    + apply Forall_forall. intros l Hl. apply in_map_iff in Hl.
      destruct Hl as [v [<- _]].
      repeat split; apply date_label_free; auto.
  - split; [apply repeat_length|].
    apply Forall_forall. intros l Hl. apply repeat_spec in Hl. subst l.
    repeat split; reflexivity.
Qed.

Lemma date_label_plain float_repr v :
  all_chars (fun c => negb (is_space c || Ascii.eqb c "\" || Ascii.eqb c "n"))
    (str_of_value float_repr v) = true ->
  date_label float_repr v
  = replace_char "-" "/" (str_of_value float_repr v).
Proof.
  intros Hplain. unfold date_label.
  rewrite <- (join_split_on "-" "/"). f_equal.
  rewrite <- (map_id (split_on "-" (str_of_value float_repr v))) at 2.
  apply map_ext_in. intros part Hin.
  pose proof (split_on_all_chars _ "-" _ Hplain) as Hall.
  rewrite Forall_forall in Hall. specialize (Hall part Hin).
  assert (Hsp : free_of " " part = true).
  { rewrite free_of_all_chars. revert Hall. apply all_chars_weaken.
    intros c. destruct c as [[] [] [] [] [] [] [] []]; vm_compute; congruence. }
  assert (Hbs : free_of "\" part = true).
  { rewrite free_of_all_chars. revert Hall. apply all_chars_weaken.
    intros c. destruct c as [[] [] [] [] [] [] [] []]; vm_compute; congruence. }
  assert (Hn : free_of "n" part = true).
  { rewrite free_of_all_chars. revert Hall. apply all_chars_weaken.
    intros c. destruct c as [[] [] [] [] [] [] [] []]; vm_compute; congruence. }
  assert (Hws : all_chars (fun c => negb (is_space c)) part = true).
  { revert Hall. apply all_chars_weaken.
    intros c. destruct c as [[] [] [] [] [] [] [] []]; vm_compute; congruence. }
  rewrite (remove_char_id " " part Hsp), (remove_char_id "\" part Hbs),
    (remove_char_id "n" part Hn).
  now apply strip_id.
Qed.

(** X18. On a date column, called DATA or, when no column has that name,
    DATA followed by a space, whose cells hold no whitespace, no backslash
    and no letter n, [process_date] returns each cell with every hyphen
    replaced by a slash. *)
Theorem process_date_plain_cells :
  forall (float_repr : Q -> string) (raw_data_df : DataFrame)
         (name : string) (cells : list value),
    (name = "DATA"%string
     \/ name = "DATA "%string /\ column raw_data_df "DATA" = None) ->
    column raw_data_df name = Some cells ->
    Forall (fun v =>
              all_chars
                (fun c => negb (is_space c || Ascii.eqb c "\"
                                || Ascii.eqb c "n"))
                (str_of_value float_repr v) = true) cells ->
    process_date float_repr raw_data_df
    = map (fun v => replace_char "-" "/" (str_of_value float_repr v)) cells.
Proof.
  intros fr df name cells Hname Hcol Hplain. unfold process_date.
  assert (Hsel : match column df "DATA" with
                 | Some _ => "DATA"%string
                 | None => "DATA "%string
                 end = name).
  { destruct Hname as [-> | [-> Hnone]]; [now rewrite Hcol|now rewrite Hnone]. }
  rewrite Hsel, Hcol. apply map_ext_in. intros v Hv.
  rewrite Forall_forall in Hplain. now apply date_label_plain, Hplain.
Qed.

Lemma process_date_plain_cells_witness :
  process_date (fun _ => EmptyString)
    (mk_frame ["HORA"; "DATA "; "mV"]%string
       [[PyStr "09:30"; PyStr "12-05-2023"; PyFloat 1];
        [PyStr "09:31"; PyStr "13-05-2023"; PyFloat 2]])
  = ["12/05/2023"; "13/05/2023"]%string.
Proof.
  apply (process_date_plain_cells (fun _ => EmptyString)
           (mk_frame ["HORA"; "DATA "; "mV"]%string
              [[PyStr "09:30"; PyStr "12-05-2023"; PyFloat 1];
               [PyStr "09:31"; PyStr "13-05-2023"; PyFloat 2]])
           "DATA "%string
           [PyStr "12-05-2023"; PyStr "13-05-2023"]).
  - right. split; reflexivity.
  - reflexivity.
  - repeat constructor.
Defined.

(** * Properties of the time labels *)

Lemma hora_step_appends adj tl acc e tl' acc' :
  hora_step adj (tl, acc) e = Some (tl', acc') ->
  exists label, tl' = tl ++ [label].
Proof.
  unfold hora_step, try_block, except_block.
  destruct (int_of_str (clean_hour (nth 0 (split_on ":" e) EmptyString)))
    as [h|].
  - destruct ((h <? 24) && (1 <? len (split_on ":" e))).
    + destruct (int_of_str
                  (clean_minute (nth 1 (split_on ":" e) EmptyString))) as [m|].
      * intros [= <- <-]. eexists. reflexivity.
      * destruct tl as [|l tl0]; [intros [= <- <-]; now exists "0000"%string|].
        destruct (int_of_str (last_label (l :: tl0)));
          [|discriminate].
        intros [= <- <-]. eexists. reflexivity.
    + destruct (String.eqb acc "0000"
                && match tl with [] => true | _ => false end).
      * intros [= <- <-]. eexists. reflexivity.
      * destruct (int_of_str match tl with
                             | [] => acc
                             | _ => last_label tl
                             end).
        -- intros [= <- <-]. eexists. reflexivity.
        -- destruct tl as [|l tl0];
             [intros [= <- <-]; now exists "0000"%string|].
           destruct (int_of_str (last_label (l :: tl0))); [|discriminate].
           intros [= <- <-]. eexists. reflexivity.
  - destruct tl as [|l tl0]; [intros [= <- <-]; now exists "0000"%string|].
    destruct (int_of_str (last_label (l :: tl0))); [|discriminate].
    intros [= <- <-]. eexists. reflexivity.
Qed.

Lemma hora_loop_length adj entries :
  forall tl acc tl' acc',
    hora_loop adj (tl, acc) entries = Some (tl', acc') ->
    List.length tl' = (List.length tl + List.length entries)%nat.
Proof.
  induction entries as [|e rest IH]; intros tl acc tl' acc'.
  - intros [= <- <-]. simpl. lia.
  - cbn [hora_loop].
    destruct (hora_step adj (tl, acc) e) as [[tl1 acc1]|] eqn:Hstep;
      [|discriminate].
    intros Hloop. apply IH in Hloop.
    apply hora_step_appends in Hstep. destruct Hstep as [label ->].
    rewrite length_app in Hloop. simpl in *. lia.
Qed.

Lemma format_time_length hora adj labels :
  format_time_from_hora_column hora adj = Some labels ->
  List.length labels = List.length hora.
Proof.
  unfold format_time_from_hora_column.
  destruct (hora_loop adj ([], "0000"%string) hora) as [[tl acc]|] eqn:Hloop;
    [|discriminate].
  intros [= <-]. apply hora_loop_length in Hloop. exact Hloop.
Qed.

Lemma table_lookup (P : Z -> Z -> bool) :
  forallb (fun h => forallb (fun m => P (Z.of_nat h) (Z.of_nat m)) (seq 0 100))
          (seq 0 24) = true ->
  forall h m, 0 <= h < 24 -> 0 <= m < 100 -> P h m = true.
Proof.
  intros Htab h m Hh Hm. rewrite forallb_forall in Htab.
  specialize (Htab (Z.to_nat h)). rewrite forallb_forall in Htab.
  specialize (fun H => Htab H (Z.to_nat m)).
  rewrite !Z2Nat.id in Htab by lia.
  apply Htab; apply in_seq; lia.
Qed.

(** The label built from a reading, lines 167-175. *)
Lemma clock_label h m :
  0 <= h < 24 -> 0 <= m < 100 ->
  (let minute_val_str :=
     if m <? 10 then ("0" ++ str_of_Z m)%string else str_of_Z m in
   let joined := (str_of_Z h ++ minute_val_str)%string in
   if Nat.eqb (String.length joined) 3 then ("0" ++ joined)%string
   else if Nat.ltb (String.length joined) 3 then ("00" ++ joined)%string
        else joined) = hhmm (h, m).
Proof.
  intros Hh Hm. apply String.eqb_eq. revert h m Hh Hm.
  apply (table_lookup (fun h m =>
    String.eqb
      (let minute_val_str :=
         if m <? 10 then ("0" ++ str_of_Z m)%string else str_of_Z m in
       let joined := (str_of_Z h ++ minute_val_str)%string in
       if Nat.eqb (String.length joined) 3 then ("0" ++ joined)%string
       else if Nat.ltb (String.length joined) 3 then ("00" ++ joined)%string
            else joined) (hhmm (h, m)))).
  vm_compute. reflexivity.
Qed.

Lemma hhmm_reads_back hm :
  clock_time 100 hm ->
  int_of_str (hhmm hm) = Some (100 * fst hm + snd hm)
  /\ String.length (hhmm hm) = 4%nat.
Proof.
  destruct hm as [h m]. intros [Hh Hm]. cbn [fst snd] in *.
  assert (H : (match int_of_str (hhmm (h, m)) with
               | Some v => v =? 100 * h + m
               | None => false
               end && Nat.eqb (String.length (hhmm (h, m))) 4) = true).
  { revert h m Hh Hm.
    apply (table_lookup (fun h m =>
      match int_of_str (hhmm (h, m)) with
      | Some v => v =? 100 * h + m
      | None => false
      end && Nat.eqb (String.length (hhmm (h, m))) 4)).
    vm_compute. reflexivity. }
  apply andb_true_iff in H. destruct H as [Hv Hl].
  apply Nat.eqb_eq in Hl. split; [|exact Hl].
  destruct (int_of_str (hhmm (h, m))) as [v|]; [|discriminate].
  apply Z.eqb_eq in Hv. now subst v.
Qed.

Lemma advance_on_the_clock adj hm : clock_time 60 (advance adj hm).
Proof.
  unfold clock_time, advance. cbn [fst snd].
  split; apply Z.mod_pos_bound; lia.
Qed.

Lemma clock_time_weaken b b' hm :
  b <= b' -> clock_time b hm -> clock_time b' hm.
Proof. unfold clock_time. intros Hb [Hh Hm]. split; lia. Qed.

Lemma next_label_advances adj hm :
  clock_time 100 hm ->
  next_label (100 * fst hm + snd hm) adj = hhmm (advance adj hm).
Proof.
  destruct hm as [h m]. intros [Hh Hm]. cbn [fst snd] in *.
  unfold next_label, hhmm, advance. cbn [fst snd].
  replace ((100 * h + m) / 100) with h
    by (apply Z.div_unique with (r := m); lia).
  replace ((100 * h + m) mod 100) with m
    by (apply Z.mod_unique with (q := h); lia).
  reflexivity.
Qed.

Lemma last_label_last tl l : last_label (tl ++ [l]) = l.
Proof. unfold last_label. apply last_last. Qed.

(** What the loop knows before an iteration: no label yet and the initial
    string, or a last label that is the time [prev]. *)
Lemma hora_step_tracks adj tl acc prev e :
  (tl = [] /\ prev = None /\ acc = "0000"%string
   \/ exists tl0 hm, tl = tl0 ++ [hhmm hm] /\ prev = Some hm
                     /\ clock_time 100 hm) ->
  (forall hm, clock_reading e = Some hm -> clock_time 100 hm) ->
  let cur := match clock_reading e, prev with
             | Some hm, _ => hm
             | None, Some p => advance adj p
             | None, None => (0, 0)
             end in
  clock_time 100 cur
  /\ exists acc', hora_step adj (tl, acc) e = Some (tl ++ [hhmm cur], acc').
Proof.
  intros Hinv Hread cur.
  assert (Hexc : clock_reading e = None ->
                 clock_time 100 cur
                 /\ except_block adj (tl, acc) = Some (tl ++ [hhmm cur], acc)).
  { intros Hnone. subst cur. rewrite Hnone. unfold except_block.
    destruct Hinv as [[-> [-> ->]]|[tl0 [hm [-> [-> Hhm]]]]].
    - split; [unfold clock_time; cbn; lia|reflexivity].
    - split; [apply clock_time_weaken with (b := 60);
              [lia|apply advance_on_the_clock]|].
      rewrite last_label_last, (proj1 (hhmm_reads_back hm Hhm)).
      rewrite (next_label_advances adj hm Hhm).
      destruct (tl0 ++ [hhmm hm]) eqn:E; [|reflexivity].
      now destruct tl0. }
  unfold hora_step, try_block. unfold clock_reading in Hread, Hexc, cur.
  destruct (int_of_str (clean_hour (nth 0 (split_on ":" e) EmptyString)))
    as [h|].
  - destruct ((h <? 24) && (1 <? len (split_on ":" e))).
    + destruct (int_of_str
                  (clean_minute (nth 1 (split_on ":" e) EmptyString))) as [m|].
      * specialize (Hread (h, m) eq_refl). subst cur.
        split; [exact Hread|]. destruct Hread as [Hh Hm]. cbn [fst snd] in *.
        pose proof (clock_label h m Hh Hm) as Hl. cbv zeta in Hl.
        eexists. cbv zeta. rewrite Hl. reflexivity.
      * destruct (Hexc eq_refl) as [Hc He]. split; [exact Hc|].
        exists acc. exact He.
    + destruct (Hexc eq_refl) as [Hc He]. split; [exact Hc|].
      destruct Hinv as [[-> [-> ->]]|[tl0 [hm [-> [-> Hhm]]]]].
      * exists "0000"%string. reflexivity.
      * subst cur. cbn iota.
        assert (Hne : match tl0 ++ [hhmm hm] with
                      | [] => true
                      | _ :: _ => false
                      end = false) by now destruct tl0.
        rewrite Hne, andb_false_r.
        assert (Hsel : match tl0 ++ [hhmm hm] with
                       | [] => acc
                       | _ :: _ => last_label (tl0 ++ [hhmm hm])
                       end = hhmm hm).
        { pose proof (last_label_last tl0 (hhmm hm)) as Hlast.
          destruct (tl0 ++ [hhmm hm]) eqn:E; [now destruct tl0|exact Hlast]. }
        rewrite Hsel, (proj1 (hhmm_reads_back hm Hhm)).
        rewrite (next_label_advances adj hm Hhm). eexists. reflexivity.
  - destruct (Hexc eq_refl) as [Hc He]. split; [exact Hc|].
    exists acc. exact He.
Qed.

Lemma hora_loop_tracks adj entries :
  forall tl acc prev,
    (tl = [] /\ prev = None /\ acc = "0000"%string
     \/ exists tl0 hm, tl = tl0 ++ [hhmm hm] /\ prev = Some hm
                       /\ clock_time 100 hm) ->
    Forall (fun e => forall hm, clock_reading e = Some hm -> clock_time 100 hm)
           entries ->
    exists acc',
      hora_loop adj (tl, acc) entries
      = Some (tl ++ map hhmm (track adj prev (map clock_reading entries)),
              acc').
Proof.
  induction entries as [|e rest IH]; intros tl acc prev Hinv Hall.
  - exists acc. simpl. now rewrite app_nil_r.
  - inversion Hall as [|? ? He Hrest]; subst.
    destruct (hora_step_tracks adj tl acc prev e Hinv He) as [Hc [acc1 Hs]].
    cbn [hora_loop map track]. rewrite Hs.
    set (cur := match clock_reading e, prev with
                | Some hm, _ => hm
                | None, Some p => advance adj p
                | None, None => (0, 0)
                end) in *.
    destruct (IH (tl ++ [hhmm cur]) acc1 (Some cur)) as [acc2 Hl].
    + right. exists tl, cur. repeat split; assumption || apply Hc.
    + exact Hrest.
    + exists acc2. rewrite Hl. now rewrite <- app_assoc.
Qed.

Lemma track_on_the_clock adj readings :
  forall prev,
    Forall (fun r => forall hm, r = Some hm -> clock_time 60 hm) readings ->
    Forall (clock_time 60) (track adj prev readings).
Proof.
  induction readings as [|r rest IH]; intros prev Hall; [constructor|].
  inversion Hall as [|? ? Hr Hrest]; subst. cbn [track]. constructor.
  - destruct r as [hm|]; [now apply Hr|].
    destruct prev; [apply advance_on_the_clock|].
    unfold clock_time. cbn. lia.
  - now apply IH.
Qed.

(** * Decimal numerals *)

Lemma uint_digits d : all_chars is_digit (NilEmpty.string_of_uint d) = true.
Proof. induction d; simpl; [reflexivity|exact IHd ..]. Qed.

Lemma uint_length d :
  d <> Decimal.Nil -> (1 <= String.length (NilEmpty.string_of_uint d))%nat.
Proof. destruct d; simpl; intros H; [contradiction|lia ..]. Qed.

Lemma uint_one_digit d :
  (String.length (NilEmpty.string_of_uint d) <= 1)%nat -> Z.of_uint d <= 9.
Proof.
  destruct d as [|d|d|d|d|d|d|d|d|d|d]; simpl; intros H;
    [vm_compute; discriminate|..];
    (destruct d; simpl in H; [vm_compute; discriminate|lia ..]).
Qed.

Lemma str_of_Z_nonneg z :
  0 <= z ->
  all_chars is_digit (str_of_Z z) = true
  /\ (1 <= String.length (str_of_Z z))%nat
  /\ (10 <= z -> (2 <= String.length (str_of_Z z))%nat).
Proof.
  intros Hz. unfold str_of_Z. destruct z as [|p|p]; [| |lia].
  - repeat split; simpl; lia.
  - cbn [Z.to_int NilZero.string_of_int]. unfold NilZero.string_of_uint.
    pose proof (Unsigned.to_uint_nonnil p) as Hnn.
    pose proof (uint_digits (Pos.to_uint p)) as Hd.
    pose proof (uint_length (Pos.to_uint p) Hnn) as Hl.
    pose proof (uint_one_digit (Pos.to_uint p)) as H1.
    pose proof (DecimalZ.of_to (Z.pos p)) as Hof.
    cbn [Z.to_int Z.of_int] in Hof.
    destruct (Pos.to_uint p) eqn:E; [contradiction|..];
      (split; [exact Hd|]; split; [exact Hl|]; intros H10;
       destruct (le_lt_dec 2
                   (String.length (NilEmpty.string_of_uint (Pos.to_uint p))))
         as [Hge|Hlt]; rewrite E in *; [exact Hge|];
       exfalso; assert (Hle : Z.of_uint (Pos.to_uint p) <= 9)
         by (rewrite E; apply H1; lia); rewrite E in Hle; lia).
Qed.

Lemma str_of_Z_neg z :
  z < 0 ->
  exists digits,
    str_of_Z z = String "-" digits
    /\ all_chars is_digit digits = true
    /\ (1 <= String.length digits)%nat.
Proof.
  intros Hz. unfold str_of_Z. destruct z as [|p|p]; [lia|lia|].
  cbn [Z.to_int NilZero.string_of_int]. unfold NilZero.string_of_uint.
  pose proof (Unsigned.to_uint_nonnil p) as Hnn.
  pose proof (uint_digits (Pos.to_uint p)) as Hd.
  pose proof (uint_length (Pos.to_uint p) Hnn) as Hl.
  exists (NilEmpty.string_of_uint (Pos.to_uint p)).
  destruct (Pos.to_uint p); [contradiction|..]; repeat split; assumption.
Qed.

Lemma literal_value_digits s :
  all_chars is_digit s = true ->
  forall acc b,
    (s <> EmptyString \/ b = true) ->
    exists v, literal_value s acc b = Some v.
Proof.
  induction s as [|c s IH]; intros Hall acc b Hne.
  - destruct Hne as [Hne| ->]; [contradiction|]. now exists acc.
  - simpl in Hall. apply andb_true_iff in Hall. destruct Hall as [Hc Hs].
    cbn [literal_value]. unfold is_digit in Hc.
    destruct (digit_value c) as [d|]; [|discriminate].
    apply IH; [exact Hs|now right].
Qed.

Lemma is_digit_plain c :
  is_digit c = true ->
  is_space c = false /\ Ascii.eqb c "+" = false /\ Ascii.eqb c "-" = false.
Proof.
  destruct c as [[] [] [] [] [] [] [] []]; vm_compute; intros H;
    repeat split; congruence.
Qed.

Lemma digits_no_space s :
  all_chars is_digit s = true ->
  all_chars (fun c => negb (is_space c)) s = true.
Proof.
  apply all_chars_weaken. intros c Hc.
  now rewrite (proj1 (is_digit_plain c Hc)).
Qed.

Lemma int_of_str_digits s :
  all_chars is_digit s = true -> s <> EmptyString ->
  exists v, int_of_str s = Some v.
Proof.
  intros Hall Hne. unfold int_of_str.
  rewrite (strip_id s (digits_no_space s Hall)).
  destruct (literal_value_digits s Hall 0 false (or_introl Hne)) as [v Hv].
  exists v. destruct s as [|c s]; [contradiction|].
  simpl in Hall. apply andb_true_iff in Hall. destruct Hall as [Hc _].
  destruct (is_digit_plain c Hc) as [_ [Hp Hm]].
  destruct c as [[] [] [] [] [] [] [] []]; try discriminate; exact Hv.
Qed.

Lemma int_of_str_minus_digits s :
  all_chars is_digit s = true -> s <> EmptyString ->
  exists v, int_of_str (String "-" s) = Some v.
Proof.
  intros Hall Hne. unfold int_of_str.
  assert (Hs : strip (String "-" s) = String "-" s).
  { apply strip_id. simpl. now apply digits_no_space. }
  rewrite Hs.
  destruct (literal_value_digits s Hall 0 false (or_introl Hne)) as [v Hv].
  exists (- v). now rewrite Hv.
Qed.

Lemma all_chars_app p s t :
  all_chars p (s ++ t) = all_chars p s && all_chars p t.
Proof.
  induction s as [|a s IH]; [reflexivity|]. simpl. now rewrite IH, andb_assoc.
Qed.

Lemma string_length_app s t :
  String.length (s ++ t) = (String.length s + String.length t)%nat.
Proof. induction s as [|a s IH]; [reflexivity|]. simpl. now rewrite IH. Qed.

Lemma str_of_Z_length z : (1 <= String.length (str_of_Z z))%nat.
Proof.
  destruct (Z_lt_le_dec z 0) as [Hneg|Hpos].
  - destruct (str_of_Z_neg z Hneg) as [ds [-> _]]. simpl. lia.
  - apply (str_of_Z_nonneg z Hpos).
Qed.

(** The minute part of a label has at least two characters. *)
Lemma minute_str_length (m : Z) :
  (2 <= String.length
          (if (m <? 10)%Z then ("0" ++ str_of_Z m)%string
           else str_of_Z m))%nat.
Proof.
  destruct (m <? 10) eqn:E.
  - pose proof (str_of_Z_length m). simpl. lia.
  - apply Z.ltb_ge in E. apply (str_of_Z_nonneg m); lia.
Qed.

(** * The entries that are read *)

Lemma joined_length (h m : Z) :
  (3 <= String.length
          (str_of_Z h
           ++ (if (m <? 10)%Z then ("0" ++ str_of_Z m)%string
               else str_of_Z m)))%nat.
Proof.
  rewrite string_length_app.
  pose proof (str_of_Z_length h). pose proof (minute_str_length m). lia.
Qed.

Lemma try_block_read adj tl acc e h m :
  clock_reading e = Some (h, m) ->
  let joined :=
    (str_of_Z h
     ++ (if (m <? 10)%Z then ("0" ++ str_of_Z m)%string else str_of_Z m))%string in
  let label :=
    if Nat.eqb (String.length joined) 3 then ("0" ++ joined)%string
    else joined in
  h < 24
  /\ try_block adj (tl, acc) e = Some (tl ++ [label], label).
Proof.
  unfold clock_reading, try_block.
  destruct (int_of_str (clean_hour (nth 0 (split_on ":" e) EmptyString)))
    as [h'|]; [|discriminate].
  destruct ((h' <? 24) && (1 <? len (split_on ":" e))) eqn:Hc; [|discriminate].
  destruct (int_of_str (clean_minute (nth 1 (split_on ":" e) EmptyString)))
    as [m'|]; [|discriminate].
  intros [= -> ->]. cbv zeta.
  apply andb_true_iff in Hc. destruct Hc as [Hh _]. apply Z.ltb_lt in Hh.
  split; [exact Hh|].
  pose proof (joined_length h m) as Hlen.
  destruct (Nat.eqb _ 3) eqn:E3; [reflexivity|].
  apply Nat.eqb_neq in E3.
  destruct (Nat.ltb _ 3) eqn:Elt; [|reflexivity].
  apply Nat.ltb_lt in Elt. lia.
Qed.

(** X19. An entry that is read gets a label of its own, whatever came before:
    the decimal digits of the hour followed by those of the minute, the
    minute with a leading zero below ten, and one zero in front when that
    makes three characters. The label has at least four characters, so the
    two zeros of line 175 are never added. *)
Theorem read_entry_label :
  forall (minute_cutoff_adjustment : Z) (time_list : list string)
         (accumulated_hour_minute_str time_entry : string) (h m : Z),
    clock_reading time_entry = Some (h, m) ->
    let joined :=
      (str_of_Z h
       ++ (if (m <? 10)%Z then ("0" ++ str_of_Z m)%string
           else str_of_Z m))%string in
    let label :=
      if Nat.eqb (String.length joined) 3 then ("0" ++ joined)%string
      else joined in
    hora_step minute_cutoff_adjustment
      (time_list, accumulated_hour_minute_str) time_entry
    = Some (time_list ++ [label], label)
    /\ (4 <= String.length label)%nat.
Proof.
  intros adj tl acc e h m Hread joined label.
  destruct (try_block_read adj tl acc e h m Hread) as [_ Htry].
  cbv zeta in Htry. unfold hora_step. fold joined in Htry. fold label in Htry.
  rewrite Htry. split; [reflexivity|].
  pose proof (joined_length h m) as Hlen. fold joined in Hlen.
  subst label. destruct (Nat.eqb (String.length joined) 3) eqn:E3.
  - apply Nat.eqb_eq in E3. simpl. lia.
  - apply Nat.eqb_neq in E3. lia.
Qed.

Lemma read_entry_label_witness :
  clock_reading " 9:05" = Some (9, 5)
  /\ hora_step 3 (["2358"%string], "2358"%string) " 9:05"
     = Some (["2358"; "0905"]%string, "0905"%string).
Proof.
  split; [reflexivity|].
  exact (proj1 (read_entry_label 3 ["2358"%string] "2358"%string " 9:05" 9 5
                  eq_refl)).
Defined.

(** * When an exception leaves the loop *)

Lemma minute_str_digits m :
  0 <= m ->
  all_chars is_digit
    (if (m <? 10)%Z then ("0" ++ str_of_Z m)%string else str_of_Z m) = true.
Proof.
  intros Hm. pose proof (proj1 (str_of_Z_nonneg m Hm)) as Hd.
  destruct (m <? 10); [|exact Hd]. simpl. exact Hd.
Qed.

Lemma read_label_parses h m :
  0 <= m ->
  let joined :=
    (str_of_Z h
     ++ (if (m <? 10)%Z then ("0" ++ str_of_Z m)%string else str_of_Z m))%string in
  exists v,
    int_of_str (if Nat.eqb (String.length joined) 3 then ("0" ++ joined)%string
                else joined) = Some v.
Proof.
  intros Hm joined. pose proof (minute_str_digits m Hm) as Hmd.
  pose proof (minute_str_length m) as Hml.
  destruct (Z_lt_le_dec h 0) as [Hneg|Hpos].
  - destruct (str_of_Z_neg h Hneg) as [ds [Hs [Hd Hl]]].
    subst joined. rewrite Hs. cbn [String.append String.length].
    rewrite string_length_app.
    cbn [String.append] in Hml, Hmd.
    destruct (Nat.eqb _ 3) eqn:E3; [apply Nat.eqb_eq in E3; lia|].
    apply int_of_str_minus_digits.
    + now rewrite all_chars_app, Hd, Hmd.
    + destruct ds; [simpl in Hl; lia|discriminate].
  - destruct (str_of_Z_nonneg h Hpos) as [Hd [Hl _]].
    assert (Hj : all_chars is_digit joined = true)
      by (subst joined; now rewrite all_chars_app, Hd, Hmd).
    assert (Hne : joined <> EmptyString).
    { subst joined. destruct (str_of_Z h); [simpl in Hl; lia|discriminate]. }
    destruct (Nat.eqb _ 3).
    + apply int_of_str_digits; [simpl; exact Hj|discriminate].
    + now apply int_of_str_digits.
Qed.

Lemma next_label_parses v adj :
  exists v', int_of_str (next_label v adj) = Some v'.
Proof.
  set (hm := ((v / 100 + (v mod 100 + adj) / 60) mod 24,
              (v mod 100 + adj) mod 60)).
  assert (Hc : clock_time 100 hm).
  { unfold clock_time, hm. cbn [fst snd].
    split; [apply Z.mod_pos_bound; lia|].
    pose proof (Z.mod_pos_bound (v mod 100 + adj) 60). lia. }
  exists (100 * fst hm + snd hm).
  exact (proj1 (hhmm_reads_back hm Hc)).
Qed.

Lemma nonempty_match {A B : Type} (l : list A) (x : A) (a b : B) :
  match l ++ [x] with [] => a | _ :: _ => b end = b.
Proof. now destruct l. Qed.

(** One iteration from a state whose last label, if any, is an integer. *)
Lemma hora_step_safe adj tl acc e :
  (tl = [] /\ acc = "0000"%string
   \/ exists tl0 l v, tl = tl0 ++ [l] /\ int_of_str l = Some v) ->
  (forall h m, clock_reading e = Some (h, m) -> 0 <= m) ->
  exists l v acc',
    hora_step adj (tl, acc) e = Some (tl ++ [l], acc')
    /\ int_of_str l = Some v.
Proof.
  intros Hinv Hread.
  destruct (clock_reading e) as [[h m]|] eqn:Hcr.
  - destruct (try_block_read adj tl acc e h m Hcr) as [_ Htry].
    cbv zeta in Htry. unfold hora_step. rewrite Htry.
    destruct (read_label_parses h m (Hread h m eq_refl)) as [v Hv].
    cbv zeta in Hv. eexists. exists v. eexists. split; [reflexivity|exact Hv].
  - assert (Hexc : exists l v,
               except_block adj (tl, acc) = Some (tl ++ [l], acc)
               /\ int_of_str l = Some v).
    { unfold except_block.
      destruct Hinv as [[-> ->]|[tl0 [l [v [-> Hv]]]]].
      - exists "0000"%string, 0. split; reflexivity.
      - rewrite nonempty_match, last_label_last, Hv.
        destruct (next_label_parses v adj) as [v' Hv'].
        exists (next_label v adj), v'. split; [reflexivity|exact Hv']. }
    destruct Hexc as [l [v [He Hv]]].
    unfold hora_step, try_block. unfold clock_reading in Hcr.
    destruct (int_of_str (clean_hour (nth 0 (split_on ":" e) EmptyString)))
      as [h|]; [|exists l, v, acc; now split].
    destruct ((h <? 24) && (1 <? len (split_on ":" e))).
    + destruct (int_of_str
                  (clean_minute (nth 1 (split_on ":" e) EmptyString)));
        [discriminate|exists l, v, acc; now split].
    + destruct Hinv as [[-> ->]|[tl0 [l0 [v0 [-> Hv0]]]]].
      * exists "0000"%string, 0, "0000"%string. split; reflexivity.
      * rewrite !nonempty_match, andb_false_r, last_label_last, Hv0.
        destruct (next_label_parses v0 adj) as [v' Hv'].
        exists (next_label v0 adj), v'. eexists.
        split; [reflexivity|exact Hv'].
Qed.

Lemma hora_loop_safe adj entries :
  forall tl acc,
    (tl = [] /\ acc = "0000"%string
     \/ exists tl0 l v, tl = tl0 ++ [l] /\ int_of_str l = Some v) ->
    Forall (fun e => forall h m, clock_reading e = Some (h, m) -> 0 <= m)
           entries ->
    exists st, hora_loop adj (tl, acc) entries = Some st.
Proof.
  induction entries as [|e rest IH]; intros tl acc Hinv Hall.
  - now exists (tl, acc).
  - inversion Hall as [|? ? He Hrest]; subst.
    destruct (hora_step_safe adj tl acc e Hinv He) as [l [v [acc1 [Hs Hv]]]].
    cbn [hora_loop]. rewrite Hs. apply IH; [|exact Hrest].
    right. now exists tl, l, v.
Qed.

(** X20. As long as no entry is read with a negative minute,
    [format_time_from_hora_column] returns, with one label per entry: the
    exception that can leave it comes from a label such as 9-5, built from
    an entry read as 9:-5, that a later entry cannot be counted from. *)
Theorem format_time_returns :
  forall (hora : list string) (minute_cutoff_adjustment : Z),
    Forall (fun time_entry =>
              forall h m, clock_reading time_entry = Some (h, m) -> 0 <= m)
           hora ->
    exists time_list,
      format_time_from_hora_column hora minute_cutoff_adjustment
      = Some time_list
      /\ List.length time_list = List.length hora.
Proof.
  intros hora adj Hall.
  destruct (hora_loop_safe adj hora [] "0000"%string) as [[tl acc] Hl];
    [now left|exact Hall|].
  exists tl. split.
  - unfold format_time_from_hora_column. now rewrite Hl.
  - apply hora_loop_length in Hl. exact Hl.
Qed.

Lemma format_time_returns_witness :
  exists time_list,
    format_time_from_hora_column ["-1:5"; "x"; "12:75"; ""]%string 3
    = Some time_list
    /\ List.length time_list = 4%nat.
Proof.
  apply (format_time_returns ["-1:5"; "x"; "12:75"; ""]%string 3).
  repeat (apply Forall_cons; [intros h m H; vm_compute in H;
                              first [discriminate H
                                    |injection H as <- <-; lia]|]).
  apply Forall_nil.
Defined.

(** * The labels of a column of clock times *)

(** X21. On a column whose read entries have a non-negative hour and a minute
    from 0 to 99, the labels are the HHMM forms of these clock times: an
    entry that is read gives its own time, any other entry the time of the
    label before it moved on by the adjustment on a 24 hour clock, or 0000
    when it comes first. *)
Theorem hora_labels_follow_the_clock :
  forall (hora : list string) (minute_cutoff_adjustment : Z),
    Forall (fun time_entry =>
              forall hm, clock_reading time_entry = Some hm ->
                         clock_time 100 hm) hora ->
    format_time_from_hora_column hora minute_cutoff_adjustment
    = Some (map hhmm
              (track minute_cutoff_adjustment None (map clock_reading hora))).
Proof.
  intros hora adj Hall.
  destruct (hora_loop_tracks adj hora [] "0000"%string None) as [acc Hl];
    [now left|exact Hall|].
  unfold format_time_from_hora_column. now rewrite Hl.
Qed.

Lemma clock_column_readable :
  Forall (fun time_entry =>
            forall hm, clock_reading time_entry = Some hm -> clock_time 60 hm)
         ["09:30"; " 9:5"; "bad"; "25:00"; "23:59"; "x"; "0:0"]%string.
Proof.
  repeat (apply Forall_cons;
          [intros hm H; vm_compute in H;
           first [discriminate H
                 |injection H as <-; unfold clock_time; cbn; lia]|]).
  apply Forall_nil.
Qed.

Lemma hora_labels_follow_the_clock_witness :
  format_time_from_hora_column
    ["09:30"; " 9:5"; "bad"; "25:00"; "23:59"; "x"; "0:0"]%string 3
  = Some ["0930"; "0905"; "0908"; "0911"; "2359"; "0002"; "0000"]%string.
Proof.
  apply (hora_labels_follow_the_clock
           ["09:30"; " 9:5"; "bad"; "25:00"; "23:59"; "x"; "0:0"]%string 3).
  eapply Forall_impl; [|exact clock_column_readable].
  intros e He hm Hhm. apply clock_time_weaken with (b := 60); [lia|].
  now apply He.
Defined.

(** X22. On a column whose read entries are times of day, every label has
    four characters and is read back by [int] as 100 times an hour below 24
    plus a minute below 60, which is how [extract_features] reads the
    labels. *)
Theorem hora_labels_read_back :
  forall (hora : list string) (minute_cutoff_adjustment : Z),
    Forall (fun time_entry =>
              forall hm, clock_reading time_entry = Some hm ->
                         clock_time 60 hm) hora ->
    exists time_list,
      format_time_from_hora_column hora minute_cutoff_adjustment
      = Some time_list
      /\ List.length time_list = List.length hora
      /\ Forall (fun label =>
                   String.length label = 4%nat
                   /\ exists hm, clock_time 60 hm
                        /\ int_of_str label = Some (100 * fst hm + snd hm))
                time_list.
Proof.
  intros hora adj Hall.
  assert (Hall' : Forall (fun e => forall hm, clock_reading e = Some hm ->
                                              clock_time 100 hm) hora).
  { eapply Forall_impl; [|exact Hall]. intros e He hm Hhm.
    apply clock_time_weaken with (b := 60); [lia|now apply He]. }
  destruct (hora_loop_tracks adj hora [] "0000"%string None) as [acc Hl];
    [now left|exact Hall'|].
  cbn [app] in Hl.
  exists (map hhmm (track adj None (map clock_reading hora))).
  split; [unfold format_time_from_hora_column; now rewrite Hl|].
  split; [exact (hora_loop_length _ _ _ _ _ _ Hl)|].
  assert (Hclock : Forall (clock_time 60)
                     (track adj None (map clock_reading hora))).
  { apply track_on_the_clock. apply Forall_forall. intros r Hr hm ->.
    apply in_map_iff in Hr. destruct Hr as [e [He Hin]].
    rewrite Forall_forall in Hall. now apply (Hall e Hin). }
  apply Forall_forall. intros label Hin. apply in_map_iff in Hin.
  destruct Hin as [hm [<- Hhm]].
  rewrite Forall_forall in Hclock. specialize (Hclock hm Hhm).
  assert (H100 : clock_time 100 hm)
    by (apply clock_time_weaken with (b := 60); [lia|exact Hclock]).
  destruct (hhmm_reads_back hm H100) as [Hv Hlen].
  split; [exact Hlen|]. now exists hm.
Qed.

Lemma hora_labels_read_back_witness :
  exists time_list,
    format_time_from_hora_column
      ["09:30"; " 9:5"; "bad"; "25:00"; "23:59"; "x"; "0:0"]%string 3
    = Some time_list
    /\ List.length time_list = 7%nat
    /\ Forall (fun label =>
                 String.length label = 4%nat
                 /\ exists hm, clock_time 60 hm
                      /\ int_of_str label = Some (100 * fst hm + snd hm))
              time_list.
Proof.
  exact (hora_labels_read_back
           ["09:30"; " 9:5"; "bad"; "25:00"; "23:59"; "x"; "0:0"]%string 3
           clock_column_readable).
Defined.

(** * [process_time] *)

Lemma negative_minute_or_none (entries : list string) :
  Forall (fun e => forall h m, clock_reading e = Some (h, m) -> 0 <= m)
         entries
  \/ Exists (fun e => exists h m, clock_reading e = Some (h, m) /\ m < 0)
            entries.
Proof.
  induction entries as [|e rest IH]; [left; constructor|].
  destruct IH as [IH|IH]; [|right; now apply Exists_cons_tl].
  destruct (clock_reading e) as [[h m]|] eqn:Hcr.
  - destruct (Z_lt_le_dec m 0) as [Hneg|Hpos].
    + right. apply Exists_cons_hd. now exists h, m.
    + left. constructor; [|exact IH]. rewrite Hcr. now intros ? ? [= <- <-].
  - left. constructor; [|exact IH]. rewrite Hcr. discriminate.
Qed.

Lemma format_time_raises hora adj :
  format_time_from_hora_column hora adj = None ->
  Exists (fun e => exists h m, clock_reading e = Some (h, m) /\ m < 0) hora.
Proof.
  intros Hnone. destruct (negative_minute_or_none hora) as [Hall|Hex];
    [|exact Hex].
  destruct (hora_loop_safe adj hora [] "0000"%string) as [st Hl];
    [now left|exact Hall|].
  unfold format_time_from_hora_column in Hnone. rewrite Hl in Hnone.
  discriminate.
Qed.

(** X23. [process_time] returns one label per row of the frame, on every
    path. Either it logs nothing, or all its labels are 0000 and it logs
    one entry: an error when the extractor is not set, or a warning, which
    happens only when some cell of the HORA column was read with a negative
    minute. *)
Theorem process_time_labels :
  forall (float_repr : Q -> string) (extractor : bool)
         (raw_data_df : DataFrame) (minute_segment_length : Z),
    let r := process_time float_repr extractor raw_data_df
               minute_segment_length in
    List.length (fst r) = List.length (rows raw_data_df)
    /\ (snd r = []
        \/ fst r = repeat "0000"%string (List.length (rows raw_data_df))
           /\ (extractor = false
               /\ snd r = [(MsgExtractorNotInitialized, Some LvError)]
               \/ snd r = [(MsgErrorFormattingTime, Some LvWarning)]
                  /\ exists cells,
                       column raw_data_df "HORA" = Some cells
                       /\ Exists (fun v =>
                                    exists h m,
                                      clock_reading (str_of_value float_repr v)
                                      = Some (h, m) /\ m < 0) cells)).
Proof.
  intros fr ext df adj r. subst r. unfold process_time.
  destruct (column df "HORA") as [cells|] eqn:Hcol;
    [|split; [apply repeat_length|now left]].
  destruct ext;
    [|split; [apply repeat_length|right; split; [reflexivity|now left]]].
  destruct (format_time_from_hora_column (map (str_of_value fr) cells) adj)
    as [tl|] eqn:Hf.
  - split; [|now left]. cbn [fst].
    rewrite (format_time_length _ _ _ Hf), length_map.
    now apply column_length with (name := "HORA"%string).
  - split; [apply repeat_length|]. right. split; [reflexivity|]. right.
    split; [reflexivity|]. exists cells. split; [reflexivity|].
    apply format_time_raises in Hf. apply Exists_exists in Hf.
    destruct Hf as [e [Hin He]]. apply in_map_iff in Hin.
    destruct Hin as [v [<- Hv]]. apply Exists_exists. now exists v.
Qed.
